(** * generate_image.py: a shallow embedding and its checked properties

    The program drives a remote image service: it submits a job, polls it,
    downloads the artifact, saves it under a dated folder and records the
    operation in a log and in a "last image" file.  This development embeds
    the functions of [generate_image.py] that carry its policies (slug
    derivation, input resolution, upload configuration, submission checks,
    polling, target dimensions, extension choice, engine selection,
    provenance) and proves what the code does. *)

From Stdlib Require Import String Ascii DecimalString.
From Stdlib Require Import List Bool Arith ZArith NArith Lia.
Import ListNotations.

(** ** Python strings

    A Python [str] is a sequence of Unicode code points: a list of [N]. *)

Module PyStr.

Definition char := N.
Definition str := list char.

(** Literals are written as Rocq strings and read code point by code point. *)
Definition str_of (x : string) : str :=
  map N_of_ascii (list_ascii_of_string x).
Arguments str_of x%_string.

Definition hyphen : char := 45%N.
Definition underscore : char := 95%N.
Definition newline : char := 10%N.

Definition char_eqb (a b : char) : bool := N.eqb a b.

Fixpoint str_eqb (a b : str) : bool :=
  match a, b with
  | [], [] => true
  | x :: a', y :: b' => char_eqb x y && str_eqb a' b'
  | _, _ => false
  end.

(** [s.startswith(p)] *)
Fixpoint startswith (s p : str) {struct p} : bool :=
  match p, s with
  | [], _ => true
  | x :: p', y :: s' => char_eqb x y && startswith s' p'
  | _ :: _, [] => false
  end.

(** [s.endswith(p)] *)
Definition endswith (s p : str) : bool := startswith (rev s) (rev p).

(** [p in s] (substring test) *)
Fixpoint contains (s p : str) : bool :=
  startswith s p ||
  match s with
  | [] => false
  | _ :: s' => contains s' p
  end.

(** [\s] of the [re] module on [str] patterns, which is also what
    [str.strip()] strips and [str.isspace] accepts. *)
Definition is_space (c : char) : bool :=
  ((9 <=? c) && (c <=? 13) || (28 <=? c) && (c <=? 32)
   || (c =? 133) || (c =? 160) || (c =? 5760)
   || (8192 <=? c) && (c <=? 8202)
   || (c =? 8232) || (c =? 8233) || (c =? 8239) || (c =? 8287)
   || (c =? 12288))%N.

Definition is_lower_az (c : char) : bool := ((97 <=? c) && (c <=? 122))%N.
Definition is_upper_az (c : char) : bool := ((65 <=? c) && (c <=? 90))%N.
Definition is_digit (c : char) : bool := ((48 <=? c) && (c <=? 57))%N.
Definition is_hyphen (c : char) : bool := char_eqb c hyphen.

(** [str.lower()], code point by code point.  ASCII capitals move to their
    small letters.  Outside ASCII only two code points have a lowercase form
    that contains an ASCII letter: U+0130 (to "i" and U+0307) and U+212A, the
    Kelvin sign (to "k").  Every other code point outside ASCII lowers to
    code points outside ASCII that are not white space; they are left as
    they are here, which no caller in this program can tell apart, since
    [slugify] deletes them in its next step. *)
Definition lower_char (c : char) : str :=
  if is_upper_az c then [(c + 32)%N]
  else if (c =? 304)%N then [105%N; 775%N]
  else if (c =? 8490)%N then [107%N]
  else [c].

Definition lower (s : str) : str := flat_map lower_char s.

(** [s.lstrip(chars)], [s.rstrip(chars)] and [s.strip(chars)], the set of
    characters given as a predicate. *)
Fixpoint lstrip_by (p : char -> bool) (s : str) : str :=
  match s with
  | [] => []
  | c :: s' => if p c then lstrip_by p s' else s
  end.

Definition rstrip_by (p : char -> bool) (s : str) : str :=
  rev (lstrip_by p (rev s)).

Definition strip_by (p : char -> bool) (s : str) : str :=
  rstrip_by p (lstrip_by p s).

(** [s.strip()] *)
Definition strip (s : str) : str := strip_by is_space s.

(** [re.sub('[cls]', '', s)]: delete every character of the class. *)
Definition re_delete (cls : char -> bool) (s : str) : str :=
  filter (fun c => negb (cls c)) s.

(** [re.sub('[cls]+', repl, s)]: every maximal run of characters of the
    class is replaced by [repl].  [in_run] tells that the previous character
    was of the class, so that the run has been replaced already. *)
Fixpoint re_sub_runs_from (cls : char -> bool) (repl : str)
    (in_run : bool) (s : str) : str :=
  match s with
  | [] => []
  | c :: s' =>
      if cls c then
        (if in_run then [] else repl) ++ re_sub_runs_from cls repl true s'
      else c :: re_sub_runs_from cls repl false s'
  end.

Definition re_sub_runs (cls : char -> bool) (repl : str) (s : str) : str :=
  re_sub_runs_from cls repl false s.

(** [len(s)] as a Python integer. *)
Definition len (s : str) : Z := Z.of_nat (length s).

(** [s[:m]]: a negative bound counts from the end. *)
Definition slice_to (s : str) (m : Z) : str :=
  if (0 <=? m)%Z then firstn (Z.to_nat m) s
  else firstn (Z.to_nat (len s + m)) s.

(** The part of [s] before its last [sep], when [sep] occurs in [s]. *)
Fixpoint before_last (sep : char) (s : str) : option str :=
  match s with
  | [] => None
  | c :: s' =>
      match before_last sep s' with
      | Some h => Some (c :: h)
      | None => if char_eqb c sep then Some [] else None
      end
  end.

(** [s.rsplit(sep, 1)[0]]: split once, at the last [sep]; a string without
    [sep] is its own only piece. *)
Definition rsplit1_head (sep : char) (s : str) : str :=
  match before_last sep s with
  | Some h => h
  | None => s
  end.

(** [s or default] *)
Definition or_default (s default : str) : str :=
  match s with
  | [] => default
  | _ => s
  end.

End PyStr.
Import PyStr.

(** ** Slug derivation: [slugify] *)

Module Slug.

(** [[^a-z0-9\s-]]: what the first substitution deletes. *)
Definition not_kept (c : char) : bool :=
  negb (is_lower_az c || is_digit c || is_space c || is_hyphen c).

(** [[\s_]] *)
Definition space_or_underscore (c : char) : bool :=
  is_space c || char_eqb c underscore.

(** The slug before truncation: lines 284 to 292. *)
Definition slug_clean (text : str) : str :=
  let slug := strip (lower text) in
  let slug := re_delete not_kept slug in
  let slug := re_sub_runs space_or_underscore [hyphen] slug in
  let slug := re_sub_runs is_hyphen [hyphen] slug in
  strip_by is_hyphen slug.

(** Lines 294 and 295. *)
Definition truncate (slug : str) (max_length : Z) : str :=
  if (len slug >? max_length)%Z
  then rsplit1_head hyphen (slice_to slug max_length)
  else slug.

Definition slugify (text : str) (max_length : Z) : str :=
  or_default (truncate (slug_clean text) max_length) (str_of "image").

(** The default of the parameter [max_length]. *)
Definition default_max_length : Z := 50.

(** The alphabet of slugs. *)
Definition slug_char (c : char) : bool :=
  is_lower_az c || is_digit c || is_hyphen c.

(** Two neighbours that both satisfy [p]. *)
Fixpoint adjacent (p : char -> bool) (s : str) : bool :=
  match s with
  | c1 :: ((c2 :: _) as s') => (p c1 && p c2) || adjacent p s'
  | _ => false
  end.

Definition starts_in (p : char -> bool) (s : str) : bool :=
  match s with
  | c :: _ => p c
  | [] => false
  end.

Definition ends_in (p : char -> bool) (s : str) : bool := starts_in p (rev s).

(** A well-formed slug: slug characters only, hyphens single and inside. *)
Definition well_formed (s : str) : bool :=
  forallb slug_char s && negb (adjacent is_hyphen s)
  && negb (starts_in is_hyphen s) && negb (ends_in is_hyphen s).

(** [out] is [full] cut at a word boundary: all of [full], or a prefix that
    a hyphen follows in [full]. *)
Definition cut_at_word_boundary (full out : str) : bool :=
  startswith full out &&
  match skipn (length out) full with
  | [] => true
  | c :: _ => is_hyphen c
  end.

End Slug.
Import Slug.

(** ** Python values and JSON

    What [response.json()] returns, what a log entry holds and what
    [json.dumps] prints. *)

Module Json.

(** A float, carried by the shortest decimal that reads back as it, which
    is the one [repr] prints: [FDec m e] is [m * 10^e]. *)
Inductive pyfloat :=
  | FNan
  | FInf (negative : bool)
  | FDec (mantissa : Z) (exp10 : Z).

#[warnings="-register-all"]
Inductive value :=
  | VNone
  | VBool (b : bool)
  | VInt (z : Z)
  | VFloat (f : pyfloat)
  | VStr (s : str)
  | VList (l : list value)
  | VDict (d : list (str * value)).

(** A [dict] with [str] keys, in insertion order. *)
Definition dict := list (str * value).

Fixpoint dict_get (k : str) (d : dict) : option value :=
  match d with
  | [] => None
  | (k', v) :: d' => if str_eqb k k' then Some v else dict_get k d'
  end.

(** [d.get(k, default)] *)
Definition dict_get_default (k : str) (default : value) (d : dict) : value :=
  match dict_get k d with
  | Some v => v
  | None => default
  end.

(** [d[k] = v]: a present key keeps its place. *)
Fixpoint dict_set (k : str) (v : value) (d : dict) : dict :=
  match d with
  | [] => [(k, v)]
  | (k', v') :: d' =>
      if str_eqb k k' then (k, v) :: d' else (k', v') :: dict_set k v d'
  end.

(** Truth value of an object, as [if x] and [not x] take it. *)
Definition float_truthy (f : pyfloat) : bool :=
  match f with
  | FDec m _ => negb (m =? 0)%Z
  | _ => true
  end.

Definition truthy (v : value) : bool :=
  match v with
  | VNone => false
  | VBool b => b
  | VInt z => negb (z =? 0)%Z
  | VFloat f => float_truthy f
  | VStr s => negb (str_eqb s [])
  | VList l => match l with [] => false | _ => true end
  | VDict d => match d with [] => false | _ => true end
  end.

(** [x == "literal"] for an object [x]. *)
Definition value_is_str (v : value) (s : str) : bool :=
  match v with
  | VStr x => str_eqb x s
  | _ => false
  end.

(** Decimal digits of an integer. *)
Definition str_of_Z (z : Z) : str :=
  str_of (DecimalString.NilZero.string_of_int (Z.to_int z)).

Definition zero_digit : char := 48%N.

(** An exponent of [repr]: two digits at least. *)
Definition two_digits (s : str) : str :=
  if (length s <? 2)%nat then zero_digit :: s else s.

(** [float.__repr__] of a finite float.  With [digits] the digits of the
    mantissa without its final zeros and the point [decpt] places after
    their start, the fixed layout is used for [-4 < decpt <= 16] and the
    exponent layout otherwise. *)
Definition float_repr (m e : Z) : str :=
  if (m =? 0)%Z then str_of "0.0"
  else
    let all := str_of_Z (Z.abs m) in
    let digits := rstrip_by (char_eqb zero_digit) all in
    let decpt := (len all + e)%Z in
    let n := len digits in
    (if (m <? 0)%Z then str_of "-" else []) ++
    (if ((-4 <? decpt) && (decpt <=? 16))%Z then
       if (decpt <=? 0)%Z
       then str_of "0." ++ repeat zero_digit (Z.to_nat (- decpt)) ++ digits
       else if (n <=? decpt)%Z
       then digits ++ repeat zero_digit (Z.to_nat (decpt - n)) ++ str_of ".0"
       else firstn (Z.to_nat decpt) digits ++ str_of "."
            ++ skipn (Z.to_nat decpt) digits
     else
       firstn 1 digits
       ++ (if (1 <? n)%Z then str_of "." ++ skipn 1 digits else [])
       ++ str_of "e"
       ++ (if (decpt - 1 <? 0)%Z then str_of "-" else str_of "+")
       ++ two_digits (str_of_Z (Z.abs (decpt - 1)))).

(** A float as [json.dumps] prints it. *)
Definition float_text (f : pyfloat) : str :=
  match f with
  | FNan => str_of "NaN"
  | FInf false => str_of "Infinity"
  | FInf true => str_of "-Infinity"
  | FDec m e => float_repr m e
  end.

Definition hex_digit (n : N) : char :=
  (if n <? 10 then 48 + n else 87 + n)%N.

(** [\uXXXX] for a code point below 65536. *)
Definition u_escape (c : N) : str :=
  str_of "\u" ++
  [hex_digit (c / 4096); hex_digit ((c / 256) mod 16);
   hex_digit ((c / 16) mod 16); hex_digit (c mod 16)]%N.

Definition quote_mark : char := 34%N.
Definition backslash : char := 92%N.

(** One character of a string literal, with [ensure_ascii] on. *)
Definition escape_char (c : char) : str :=
  if (c =? 34)%N then [backslash; quote_mark]
  else if (c =? 92)%N then [backslash; backslash]
  else if (c =? 10)%N then str_of "\n"
  else if (c =? 13)%N then str_of "\r"
  else if (c =? 9)%N then str_of "\t"
  else if (c =? 8)%N then str_of "\b"
  else if (c =? 12)%N then str_of "\f"
  else if ((32 <=? c) && (c <? 127))%N then [c]
  else if (c <? 65536)%N then u_escape c
  else let v := (c - 65536)%N in
       u_escape (55296 + v / 1024) ++ u_escape (56320 + v mod 1024).

Definition quote (s : str) : str :=
  quote_mark :: flat_map escape_char s ++ [quote_mark].

(** The line break and indentation that [indent=n] puts before an item at
    nesting depth [level]; nothing without [indent]. *)
Definition newline_indent (indent : option nat) (level : nat) : str :=
  match indent with
  | None => []
  | Some n => newline :: repeat 32%N (n * level)
  end.

(** Between two items: [", "] by default, [","] and a line break with
    [indent]. *)
Definition item_separator (indent : option nat) (level : nat) : str :=
  match indent with
  | None => str_of ", "
  | Some _ => str_of "," ++ newline_indent indent level
  end.

(** [sep.join(show(x) for x in items)] *)
Definition join_with {A : Type} (show : A -> str) (sep : str)
  : list A -> str :=
  fix join (items : list A) : str :=
    match items with
    | [] => []
    | x :: rest =>
        show x ++ match rest with
                  | [] => []
                  | _ => sep ++ join rest
                  end
    end.

(** [json.dumps(v, indent=indent)], at nesting depth [level]. *)
Fixpoint dumps_at (indent : option nat) (level : nat) (v : value) : str :=
  match v with
  | VNone => str_of "null"
  | VBool true => str_of "true"
  | VBool false => str_of "false"
  | VInt z => str_of_Z z
  | VFloat f => float_text f
  | VStr s => quote s
  | VList l =>
      match l with
      | [] => str_of "[]"
      | _ =>
          str_of "[" ++ newline_indent indent (S level) ++
          join_with (dumps_at indent (S level))
            (item_separator indent (S level)) l ++
          newline_indent indent level ++ str_of "]"
      end
  | VDict d =>
      match d with
      | [] => str_of "{}"
      | _ =>
          str_of "{" ++ newline_indent indent (S level) ++
          join_with
            (fun kv : str * value =>
               let (k, x) := kv in
               quote k ++ str_of ": " ++ dumps_at indent (S level) x)
            (item_separator indent (S level)) d ++
          newline_indent indent level ++ str_of "}"
      end
  end.

(** [json.dumps(v)] and [json.dumps(v, indent=2)] *)
Definition dumps (v : value) : str := dumps_at None 0 v.
Definition dumps_indent2 (v : value) : str := dumps_at (Some 2) 0 v.

End Json.
Import Json.

(** ** The preset table: [UPSCALE_PRESETS] *)

Module Presets.

(** The two values [--engine] accepts. *)
Inductive engine := Topaz | Bloom.

Definition engine_eqb (a b : engine) : bool :=
  match a, b with
  | Topaz, Topaz | Bloom, Bloom => true
  | _, _ => false
  end.

Record topaz_settings := {
  t_model : str;
  t_sharpen : pyfloat;
  t_denoise : pyfloat;
  t_fix_compression : pyfloat;
  t_face_enhancement : bool
}.

Record bloom_settings := {
  b_creativity : Z;
  b_face_preservation : bool;
  b_color_preservation : bool
}.

Record preset := {
  description : str;
  preset_engine : engine;
  preset_topaz : topaz_settings;
  preset_bloom : bloom_settings
}.

(** The seven values [--preset] accepts, which are the keys of the table. *)
Inductive preset_name :=
  Portrait | Photo | Artwork | Cgi | Lowres | Text | Creative.

(** [0.d] *)
Definition tenths (d : Z) : pyfloat := FDec d (-1).

Definition UPSCALE_PRESETS (name : preset_name) : preset :=
  match name with
  | Portrait =>
      {| description := str_of "Portrait photograph (face preservation enabled)";
         preset_engine := Topaz;
         preset_topaz := Build_topaz_settings (str_of "High Fidelity V2")
                           (tenths 4) (tenths 3) (tenths 4) true;
         preset_bloom := Build_bloom_settings 2 true true |}
  | Photo =>
      {| description := str_of "General photograph (realistic, preserve details)";
         preset_engine := Topaz;
         preset_topaz := Build_topaz_settings (str_of "High Fidelity V2")
                           (tenths 5) (tenths 3) (tenths 5) false;
         preset_bloom := Build_bloom_settings 2 false true |}
  | Artwork =>
      {| description := str_of "Digital art, illustration, or AI-generated image";
         preset_engine := Topaz;
         preset_topaz := Build_topaz_settings (str_of "Standard V2")
                           (tenths 6) (tenths 2) (tenths 3) false;
         preset_bloom := Build_bloom_settings 4 false false |}
  | Cgi =>
      {| description := str_of "3D render or CGI content";
         preset_engine := Topaz;
         preset_topaz := Build_topaz_settings (str_of "CGI")
                           (tenths 5) (tenths 1) (tenths 2) false;
         preset_bloom := Build_bloom_settings 3 false true |}
  | Lowres =>
      {| description := str_of "Low resolution or heavily compressed source";
         preset_engine := Bloom;
         preset_topaz := Build_topaz_settings (str_of "Low Resolution V2")
                           (tenths 3) (tenths 7) (tenths 8) false;
         preset_bloom := Build_bloom_settings 5 false false |}
  | Text =>
      {| description := str_of "Image with important text/typography";
         preset_engine := Topaz;
         preset_topaz := Build_topaz_settings (str_of "Text Refine")
                           (tenths 7) (tenths 2) (tenths 5) false;
         preset_bloom := Build_bloom_settings 1 false true |}
  | Creative =>
      {| description := str_of "Creative reimagining (adds details, more artistic)";
         preset_engine := Bloom;
         preset_topaz := Build_topaz_settings (str_of "Standard V2")
                           (tenths 5) (tenths 3) (tenths 5) false;
         preset_bloom := Build_bloom_settings 6 false false |}
  end.

(** [preset[engine]]: the bundle of one engine. *)
Inductive settings :=
  | TopazSettings (t : topaz_settings)
  | BloomSettings (b : bloom_settings).

Definition preset_settings (p : preset) (e : engine) : settings :=
  match e with
  | Topaz => TopazSettings (preset_topaz p)
  | Bloom => BloomSettings (preset_bloom p)
  end.

End Presets.
Import Presets.

(** ** The world the program runs in *)

Module Effects.

(** A response of [requests]: status, raw body, the body decoded by
    [.json()] when it is JSON, the [Content-Type] header when present, and
    the body as bytes. *)
Record response := {
  status_code : Z;
  text : str;
  json : option value;
  content_type : option str;
  content : list N
}.

(** Every place where the program raises: the class of the exception and
    what its message carries. *)
Inductive failure :=
  | ApiKeyMissing                          (* ValueError, lines 321, 496, 674 *)
  | FtpNotConfigured                       (* ValueError, line 194 *)
  | FileNotFound (path : str)              (* ValueError, line 200 *)
  | InvalidImagePath (path : str)          (* ValueError, line 278 *)
  | FtpUploadFailed                        (* RuntimeError, line 248 *)
  | InvalidApiKey                          (* RuntimeError, status 401 *)
  | InsufficientCredits                    (* RuntimeError, status 402 *)
  | ApiRequestFailed (code : Z) (body : str)   (* RuntimeError, line 359 *)
  | NoJobId (data : value)                 (* RuntimeError, line 365 *)
  | JobStatusFailed (body : str)           (* RuntimeError, line 378 *)
  | JobFailed (job_data : value)           (* RuntimeError, line 387 *)
  | JobCancelled                           (* RuntimeError, line 389 *)
  | JobTimedOut (max_wait : Z)             (* RuntimeError, line 396 *)
  | NoImageUrls (job_data : value)         (* RuntimeError, line 403 *)
  | DownloadFailed (code : Z)              (* RuntimeError, line 410 *)
  | TransportError                         (* raised by [requests] itself *)
  | LibraryError                           (* a body that is not JSON or not
                                              of the expected shape *)
  | LocalIOError.                          (* OSError of a local write *)

Inductive result (A : Type) :=
  | Ok (a : A)
  | Raise (e : failure)
  | OutOfFuel.
Arguments Ok {A} a.
Arguments Raise {A} e.
Arguments OutOfFuel {A}.

Inductive fs_entry :=
  | File (bytes : list N)
  | Directory.

(** How a local write ends: done, or with an [OSError]; a write that fails
    may leave nothing, or a part of what it was writing. *)
Inductive write_outcome :=
  | WriteDone
  | WriteFailed (left_behind : option (list N)).

(** What the program reads and cannot change: the environment, the local
    files the user names, the clock, the random source, and what the remote
    services answer. *)
Record Host := {
  getenv : str -> option str;
  local_path : str -> option fs_entry;
  skill_dir : str;
  today : str;                     (* [now.strftime("%Y-%m-%d")] *)
  time_of_day : str;               (* [now.strftime("%H-%M-%S")] *)
  timestamp : str;                 (* [datetime.now().isoformat()] *)
  uuid_hex : str;                  (* [uuid.uuid4().hex] *)
  http_post : str -> value -> result response;
  job_status : value -> nat -> result response;
  http_get : str -> result response;
  ftp_connect_ok : bool;
  ftp_login_ok : bool;
  ftp_mkd_ok : str -> bool;
  ftp_stor_ok : bool;
  ftp_fault : nat -> bool;         (* the command sent as request number [n]
                                      fails, and not with [error_perm] *)
  image_write : str -> list N -> write_outcome;
                                   (* [mkdir] and [write_bytes] at a path *)
  log_append : str -> write_outcome;
                                   (* appending a text to the log *)
  last_image_write : str -> write_outcome
                                   (* [LAST_IMAGE_FILE.write_text] *)
}.

Inductive event :=
  | FtpConnect (host port : str)
  | FtpLogin (user : str)
  | FtpCwd (dir : str)
  | FtpMkd (dir : str)
  | FtpStor (name : str)
  | FtpQuit
  | HttpPost (url : str) (payload : value)
  | HttpGetJob (job_id : value)
  | HttpGet (url : str).

(** What the program changes. *)
Record World := {
  log_file : str;                      (* [generation_log.jsonl] *)
  last_image_file : option str;        (* [.last_image.json] *)
  written : list (str * list N);       (* image files written *)
  slept : Z;                           (* seconds spent in [time.sleep] *)
  network : list event;                (* requests made, oldest first *)
  ftp_dirs : list str;                 (* directories of the FTP server *)
  ftp_cwd : str;
  ftp_files : list (str * str * list N)
}.

Definition M (A : Type) : Type := World -> result A * World.

Definition ret {A} (a : A) : M A := fun w => (Ok a, w).
Definition raise {A} (e : failure) : M A := fun w => (Raise e, w).
Definition out_of_fuel {A} : M A := fun w => (OutOfFuel, w).

Definition bind {A B} (m : M A) (k : A -> M B) : M B :=
  fun w =>
    match m w with
    | (Ok a, w') => k a w'
    | (Raise e, w') => (Raise e, w')
    | (OutOfFuel, w') => (OutOfFuel, w')
    end.

(** The result of a call that may raise, run as a statement. *)
Definition lift {A} (r : result A) : M A := fun w => (r, w).

Definition emit (e : event) : M unit :=
  fun w =>
    (Ok tt,
     {| log_file := log_file w; last_image_file := last_image_file w;
        written := written w; slept := slept w;
        network := network w ++ [e];
        ftp_dirs := ftp_dirs w; ftp_cwd := ftp_cwd w;
        ftp_files := ftp_files w |}).

(** [time.sleep(seconds)] *)
Definition sleep (seconds : Z) : M unit :=
  fun w =>
    (Ok tt,
     {| log_file := log_file w; last_image_file := last_image_file w;
        written := written w; slept := (slept w + seconds)%Z;
        network := network w;
        ftp_dirs := ftp_dirs w; ftp_cwd := ftp_cwd w;
        ftp_files := ftp_files w |}).

End Effects.
Import Effects.

Declare Scope monad_scope.
Notation "x <- m ;; k" := (bind m (fun x => k))
  (at level 61, m at next level, right associativity) : monad_scope.
Notation "m ;;; k" := (bind m (fun _ => k))
  (at level 61, right associativity) : monad_scope.
Open Scope monad_scope.

(** ** Module-level configuration (lines 23 to 36) *)

Module Config.

Record Config := {
  API_KEY : option str;
  FTP_HOST : option str;
  FTP_PORT : str;              (* the text [int(...)] reads *)
  FTP_USER : option str;
  FTP_PASS : option str;
  FTP_REMOTE_PATH : str;
  FTP_PUBLIC_URL : str
}.

(** [os.getenv(name, default)] *)
Definition getenv_default (env : str -> option str) (name default : str)
  : str :=
  match env name with
  | Some v => v
  | None => default
  end.

Definition load_config (env : str -> option str) : Config :=
  {| API_KEY := env (str_of "KREA_API_KEY");
     FTP_HOST := env (str_of "FTP_HOST");
     FTP_PORT := getenv_default env (str_of "FTP_PORT") (str_of "21");
     FTP_USER := env (str_of "FTP_USER");
     FTP_PASS := env (str_of "FTP_PASS");
     FTP_REMOTE_PATH := getenv_default env (str_of "FTP_REMOTE_PATH")
                          (str_of "/");
     FTP_PUBLIC_URL := getenv_default env (str_of "FTP_PUBLIC_URL") [] |}.

(** Truth value of a setting: [None] and the empty string are false. *)
Definition is_set (v : option str) : bool :=
  match v with
  | Some (_ :: _) => true
  | _ => false
  end.

Definition BASE_URL : str := str_of "https://api.krea.ai".
Definition TOPAZ_URL : str :=
  BASE_URL ++ str_of "/generate/enhance/topaz/standard-enhance".
Definition BLOOM_URL : str :=
  BASE_URL ++ str_of "/generate/enhance/topaz/bloom-enhance".
Definition TOPAZ_COST : pyfloat := FDec 15 (-2).
Definition BLOOM_COST : pyfloat := FDec 75 (-2).

(** The two values [--model] accepts, which are the keys of [MODELS]. *)
Inductive model := Nano | Pro.

Definition model_key (m : model) : str :=
  match m with Nano => str_of "nano" | Pro => str_of "pro" end.
Definition model_url (m : model) : str :=
  match m with
  | Nano => BASE_URL ++ str_of "/generate/image/google/nano-banana"
  | Pro => BASE_URL ++ str_of "/generate/image/google/nano-banana-pro"
  end.
Definition model_cost (m : model) : pyfloat :=
  match m with Nano => FDec 8 (-2) | Pro => FDec 30 (-2) end.
Definition model_name (m : model) : str :=
  match m with
  | Nano => str_of "Nano Banana"
  | Pro => str_of "Nano Banana Pro"
  end.

End Config.
Import Config.

(** ** Input resolution and upload (lines 180 to 278) *)

Module Input.

Definition slash : char := 47%N.
Definition dot : char := 46%N.

(** [s.split(sep)] for a one-character separator. *)
Fixpoint split_on (sep : char) (s : str) : list str :=
  match s with
  | [] => [[]]
  | c :: s' =>
      if char_eqb c sep then [] :: split_on sep s'
      else match split_on sep s' with
           | p :: ps => (c :: p) :: ps
           | [] => [[c]]
           end
  end.

(** [Path(p).name]: the last component, empty and [.] components aside. *)
Definition path_name (p : str) : str :=
  last (filter (fun part => negb (str_eqb part [] || str_eqb part [dot]))
               (split_on slash p)) [].

(** [Path(p).suffix]: the name from its last dot on, when that dot is
    neither the first nor the last character of the name. *)
Definition path_suffix (p : str) : str :=
  let name := path_name p in
  match before_last dot name with
  | Some h =>
      if (0 <? length h) && (length h <? length name - 1)
      then skipn (length h) name
      else []
  | None => []
  end.

(** Line 253. *)
Definition is_url (path : str) : bool :=
  startswith path (str_of "http://") || startswith path (str_of "https://").

(** [Path(path).exists()] *)
Definition path_exists (h : Host) (path : str) : bool :=
  match local_path h path with
  | Some _ => true
  | None => false
  end.

(** Lines 256 to 260. *)
Definition is_local_file (h : Host) (path : str) : bool :=
  if is_url path then false else path_exists h path.

(** A command sent over the session.  It is recorded; when the host says
    so it fails with one of [ftplib.all_errors] that is not [error_perm] (a
    temporary error, a lost connection, a time-out), which nothing inside
    the [try] of line 209 catches before line 247. *)
Definition ftp_send (h : Host) (command : event) : M unit :=
  fun w =>
    if ftp_fault h (length (network w))
    then (Raise FtpUploadFailed, snd (emit command w))
    else emit command w.

(** [ftp.cwd(dir)]: [true] when the server accepts, [false] for
    [error_perm]. *)
Definition ftp_cwd_try (h : Host) (dir : str) : M bool :=
  ftp_send h (FtpCwd dir) ;;;
  fun w =>
    if existsb (str_eqb dir) (ftp_dirs w)
    then (Ok true,
          {| log_file := log_file w; last_image_file := last_image_file w;
             written := written w; slept := slept w; network := network w;
             ftp_dirs := ftp_dirs w; ftp_cwd := dir;
             ftp_files := ftp_files w |})
    else (Ok false, w).

(** [ftp.mkd(dir)]: [true] when the server accepts, [false] for
    [error_perm]. *)
Definition ftp_mkd_try (h : Host) (dir : str) : M bool :=
  ftp_send h (FtpMkd dir) ;;;
  fun w =>
    if ftp_mkd_ok h dir
    then (Ok true,
          {| log_file := log_file w; last_image_file := last_image_file w;
             written := written w; slept := slept w; network := network w;
             ftp_dirs := ftp_dirs w ++ [dir]; ftp_cwd := ftp_cwd w;
             ftp_files := ftp_files w |})
    else (Ok false, w).

(** The loop of lines 225 to 234. *)
Fixpoint make_dirs (h : Host) (current : str) (parts : list str) : M unit :=
  match parts with
  | [] => ret tt
  | part :: rest =>
      let current := current ++ [slash] ++ part in
      entered <- ftp_cwd_try h current ;;
      (if entered then ret tt
       else
         made <- ftp_mkd_try h current ;;
         if made then ftp_cwd_try h current ;;; ret tt else ret tt) ;;;
      make_dirs h current rest
  end.

(** [ftp.storbinary('STOR name', f)] *)
Definition ftp_stor (h : Host) (name : str) (bytes : list N) : M unit :=
  emit (FtpStor name) ;;;
  fun w =>
    if ftp_stor_ok h
    then (Ok tt,
          {| log_file := log_file w; last_image_file := last_image_file w;
             written := written w; slept := slept w; network := network w;
             ftp_dirs := ftp_dirs w; ftp_cwd := ftp_cwd w;
             ftp_files := ftp_files w ++ [(ftp_cwd w, name, bytes)] |})
    else (Raise FtpUploadFailed, w).

(** Lines 180 to 248.  Inside the [try], whatever [ftplib.all_errors]
    covers (a refused connection or login, a local file that cannot be
    opened, a failed transfer) becomes [FtpUploadFailed]. *)
Definition upload_to_ftp (cfg : Config) (h : Host) (local : str) : M str :=
  if negb (is_set (FTP_HOST cfg) && is_set (FTP_USER cfg)
           && is_set (FTP_PASS cfg) && is_set (Some (FTP_PUBLIC_URL cfg)))
  then raise FtpNotConfigured
  else
    match local_path h local with
    | None => raise (FileNotFound local)
    | Some entry =>
        let ext := or_default (path_suffix local) (str_of ".png") in
        let unique_name := firstn 12 (uuid_hex h) ++ ext in
        let host := match FTP_HOST cfg with Some x => x | None => [] end in
        let user := match FTP_USER cfg with Some x => x | None => [] end in
        emit (FtpConnect host (FTP_PORT cfg)) ;;;
        (if ftp_connect_ok h then ret tt else raise FtpUploadFailed) ;;;
        emit (FtpLogin user) ;;;
        (if ftp_login_ok h then ret tt else raise FtpUploadFailed) ;;;
        let remote_dir := rstrip_by (char_eqb slash) (FTP_REMOTE_PATH cfg) in
        (match remote_dir with
         | [] => ret tt
         | _ =>
             entered <- ftp_cwd_try h remote_dir ;;
             if entered then ret tt
             else make_dirs h []
                    (split_on slash (strip_by (char_eqb slash) remote_dir))
         end) ;;;
        (match entry with
         | File bytes => ftp_stor h unique_name bytes
         | Directory => raise FtpUploadFailed
         end) ;;;
        ftp_send h FtpQuit ;;;
        ret (rstrip_by (char_eqb slash) (FTP_PUBLIC_URL cfg)
             ++ [slash] ++ unique_name)
    end.

(** Lines 263 to 278. *)
Definition resolve_image_url (cfg : Config) (h : Host) (path : str) : M str :=
  if is_url path then ret path
  else if is_local_file h path then upload_to_ftp cfg h path
  else raise (InvalidImagePath path).

End Input.
Import Input.

(** ** Submission and polling *)

Module JobClient.

(** [response.json()] followed by [.get]: the body has to be a JSON
    object. *)
Definition response_dict (r : response) : result dict :=
  match json r with
  | Some (VDict d) => Ok d
  | _ => Raise LibraryError
  end.

(** The checks on the answer to a submission (lines 354 to 365, 543 to 554,
    718 to 729): the job identifier, or the exception raised. *)
Definition check_submission (r : response) : result value :=
  if (status_code r =? 401)%Z then Raise InvalidApiKey
  else if (status_code r =? 402)%Z then Raise InsufficientCredits
  else if negb (status_code r =? 200)%Z
  then Raise (ApiRequestFailed (status_code r) (text r))
  else
    match response_dict r with
    | Ok data =>
        let job_id := dict_get_default (str_of "job_id") VNone data in
        if negb (truthy job_id) then Raise (NoJobId (VDict data))
        else Ok job_id
    | Raise e => Raise e
    | OutOfFuel => OutOfFuel
    end.

(** [requests.post(url, json=payload)] and the checks on its answer. *)
Definition submit (h : Host) (url : str) (payload : value) : M value :=
  emit (HttpPost url payload) ;;;
  response <- lift (http_post h url payload) ;;
  lift (check_submission response).

(** The three statuses that end a job. *)
Definition is_terminal (status : value) : bool :=
  value_is_str status (str_of "completed")
  || value_is_str status (str_of "failed")
  || value_is_str status (str_of "cancelled").

(** The polling loop (lines 374 to 396, 563 to 584, 739 to 760).  [fetch k]
    is the answer to the [k]-th status request of this job; [elapsed] is the
    loop's own counter.  One unit of [fuel] is spent per test of the loop
    condition. *)
Fixpoint poll_loop (fuel : nat) (fetch : nat -> result response)
    (job_id : value) (max_wait poll_interval elapsed : Z) (k : nat)
  : M value :=
  match fuel with
  | O => out_of_fuel
  | S fuel' =>
      if (elapsed <? max_wait)%Z then
        emit (HttpGetJob job_id) ;;;
        job_response <- lift (fetch k) ;;
        if negb (status_code job_response =? 200)%Z
        then raise (JobStatusFailed (text job_response))
        else
          job_data <- lift (response_dict job_response) ;;
          let status := dict_get_default (str_of "status") VNone job_data in
          if value_is_str status (str_of "completed")
          then ret (VDict job_data)
          else if value_is_str status (str_of "failed")
          then raise (JobFailed (VDict job_data))
          else if value_is_str status (str_of "cancelled")
          then raise JobCancelled
          else
            sleep poll_interval ;;;
            poll_loop fuel' fetch job_id max_wait poll_interval
              (elapsed + poll_interval)%Z (S k)
      else raise (JobTimedOut max_wait)
  end.

(** The three kinds of job and their polling constants. *)
Inductive job_kind := Generate | EnhanceTopaz | EnhanceBloom.

Definition max_wait (kind : job_kind) : Z :=
  match kind with
  | Generate => 120
  | EnhanceTopaz => 120
  | EnhanceBloom => 300
  end.

Definition poll_interval (kind : job_kind) : Z :=
  match kind with
  | Generate => 2
  | EnhanceTopaz => 2
  | EnhanceBloom => 5
  end.

(** The loop as each operation runs it: [elapsed = 0] at the start. *)
Definition await_completion (kind : job_kind)
    (fetch : nat -> result response) (job_id : value) : M value :=
  poll_loop (S (Z.to_nat (max_wait kind))) fetch job_id
    (max_wait kind) (poll_interval kind) 0 0.

(** Lines 399 to 405: the first URL of the result. *)
Definition first_url (job_data : value) : result value :=
  match job_data with
  | VDict d =>
      match dict_get_default (str_of "result") (VDict []) d with
      | VDict result =>
          let urls := dict_get_default (str_of "urls") (VList []) result in
          if negb (truthy urls) then Raise (NoImageUrls job_data)
          else match urls with
               | VList (u :: _) => Ok u
               | VStr (c :: _) => Ok (VStr [c])
               | _ => Raise LibraryError
               end
      | _ => Raise LibraryError
      end
  | _ => Raise LibraryError
  end.

(** [requests.get(url, timeout=...)] of the artifact and the check on its
    status (lines 408 to 410). *)
Definition download (h : Host) (url : value) : M (str * response) :=
  match url with
  | VStr u =>
      emit (HttpGet u) ;;;
      img_response <- lift (http_get h u) ;;
      if negb (status_code img_response =? 200)%Z
      then raise (DownloadFailed (status_code img_response))
      else ret (u, img_response)
  | _ => raise LibraryError
  end.

End JobClient.
Import JobClient.

(** ** Saving and recording *)

Module Materialize.

(** Lines 413 to 419: the extension of a generated image. *)
Definition generate_extension (content_type : str) (image_url : str) : str :=
  if contains content_type (str_of "png")
     || endswith image_url (str_of ".png")
  then str_of ".png"
  else if contains content_type (str_of "webp")
          || endswith image_url (str_of ".webp")
  then str_of ".webp"
  else str_of ".jpg".

(** Lines 601 and 777: the extension of an upscaled image. *)
Definition upscale_extension (output_format : str) : str :=
  if negb (str_eqb output_format (str_of "jpg"))
  then str_of "." ++ output_format
  else str_of ".jpg".

(** [img_response.headers.get("Content-Type", "")] *)
Definition header_content_type (r : response) : str :=
  match content_type r with
  | Some t => t
  | None => []
  end.

(** [IMAGES_DIR / now.strftime("%Y-%m-%d")], as an absolute path. *)
Definition date_folder (h : Host) : str :=
  skill_dir h ++ str_of "/images/" ++ today h.

(** The world with one more image file written. *)
Definition with_written (w : World) (path : str) (bytes : list N) : World :=
  {| log_file := log_file w; last_image_file := last_image_file w;
     written := written w ++ [(path, bytes)]; slept := slept w;
     network := network w;
     ftp_dirs := ftp_dirs w; ftp_cwd := ftp_cwd w;
     ftp_files := ftp_files w |}.

(** [date_folder.mkdir(parents=True, exist_ok=True)] and
    [output_file.write_bytes(...)]: either may raise [OSError]; a write
    that fails may leave a part of the file. *)
Definition write_bytes (h : Host) (path : str) (bytes : list N) : M unit :=
  fun w =>
    match image_write h path bytes with
    | WriteDone => (Ok tt, with_written w path bytes)
    | WriteFailed (Some part) =>
        (Raise LocalIOError, with_written w path part)
    | WriteFailed None => (Raise LocalIOError, w)
    end.

(** The world with a text appended to the log. *)
Definition with_logged (w : World) (line : str) : World :=
  {| log_file := log_file w ++ line;
     last_image_file := last_image_file w;
     written := written w; slept := slept w; network := network w;
     ftp_dirs := ftp_dirs w; ftp_cwd := ftp_cwd w;
     ftp_files := ftp_files w |}.

(** The world with the last-image file holding a text. *)
Definition with_last_image (w : World) (file_text : str) : World :=
  {| log_file := log_file w;
     last_image_file := Some file_text;
     written := written w; slept := slept w; network := network w;
     ftp_dirs := ftp_dirs w; ftp_cwd := ftp_cwd w;
     ftp_files := ftp_files w |}.

(** Lines 174 to 177: the entry, dumped, and a line break, appended to the
    log.  Opening the log or writing to it may raise [OSError], with a part
    of the line appended or nothing. *)
Definition log_generation (h : Host) (entry : value) : M unit :=
  fun w =>
    let line := dumps entry ++ [newline] in
    match log_append h line with
    | WriteDone => (Ok tt, with_logged w line)
    | WriteFailed (Some part) => (Raise LocalIOError, with_logged w part)
    | WriteFailed None => (Raise LocalIOError, w)
    end.

(** [LAST_IMAGE_FILE.write_text(json.dumps(log_entry, indent=2))]: the file
    is replaced; a write that raises [OSError] may leave a part of the
    text, or the file as it was. *)
Definition write_last_image (h : Host) (entry : value) : M unit :=
  fun w =>
    let file_text := dumps_indent2 entry in
    match last_image_write h file_text with
    | WriteDone => (Ok tt, with_last_image w file_text)
    | WriteFailed (Some part) =>
        (Raise LocalIOError, with_last_image w part)
    | WriteFailed None => (Raise LocalIOError, w)
    end.

(** The two statements with which every operation ends its bookkeeping
    (lines 457 and 460, 634 and 637, 810 and 813). *)
Definition record_provenance (h : Host) (entry : value) : M unit :=
  log_generation h entry ;;; write_last_image h entry.

End Materialize.
Import Materialize.

(** ** The three operations *)

Module Operations.

Definition VS (x : string) : value := VStr (str_of x).
Arguments VS x%_string.

(** Lines 299 to 463. *)
Definition generate_image (cfg : Config) (h : Host)
    (prompt : str) (m : model) (aspect_ratio resolution : str)
    (source_image_url : option str) (edit_strength : pyfloat)
  : M (str * str * str) :=
  if negb (is_set (API_KEY cfg)) then raise ApiKeyMissing
  else
    let payload :=
      [(str_of "prompt", VStr prompt);
       (str_of "aspectRatio", VStr aspect_ratio);
       (str_of "numImages", VInt 1)] in
    let payload :=
      match m with
      | Pro => dict_set (str_of "resolution") (VStr resolution) payload
      | Nano => payload
      end in
    let payload :=
      match source_image_url with
      | Some ((_ :: _) as src) =>
          dict_set (str_of "styleImages")
            (VList [VDict [(str_of "url", VStr src);
                           (str_of "strength", VFloat edit_strength)]])
            payload
      | _ => payload
      end in
    job_id <- submit h (model_url m) (VDict payload) ;;
    job_data <- await_completion Generate (job_status h job_id) job_id ;;
    first <- lift (first_url job_data) ;;
    got <- download h first ;;
    let image_url := fst got in
    let img_response := snd got in
    let ext :=
      generate_extension (header_content_type img_response) image_url in
    let folder := date_folder h in
    let filename :=
      time_of_day h ++ str_of "-" ++ model_key m ++ str_of "-"
      ++ slugify prompt default_max_length ++ ext in
    let output_file := folder ++ str_of "/" ++ filename in
    write_bytes h output_file (content img_response) ;;;
    let log_entry :=
      [(str_of "timestamp", VStr (timestamp h));
       (str_of "local_path", VStr output_file);
       (str_of "krea_url", VStr image_url);
       (str_of "prompt", VStr prompt);
       (str_of "model", VStr (model_key m));
       (str_of "model_name", VStr (model_name m));
       (str_of "aspect_ratio", VStr aspect_ratio);
       (str_of "cost", VFloat (model_cost m));
       (str_of "is_edit",
        VBool (match source_image_url with Some _ => true | None => false end))]
    in
    let log_entry :=
      match source_image_url with
      | Some ((_ :: _) as src) =>
          dict_set (str_of "edit_strength") (VFloat edit_strength)
            (dict_set (str_of "source_image_url") (VStr src) log_entry)
      | _ => log_entry
      end in
    let log_entry :=
      match m with
      | Pro => dict_set (str_of "resolution") (VStr resolution) log_entry
      | Nano => log_entry
      end in
    log_generation h (VDict log_entry) ;;;
    write_last_image h (VDict log_entry) ;;;
    ret (output_file, folder, image_url).

(** [x or 1024] for an optional dimension. *)
Definition or_1024 (x : option Z) : Z :=
  match x with
  | Some z => if (z =? 0)%Z then 1024%Z else z
  | None => 1024%Z
  end.

(** Lines 504 to 512: the source dimensions [upscale_image] works with. *)
Definition topaz_source (source_width source_height : option Z) : Z * Z :=
  match source_width, source_height with
  | Some w, Some h => (w, h)
  | _, _ => (or_1024 source_width, or_1024 source_height)
  end.

(** Lines 682 to 685: the source dimensions [upscale_bloom] works with. *)
Definition bloom_source (source_width source_height : option Z) : Z * Z :=
  (match source_width with Some w => w | None => 1024%Z end,
   match source_height with Some h => h | None => 1024%Z end).

Definition TOPAZ_MAX : Z := 22000.
Definition BLOOM_MAX : Z := 10000.

(** Lines 515 and 516. *)
Definition topaz_target (source_width source_height : option Z)
    (scale_factor : Z) : Z * Z :=
  let (w, h) := topaz_source source_width source_height in
  (Z.min (w * scale_factor) TOPAZ_MAX, Z.min (h * scale_factor) TOPAZ_MAX).

(** Lines 688 and 689. *)
Definition bloom_target (source_width source_height : option Z)
    (scale_factor : Z) : Z * Z :=
  let (w, h) := bloom_source source_width source_height in
  (Z.min (w * scale_factor) BLOOM_MAX, Z.min (h * scale_factor) BLOOM_MAX).

(** [f"{w}x{h}"] *)
Definition dimensions_text (d : Z * Z) : str :=
  str_of_Z (fst d) ++ str_of "x" ++ str_of_Z (snd d).

(** Lines 466 to 640. *)
Definition upscale_image (cfg : Config) (h : Host)
    (image_url : str) (scale_factor : Z) (output_format : str)
    (t : topaz_settings) (source_width source_height : option Z)
  : M (str * str * str) :=
  if negb (is_set (API_KEY cfg)) then raise ApiKeyMissing
  else
    let target := topaz_target source_width source_height scale_factor in
    let payload :=
      [(str_of "image_url", VStr image_url);
       (str_of "width", VInt (fst target));
       (str_of "height", VInt (snd target));
       (str_of "model", VStr (t_model t));
       (str_of "upscaling_activated", VBool true);
       (str_of "image_scaling_factor", VInt scale_factor);
       (str_of "output_format", VStr output_format);
       (str_of "sharpen", VFloat (t_sharpen t));
       (str_of "denoise", VFloat (t_denoise t));
       (str_of "fix_compression", VFloat (t_fix_compression t));
       (str_of "face_enhancement", VBool (t_face_enhancement t))] in
    let payload :=
      if t_face_enhancement t
      then dict_set (str_of "face_enhancement_strength") (VFloat (tenths 5))
             (dict_set (str_of "face_enhancement_creativity")
                (VFloat (tenths 5)) payload)
      else payload in
    job_id <- submit h TOPAZ_URL (VDict payload) ;;
    job_data <- await_completion EnhanceTopaz (job_status h job_id) job_id ;;
    first <- lift (first_url job_data) ;;
    got <- download h first ;;
    let upscaled_url := fst got in
    let img_response := snd got in
    let ext := upscale_extension output_format in
    let folder := date_folder h in
    let filename :=
      time_of_day h ++ str_of "-upscale-" ++ str_of_Z scale_factor
      ++ str_of "x" ++ ext in
    let output_file := folder ++ str_of "/" ++ filename in
    write_bytes h output_file (content img_response) ;;;
    let log_entry :=
      [(str_of "timestamp", VStr (timestamp h));
       (str_of "local_path", VStr output_file);
       (str_of "krea_url", VStr upscaled_url);
       (str_of "source_url", VStr image_url);
       (str_of "operation", VS "upscale_topaz");
       (str_of "engine", VS "topaz");
       (str_of "scale_factor", VInt scale_factor);
       (str_of "upscale_model", VStr (t_model t));
       (str_of "target_dimensions", VStr (dimensions_text target));
       (str_of "sharpen", VFloat (t_sharpen t));
       (str_of "denoise", VFloat (t_denoise t));
       (str_of "fix_compression", VFloat (t_fix_compression t));
       (str_of "face_enhancement", VBool (t_face_enhancement t));
       (str_of "cost", VFloat TOPAZ_COST)] in
    log_generation h (VDict log_entry) ;;;
    write_last_image h (VDict log_entry) ;;;
    ret (output_file, folder, upscaled_url).

(** Lines 643 to 816. *)
Definition upscale_bloom (cfg : Config) (h : Host)
    (image_url : str) (scale_factor : Z) (output_format : str)
    (b : bloom_settings) (prompt : str)
    (source_width source_height : option Z)
  : M (str * str * str) :=
  if negb (is_set (API_KEY cfg)) then raise ApiKeyMissing
  else
    let target := bloom_target source_width source_height scale_factor in
    let payload :=
      [(str_of "image_url", VStr image_url);
       (str_of "width", VInt (fst target));
       (str_of "height", VInt (snd target));
       (str_of "model", VS "Reimagine");
       (str_of "creativity", VInt (b_creativity b));
       (str_of "face_preservation", VBool (b_face_preservation b));
       (str_of "color_preservation", VBool (b_color_preservation b));
       (str_of "upscaling_activated", VBool true);
       (str_of "image_scaling_factor", VInt scale_factor);
       (str_of "output_format", VStr output_format)] in
    let payload :=
      match prompt with
      | [] => payload
      | _ => dict_set (str_of "prompt") (VStr prompt) payload
      end in
    job_id <- submit h BLOOM_URL (VDict payload) ;;
    job_data <- await_completion EnhanceBloom (job_status h job_id) job_id ;;
    first <- lift (first_url job_data) ;;
    got <- download h first ;;
    let upscaled_url := fst got in
    let img_response := snd got in
    let ext := upscale_extension output_format in
    let folder := date_folder h in
    let filename :=
      time_of_day h ++ str_of "-bloom-" ++ str_of_Z scale_factor
      ++ str_of "x" ++ ext in
    let output_file := folder ++ str_of "/" ++ filename in
    write_bytes h output_file (content img_response) ;;;
    let log_entry :=
      [(str_of "timestamp", VStr (timestamp h));
       (str_of "local_path", VStr output_file);
       (str_of "krea_url", VStr upscaled_url);
       (str_of "source_url", VStr image_url);
       (str_of "operation", VS "upscale_bloom");
       (str_of "engine", VS "bloom");
       (str_of "scale_factor", VInt scale_factor);
       (str_of "creativity", VInt (b_creativity b));
       (str_of "face_preservation", VBool (b_face_preservation b));
       (str_of "color_preservation", VBool (b_color_preservation b));
       (str_of "target_dimensions", VStr (dimensions_text target));
       (str_of "cost", VFloat BLOOM_COST)] in
    let log_entry :=
      match prompt with
      | [] => log_entry
      | _ => dict_set (str_of "prompt") (VStr prompt) log_entry
      end in
    log_generation h (VDict log_entry) ;;;
    write_last_image h (VDict log_entry) ;;;
    ret (output_file, folder, upscaled_url).

End Operations.
Import Operations.

(** ** The upscale branch of [main] *)

Module Main.

(** What the command line gives for the options of the upscale branch:
    [None] for an option that is not on the command line. *)
Record Cli := {
  cli_interactive : bool;
  cli_scale : option Z;
  cli_engine : option engine;
  cli_preset : option preset_name;
  cli_upscale_model : option str;
  cli_sharpen : option pyfloat;
  cli_denoise : option pyfloat;
  cli_fix_compression : option pyfloat;
  cli_face_enhancement : bool;
  cli_creativity : option Z;
  cli_face_preservation : bool;
  cli_color_preservation : bool;
  cli_upscale_prompt : option str
}.

(** The namespace [parser.parse_args()] returns. *)
Record Args := {
  interactive : bool;
  scale : Z;
  engine_arg : engine;
  preset_arg : option preset_name;
  upscale_model : str;
  sharpen : pyfloat;
  denoise : pyfloat;
  fix_compression : pyfloat;
  face_enhancement : bool;
  creativity : Z;
  face_preservation : bool;
  color_preservation : bool;
  upscale_prompt : str
}.

Definition with_default {A} (x : option A) (default : A) : A :=
  match x with
  | Some a => a
  | None => default
  end.

(** The defaults of lines 1012 to 1042. *)
Definition parse_args (c : Cli) : Args :=
  {| interactive := cli_interactive c;
     scale := with_default (cli_scale c) 2%Z;
     engine_arg := with_default (cli_engine c) Topaz;
     preset_arg := cli_preset c;
     upscale_model := with_default (cli_upscale_model c) (str_of "Standard V2");
     sharpen := with_default (cli_sharpen c) (tenths 5);
     denoise := with_default (cli_denoise c) (tenths 3);
     fix_compression := with_default (cli_fix_compression c) (tenths 5);
     face_enhancement := cli_face_enhancement c;
     creativity := with_default (cli_creativity c) 3%Z;
     face_preservation := cli_face_preservation c;
     color_preservation := cli_color_preservation c;
     upscale_prompt := with_default (cli_upscale_prompt c) [] |}.

(** Line 1071. *)
Definition selected_engine (args : Args) (p : preset) : engine :=
  if negb (engine_eqb (engine_arg args) Topaz) then engine_arg args
  else preset_engine p.

(** The call [main] makes (lines 1066 to 1113). *)
Inductive upscale_call :=
  | CallInteractive
  | CallTopaz (scale_factor : Z) (t : topaz_settings)
  | CallBloom (scale_factor : Z) (b : bloom_settings) (prompt : str).

Definition upscale_dispatch (args : Args) : upscale_call :=
  if interactive args then CallInteractive
  else
    match preset_arg args with
    | Some name =>
        let p := UPSCALE_PRESETS name in
        let e := selected_engine args p in
        match preset_settings p e with
        | TopazSettings t => CallTopaz (scale args) t
        | BloomSettings b => CallBloom (scale args) b []
        end
    | None =>
        match engine_arg args with
        | Bloom =>
            CallBloom (scale args)
              (Build_bloom_settings (creativity args)
                 (face_preservation args) (color_preservation args))
              (upscale_prompt args)
        | Topaz =>
            CallTopaz (scale args)
              (Build_topaz_settings (upscale_model args) (sharpen args)
                 (denoise args) (fix_compression args)
                 (face_enhancement args))
        end
    end.

(** The call, run.  [interactive_upscale] reads the terminal and is taken
    as given. *)
Definition run_upscale (cfg : Config) (h : Host)
    (interactive_upscale : str -> M (str * str * str))
    (args : Args) (upscale_url : str) : M (str * str * str) :=
  match upscale_dispatch args with
  | CallInteractive => interactive_upscale upscale_url
  | CallTopaz s t =>
      upscale_image cfg h upscale_url s (str_of "png") t None None
  | CallBloom s b prompt =>
      upscale_bloom cfg h upscale_url s (str_of "png") b prompt None None
  end.

(** The engine question of [interactive_upscale] (lines 870 to 881), asked
    until a line answers it: the engine and the lines left, or [None] when
    the input ends first. *)
Fixpoint interactive_engine (p : preset) (lines : list str)
  : option (engine * list str) :=
  match lines with
  | [] => None
  | line :: rest =>
      let engine_input := strip line in
      if str_eqb engine_input [] then Some (preset_engine p, rest)
      else if str_eqb engine_input (str_of "1") then Some (Topaz, rest)
      else if str_eqb engine_input (str_of "2") then Some (Bloom, rest)
      else interactive_engine p rest
  end.

End Main.
Import Main.

(** ** The statements of the specification, where the code is compared
    with them *)

Module Spec.

(** Content type first, then the suffix of the URL, JPEG otherwise. *)
Definition spec_extension (content_type image_url : str) : str :=
  if contains content_type (str_of "png") then str_of ".png"
  else if contains content_type (str_of "webp") then str_of ".webp"
  else if endswith image_url (str_of ".png") then str_of ".png"
  else if endswith image_url (str_of ".webp") then str_of ".webp"
  else str_of ".jpg".

(** An explicit [--engine] wins; without one the preset recommends. *)
Definition spec_engine (c : Cli) (p : preset) : engine :=
  match cli_engine c with
  | Some e => e
  | None => preset_engine p
  end.

(** The status codes from 200 to 299. *)
Definition is_2xx (code : Z) : bool := ((200 <=? code) && (code <=? 299))%Z.

(** A body that holds a job identifier. *)
Definition has_job_id (r : response) : bool :=
  match json r with
  | Some (VDict d) =>
      match dict_get (str_of "job_id") d with
      | Some v => truthy v
      | None => false
      end
  | _ => false
  end.

(** The cap of each engine and the target dimensions it is sent. *)
Definition engine_cap (e : engine) : Z :=
  match e with
  | Topaz => TOPAZ_MAX
  | Bloom => BLOOM_MAX
  end.

Definition engine_target (e : engine) (source_width source_height : option Z)
    (scale_factor : Z) : Z * Z :=
  match e with
  | Topaz => topaz_target source_width source_height scale_factor
  | Bloom => bloom_target source_width source_height scale_factor
  end.

(** A source dimension: the one given, 1024 when none is. *)
Definition source_dim (d : option Z) : Z :=
  match d with
  | Some z => z
  | None => 1024%Z
  end.

(** A dimension that is given is a positive number of pixels. *)
Definition valid_dim (d : option Z) : Prop :=
  match d with
  | Some z => (0 < z)%Z
  | None => True
  end.

(** Every status request is answered, with status 200 and a JSON object. *)
Definition answers_status (fetch : nat -> result response) : Prop :=
  forall k, exists r d,
    fetch k = Ok r /\ status_code r = 200%Z /\ json r = Some (VDict d).

(** The status in the answer to the [k]-th request. *)
Definition status_at (fetch : nat -> result response) (k : nat) : value :=
  match fetch k with
  | Ok r =>
      match json r with
      | Some (VDict d) => dict_get_default (str_of "status") VNone d
      | _ => VNone
      end
  | _ => VNone
  end.

(** A text without a line break. *)
Definition one_line (s : str) : bool :=
  forallb (fun c => negb (char_eqb c newline)) s.

(** What an operation does to the log and to the last-image file: when it
    returns, one dumped entry and a line break were added to the log and
    the same entry, dumped with [indent=2], is the last-image file.
    Whatever the outcome, the log is only appended to. *)
Definition records_one_entry {A : Type} (m : M A) : Prop :=
  forall w,
    match m w with
    | (Ok _, w') =>
        exists entry,
          log_file w' = log_file w ++ dumps entry ++ [newline]
          /\ one_line (dumps entry) = true
          /\ last_image_file w' = Some (dumps_indent2 entry)
    | (_, w') => exists appended, log_file w' = log_file w ++ appended
    end.

(** [m] raises nothing but what [P] allows. *)
Definition raises_only {A : Type} (P : failure -> Prop) (m : M A) : Prop :=
  forall w e w', m w = (Raise e, w') -> P e.

(** [m] leaves the log and the last-image file as they are. *)
Definition store_unchanged {A : Type} (m : M A) : Prop :=
  forall w,
    log_file (snd (m w)) = log_file w
    /\ last_image_file (snd (m w)) = last_image_file w.

End Spec.
Import Spec.

(** ** Concrete inputs, used to run the definitions *)

Module Fixtures.

(** A prompt of one word of sixty letters. *)
Definition sixty_letters : str := repeat 97%N 60.

(** A command line with [--preset] and [--engine] as given and nothing
    else. *)
Definition upscale_cli (p : option preset_name) (e : option engine) : Cli :=
  {| cli_interactive := false; cli_scale := None; cli_engine := e;
     cli_preset := p; cli_upscale_model := None; cli_sharpen := None;
     cli_denoise := None; cli_fix_compression := None;
     cli_face_enhancement := false; cli_creativity := None;
     cli_face_preservation := false; cli_color_preservation := false;
     cli_upscale_prompt := None |}.

(** A response with a status, a raw body and its decoded form. *)
Definition answer (code : Z) (body : str) (decoded : option value)
  : response :=
  {| status_code := code; text := body; json := decoded;
     content_type := None; content := [] |}.

(** The body [{"job_id": "j1"}]. *)
Definition job_body : value := VDict [(str_of "job_id", VS "j1")].

(** The body [{"status": s}]. *)
Definition status_body (s : string) : value :=
  VDict [(str_of "status", VS s)].

(** The body of a completed job with one artifact at [url]. *)
Definition completed_body (url : string) : value :=
  VDict [(str_of "status", VS "completed");
         (str_of "result", VDict [(str_of "urls", VList [VS url])])].

(** A job that is still processing at its first two status requests and
    completed from the third on. *)
Definition third_time_lucky (url : string) (k : nat) : result response :=
  if (k <? 2)%nat
  then Ok (answer 200 [] (Some (status_body "processing")))
  else Ok (answer 200 [] (Some (completed_body url))).

(** A job that never leaves the queue. *)
Definition never_done (k : nat) : result response :=
  Ok (answer 200 [] (Some (status_body "queued"))).

(** An environment from a list of settings. *)
Definition env_of (settings : list (string * string)) (name : str)
  : option str :=
  option_map (fun kv => str_of (snd kv))
    (find (fun kv => str_eqb (str_of (fst kv)) name) settings).

(** Everything set but [FTP_REMOTE_PATH]. *)
Definition env_without_remote_path : str -> option str :=
  env_of [("KREA_API_KEY", "key"); ("FTP_HOST", "ftp.example.com");
          ("FTP_USER", "user"); ("FTP_PASS", "secret");
          ("FTP_PUBLIC_URL", "https://cdn.example.com/img/")]%string.

(** Everything set but [FTP_HOST]. *)
Definition env_without_host : str -> option str :=
  env_of [("KREA_API_KEY", "key"); ("FTP_USER", "user");
          ("FTP_PASS", "secret"); ("FTP_REMOTE_PATH", "/img");
          ("FTP_PUBLIC_URL", "https://cdn.example.com/img/")]%string.

(** A host where everything works: the service accepts a submission with
    job [j1], which completes at its third status request with a PNG at
    [https://cdn.krea.ai/out.png]; the files [photo.jpg] and [http://]
    exist locally; the FTP server accepts everything. *)
Definition test_host (env : str -> option str) : Host :=
  {| getenv := env;
     local_path := fun p =>
       if str_eqb p (str_of "photo.jpg") || str_eqb p (str_of "http://")
       then Some (File [1; 2; 3]%N) else None;
     skill_dir := str_of "/skill";
     today := str_of "2026-01-31";
     time_of_day := str_of "12-00-00";
     timestamp := str_of "2026-01-31T12:00:00.000001";
     uuid_hex := str_of "0123456789abcdef0123456789abcdef";
     http_post := fun _ _ => Ok (answer 200 [] (Some job_body));
     job_status := fun _ => third_time_lucky "https://cdn.krea.ai/out.png";
     http_get := fun _ =>
       Ok {| status_code := 200; text := []; json := None;
             content_type := Some (str_of "image/png");
             content := [137; 80; 78; 71]%N |};
     ftp_connect_ok := true;
     ftp_login_ok := true;
     ftp_mkd_ok := fun _ => true;
     ftp_stor_ok := true;
     ftp_fault := fun _ => false;
     image_write := fun _ _ => WriteDone;
     log_append := fun _ => WriteDone;
     last_image_write := fun _ => WriteDone |}.

(** Nothing logged, nothing saved, nothing requested yet. *)
Definition empty_world : World :=
  {| log_file := []; last_image_file := None; written := []; slept := 0;
     network := []; ftp_dirs := [[47%N]]; ftp_cwd := [47%N];
     ftp_files := [] |}.

End Fixtures.
Import Fixtures.

(** ** The rest of [main]: the last image, batches, the folder *)

Module MainFlow.

(** How a piece of [main] ends: with [sys.exit(code)], or going on. *)
Inductive ended (A : Type) :=
  | Exit (code : Z)
  | Continue (a : A).
Arguments Exit {A} code.
Arguments Continue {A} a.

(** Lines 984 to 988.  [loads] is [json.loads], taken as given: the object
    a text decodes to, or the exception.  A missing file gives [None]. *)
Definition get_last_image_info (loads : str -> result value) : M value :=
  fun w =>
    match last_image_file w with
    | Some file_text => (loads file_text, w)
    | None => (Ok VNone, w)
    end.

(** Lines 1050 to 1063: the object [main] upscales, for a non-empty
    [args.upscale].  An exception raised here is caught by the [try] of
    line 1049. *)
Definition upscale_source (cfg : Config) (h : Host)
    (loads : str -> result value) (upscale : str) : M (ended value) :=
  if str_eqb upscale (str_of "last") then
    last_info <- get_last_image_info loads ;;
    if negb (truthy last_info) then ret (Exit 1)
    else
      match last_info with
      | VDict d =>
          ret (Continue (dict_get_default (str_of "krea_url") VNone d))
      | _ => raise LibraryError
      end
  else
    url <- resolve_image_url cfg h upscale ;;
    ret (Continue (VStr url)).

(** Lines 1133 to 1149: the source image and the aspect ratio of a
    generation, from [args.edit] and [args.aspect_ratio].  Nothing catches
    an exception raised here. *)
Definition edit_source (loads : str -> result value)
    (edit aspect_ratio : option str) : M (ended (value * value)) :=
  let given_ratio :=
    match aspect_ratio with
    | Some ((_ :: _) as a) => a
    | _ => str_of "1:1"
    end in
  match edit with
  | Some ((_ :: _) as e) =>
      if str_eqb e (str_of "last") then
        last_info <- get_last_image_info loads ;;
        if negb (truthy last_info) then ret (Exit 1)
        else
          match last_info with
          | VDict d =>
              match dict_get (str_of "krea_url") d with
              | None => raise LibraryError
              | Some source =>
                  let ratio :=
                    match aspect_ratio with
                    | None =>
                        dict_get_default (str_of "aspect_ratio") (VS "1:1") d
                    | Some _ => VStr given_ratio
                    end in
                  match dict_get (str_of "local_path") d with
                  | None => raise LibraryError
                  | Some _ => ret (Continue (source, ratio))
                  end
              end
          | _ => raise LibraryError
          end
      else ret (Continue (VStr e, VStr given_ratio))
  | _ => ret (Continue (VNone, VStr given_ratio))
  end.

(** [if output_folder: subprocess.run(["open", output_folder], check=True)]:
    whether the command succeeded, and the folders it was run on so far. *)
Definition open_folder (open_ok : str -> bool) (output_folder : option str)
    (opened : list str) : bool * list str :=
  match output_folder with
  | Some ((_ :: _) as folder) => (open_ok folder, opened ++ [folder])
  | _ => (true, opened)
  end.

(** Lines 1057 to 1125, for an [args.upscale] that is a path or a URL: the
    exit status.  Every exception is caught and gives status 1. *)
Definition main_upscale_path (cfg : Config) (h : Host)
    (interactive_upscale : str -> M (str * str * str))
    (open_ok : str -> bool) (args : Args) (path : str)
    (w : World) (opened : list str) : result Z * (World * list str) :=
  match (url <- resolve_image_url cfg h path ;;
         run_upscale cfg h interactive_upscale args url) w with
  | (Ok (_, output_folder, _), w') =>
      let (ok, opened') := open_folder open_ok (Some output_folder) opened in
      (Ok (if ok then 0 else 1)%Z, (w', opened'))
  | (Raise _, w') => (Ok 1%Z, (w', opened))
  | (OutOfFuel, w') => (OutOfFuel, (w', opened))
  end.

(** The loop of lines 1160 to 1173.  [hosts i] is the host as the [i]-th
    call finds it: the clock has moved, the service answers anew. *)
Fixpoint generate_loop (cfg : Config) (hosts : nat -> Host)
    (prompt : str) (m : model) (aspect_ratio resolution : str)
    (source_image_url : option str) (edit_strength : pyfloat)
    (remaining i : nat) (output_paths : list str)
    (output_folder : option str) : M (list str * option str) :=
  match remaining with
  | O => ret (output_paths, output_folder)
  | S remaining' =>
      out <- generate_image cfg (hosts i) prompt m aspect_ratio resolution
               source_image_url edit_strength ;;
      generate_loop cfg hosts prompt m aspect_ratio resolution
        source_image_url edit_strength remaining' (S i)
        (output_paths ++ [fst (fst out)]) (Some (snd (fst out)))
  end.

(** Lines 1155 to 1193: [num_images] generations in a row, then the
    folder; the exit status. *)
Definition generate_batch (cfg : Config) (hosts : nat -> Host)
    (open_ok : str -> bool)
    (prompt : str) (m : model) (aspect_ratio resolution : str)
    (source_image_url : option str) (edit_strength : pyfloat)
    (num_images : Z) (w : World) (opened : list str)
  : result Z * (World * list str) :=
  match generate_loop cfg hosts prompt m aspect_ratio resolution
          source_image_url edit_strength (Z.to_nat num_images) 0 [] None w
  with
  | (Ok (_, output_folder), w') =>
      let (ok, opened') := open_folder open_ok output_folder opened in
      (Ok (if ok then 0 else 1)%Z, (w', opened'))
  | (Raise _, w') => (Ok 1%Z, (w', opened))
  | (OutOfFuel, w') => (OutOfFuel, (w', opened))
  end.

End MainFlow.
Import MainFlow.

(** ** What the further properties speak of *)

Module Behaviour.

(** An answer to a status request that makes the loop wait and ask again:
    status 200, a JSON object, a status that is not terminal. *)
Definition keeps_waiting (a : result response) : bool :=
  match a with
  | Ok r =>
      (status_code r =? 200)%Z
      && match json r with
         | Some (VDict d) =>
             negb (is_terminal (dict_get_default (str_of "status") VNone d))
         | _ => false
         end
  | _ => false
  end.

(** The world after [requests] status requests for [job_id] and [seconds]
    of sleep. *)
Definition after_polling (job_id : value) (requests : nat) (seconds : Z)
    (w : World) : World :=
  {| log_file := log_file w; last_image_file := last_image_file w;
     written := written w; slept := (slept w + seconds)%Z;
     network := network w ++ repeat (HttpGetJob job_id) requests;
     ftp_dirs := ftp_dirs w; ftp_cwd := ftp_cwd w;
     ftp_files := ftp_files w |}.

(** The requests of one operation: none, or one submission, then status
    requests for one job, sixty at most, then at most one download. *)
Definition operation_trace (t : list event) : Prop :=
  t = []
  \/ exists url payload job_id n tail,
       t = HttpPost url payload :: repeat (HttpGetJob job_id) n ++ tail
       /\ (n <= 60)%nat
       /\ (tail = [] \/ exists u, tail = [HttpGet u]).

Definition is_ftp_event (e : event) : bool :=
  match e with
  | HttpPost _ _ | HttpGetJob _ | HttpGet _ => false
  | _ => true
  end.

(** What an answer to the engine question means: the engine, or [None] for
    an answer that is asked again. *)
Definition engine_answer (p : preset) (line : str) : option engine :=
  let a := strip line in
  if str_eqb a [] then Some (preset_engine p)
  else if str_eqb a (str_of "1") then Some Topaz
  else if str_eqb a (str_of "2") then Some Bloom
  else None.

(** A float between 0.0 and 1.0. *)
Definition in_unit_range (f : pyfloat) : bool :=
  match f with
  | FDec m e =>
      (0 <=? m)%Z
      && (if (e <? 0)%Z then (m <=? 10 ^ (- e))%Z else (m * 10 ^ e <=? 1)%Z)
  | _ => false
  end.

(** The values [--upscale-model] accepts (line 1024). *)
Definition topaz_models : list str :=
  [str_of "Standard V2"; str_of "Low Resolution V2"; str_of "CGI";
   str_of "High Fidelity V2"; str_of "Text Refine"].

(** The file an operation saves: when it returns, the bytes downloaded from
    the URL it returns were written, once, at the path it returns.
    Whatever the outcome, one file at most was written. *)
Definition saves_download (h : Host) (m : M (str * str * str)) : Prop :=
  forall w,
    match m w with
    | (Ok (path, _, url), w') =>
        exists r,
          http_get h url = Ok r /\ status_code r = 200%Z
          /\ written w' = written w ++ [(path, content r)]
    | (_, w') =>
        written w' = written w
        \/ exists file, written w' = written w ++ [file]
    end.

(** Something that holds of what an operation returns and of the world it
    leaves, whenever it returns. *)
Definition on_return {A : Type} (Q : A -> World -> Prop) (m : M A) : Prop :=
  forall w a w', m w = (Ok a, w') -> Q a w'.

(** The record in the last-image file points at what was returned. *)
Definition record_points_at (aspect : option value)
    (out : str * str * str) (w' : World) : Prop :=
  exists d,
    last_image_file w' = Some (dumps_indent2 (VDict d))
    /\ dict_get (str_of "local_path") d = Some (VStr (fst (fst out)))
    /\ dict_get (str_of "krea_url") d = Some (VStr (snd out))
    /\ dict_get (str_of "aspect_ratio") d = aspect.

(** [m] changes nothing but the state of the FTP server and the list of
    requests, to which it adds FTP commands only. *)
Definition touches_only_ftp {A : Type} (m : M A) : Prop :=
  forall w,
    let w' := snd (m w) in
    log_file w' = log_file w /\ last_image_file w' = last_image_file w
    /\ written w' = written w /\ slept w' = slept w
    /\ exists t, network w' = network w ++ t /\ forallb is_ftp_event t = true.

(** The directory made of [parts] below [current]. *)
Definition below (current : str) (parts : list str) : str :=
  current ++ flat_map (fun part => slash :: part) parts.

(** [m] writes no image file; [m] makes no request. *)
Definition written_unchanged {A : Type} (m : M A) : Prop :=
  forall w, written (snd (m w)) = written w.

Definition network_unchanged {A : Type} (m : M A) : Prop :=
  forall w, network (snd (m w)) = network w.

(** The path of a generated image: the day's folder, then the time, the
    model, a slug and one of three extensions. *)
Definition generated_path (h : Host) (m : model) (out : str * str * str)
  : Prop :=
  exists slug ext,
    fst (fst out)
    = date_folder h ++ [slash] ++ time_of_day h ++ [hyphen] ++ model_key m
      ++ [hyphen] ++ slug ++ ext
    /\ snd (fst out) = date_folder h
    /\ well_formed slug = true /\ slug <> [] /\ (len slug <= 50)%Z
    /\ (ext = str_of ".png" \/ ext = str_of ".webp" \/ ext = str_of ".jpg").

(** Lines 217 to 234 of [upload_to_ftp] on their own: entering the remote
    directory, creating it part by part when it is not there. *)
Definition directory_phase (cfg : Config) (h : Host) : M unit :=
  let remote_dir := rstrip_by (char_eqb slash) (FTP_REMOTE_PATH cfg) in
  match remote_dir with
  | [] => ret tt
  | _ =>
      entered <- ftp_cwd_try h remote_dir ;;
      if entered then ret tt
      else make_dirs h []
             (split_on slash (strip_by (char_eqb slash) remote_dir))
  end.

(** The name an upload gives the file on the server. *)
Definition unique_name (h : Host) (local : str) : str :=
  firstn 12 (uuid_hex h) ++ or_default (path_suffix local) (str_of ".png").

(** The four settings line 193 tests. *)
Definition ftp_configured (cfg : Config) : bool :=
  is_set (FTP_HOST cfg) && is_set (FTP_USER cfg) && is_set (FTP_PASS cfg)
  && is_set (Some (FTP_PUBLIC_URL cfg)).

(** A run that a fault of the session ended: it raised the upload failure,
    and the host has such a fault. *)
Definition broken_by_fault {A : Type} (h : Host) (run : result A * World)
  : Prop :=
  exists w1 n, run = (Raise FtpUploadFailed, w1) /\ ftp_fault h n = true.

(** What makes an upload possible: the four settings, a file to read, and
    a server that accepts the connection, the login and the transfer. *)
Definition upload_ready (cfg : Config) (h : Host) (local : str) : Prop :=
  ftp_configured cfg = true
  /\ (exists bytes, local_path h local = Some (File bytes))
  /\ ftp_connect_ok h = true /\ ftp_login_ok h = true
  /\ ftp_stor_ok h = true.

(** A host whose services answer or raise: running out of fuel is the
    model's own outcome, never an answer of theirs. *)
Definition answers_or_raises (h : Host) : Prop :=
  (forall url payload, http_post h url payload <> OutOfFuel)
  /\ (forall job_id k, job_status h job_id k <> OutOfFuel)
  /\ (forall url, http_get h url <> OutOfFuel).

(** [m] ends: it returns or it raises. *)
Definition ends {A : Type} (m : M A) : Prop :=
  forall w, fst (m w) <> OutOfFuel.

(** What [--edit last] takes as aspect ratio: the one on the command line,
    otherwise the one of the record, otherwise [1:1]. *)
Definition inherited_ratio (given : option str) (recorded : option value)
  : value :=
  match given, recorded with
  | Some (c :: a), _ => VStr (c :: a)
  | Some [], _ => VS "1:1"
  | None, Some v => v
  | None, None => VS "1:1"
  end.

(** One write more for a call that returns, in the day's folder; one at
    most for a call that does not. *)
Definition one_file_or_none (h : Host) (w : World)
    (run : result (str * str * str) * World) : Prop :=
  match run with
  | (Ok out, w') =>
      length (written w') = S (length (written w))
      /\ snd (fst out) = date_folder h
  | (_, w') =>
      length (written w') = length (written w)
      \/ length (written w') = S (length (written w))
  end.

End Behaviour.
Import Behaviour.

(** ** More concrete inputs *)

Module MoreFixtures.

(** A decoder that reads every text as the same record. *)
Definition reads_as (record : value) (file_text : str) : result value :=
  Ok record.

(** The record of an upscale. *)
Definition upscale_record : value :=
  VDict [(str_of "local_path", VS "/skill/images/2026-01-31/a.png");
         (str_of "krea_url", VS "https://cdn.krea.ai/out.png");
         (str_of "operation", VS "upscale_topaz")].

(** A world whose last-image file holds some text. *)
Definition world_with_last : World :=
  {| log_file := []; last_image_file := Some (str_of "{}"); written := [];
     slept := 0; network := []; ftp_dirs := [[47%N]]; ftp_cwd := [47%N];
     ftp_files := [] |}.

(** A job that answers twice "processing" and then fails to answer. *)
Definition breaks_at_third (k : nat) : result response :=
  if (k <? 2)%nat
  then Ok (answer 200 [] (Some (status_body "processing")))
  else Ok (answer 503 (str_of "unavailable") None).

(** A job that fails at its second status request. *)
Definition fails_at_second (k : nat) : result response :=
  if (k <? 1)%nat
  then Ok (answer 200 [] (Some (status_body "processing")))
  else Ok (answer 200 [] (Some (status_body "failed"))).

(** The host of [test_host], whose service refuses the submission from
    the call numbered [bad] on. *)
Definition hosts_failing_from (bad : nat) (i : nat) : Host :=
  let h := test_host env_without_remote_path in
  if (i <? bad)%nat then h
  else
    {| getenv := getenv h; local_path := local_path h;
       skill_dir := skill_dir h; today := today h;
       time_of_day := time_of_day h; timestamp := timestamp h;
       uuid_hex := uuid_hex h;
       http_post := fun _ _ => Ok (answer 402 [] None);
       job_status := job_status h; http_get := http_get h;
       ftp_connect_ok := true; ftp_login_ok := true;
       ftp_mkd_ok := fun _ => true; ftp_stor_ok := true;
       ftp_fault := ftp_fault h; image_write := image_write h;
       log_append := log_append h;
       last_image_write := last_image_write h |}.

(** The host of [test_host] with an FTP server that has no directory but
    the root and refuses to create any. *)
Definition strict_ftp_host (env : str -> option str) : Host :=
  let h := test_host env in
  {| getenv := getenv h; local_path := local_path h;
     skill_dir := skill_dir h; today := today h;
     time_of_day := time_of_day h; timestamp := timestamp h;
     uuid_hex := uuid_hex h; http_post := http_post h;
     job_status := job_status h; http_get := http_get h;
     ftp_connect_ok := true; ftp_login_ok := true;
     ftp_mkd_ok := fun _ => false; ftp_stor_ok := true;
     ftp_fault := ftp_fault h; image_write := image_write h;
     log_append := log_append h;
     last_image_write := last_image_write h |}.

(** The host of [test_host] on which the last-image file cannot be
    written. *)
Definition host_without_last_image (env : str -> option str) : Host :=
  let h := test_host env in
  {| getenv := getenv h; local_path := local_path h;
     skill_dir := skill_dir h; today := today h;
     time_of_day := time_of_day h; timestamp := timestamp h;
     uuid_hex := uuid_hex h; http_post := http_post h;
     job_status := job_status h; http_get := http_get h;
     ftp_connect_ok := true; ftp_login_ok := true;
     ftp_mkd_ok := fun _ => true; ftp_stor_ok := true;
     ftp_fault := ftp_fault h; image_write := image_write h;
     log_append := log_append h;
     last_image_write := fun _ => WriteFailed None |}.

(** The host of [test_host] whose FTP session breaks at the request
    numbered [n]. *)
Definition host_with_fault (env : str -> option str) (n : nat) : Host :=
  let h := test_host env in
  {| getenv := getenv h; local_path := local_path h;
     skill_dir := skill_dir h; today := today h;
     time_of_day := time_of_day h; timestamp := timestamp h;
     uuid_hex := uuid_hex h; http_post := http_post h;
     job_status := job_status h; http_get := http_get h;
     ftp_connect_ok := true; ftp_login_ok := true;
     ftp_mkd_ok := fun _ => true; ftp_stor_ok := true;
     ftp_fault := fun k => (k =? n)%nat; image_write := image_write h;
     log_append := log_append h;
     last_image_write := last_image_write h |}.

(** Everything set, the remote path [/img/new]. *)
Definition env_with_remote_path : str -> option str :=
  env_of [("KREA_API_KEY", "key"); ("FTP_HOST", "ftp.example.com");
          ("FTP_USER", "user"); ("FTP_PASS", "secret");
          ("FTP_REMOTE_PATH", "/img/new/");
          ("FTP_PUBLIC_URL", "https://cdn.example.com/img")]%string.

End MoreFixtures.
Import MoreFixtures.

(** * Properties *)

(** ** Characters and strings *)

Ltac char_arith :=
  unfold slug_char, not_kept, space_or_underscore, is_space, is_lower_az,
    is_upper_az, is_digit, is_hyphen, char_eqb, hyphen, underscore,
    newline in *;
  repeat rewrite ?negb_true_iff, ?negb_false_iff, ?orb_true_iff,
    ?orb_false_iff, ?andb_true_iff, ?andb_false_iff, ?N.leb_le, ?N.leb_gt,
    ?N.ltb_lt, ?N.ltb_ge, ?N.eqb_eq, ?N.eqb_neq in *;
  lia.

Lemma char_eqb_eq (a b : char) : char_eqb a b = true <-> a = b.
Proof. apply N.eqb_eq. Qed.

Lemma char_eqb_refl (a : char) : char_eqb a a = true.
Proof. apply N.eqb_refl. Qed.

Lemma str_eqb_eq (a b : str) : str_eqb a b = true <-> a = b.
Proof.
  revert b; induction a as [|x a IH]; intros [|y b]; simpl;
    try (split; [discriminate | discriminate]); try tauto.
  rewrite andb_true_iff, char_eqb_eq, IH.
  split; [intros [-> ->]; reflexivity | intros H; inversion H; auto].
Qed.

Lemma str_eqb_refl (a : str) : str_eqb a a = true.
Proof. apply str_eqb_eq; reflexivity. Qed.

Lemma startswith_app (s p : str) :
  startswith s p = true <-> exists rest, s = p ++ rest.
Proof.
  revert s; induction p as [|x p IH]; intros s; simpl.
  - split; [exists s; reflexivity | reflexivity].
  - destruct s as [|y s].
    + split; [discriminate | intros [r H]; discriminate].
    + rewrite andb_true_iff, char_eqb_eq, IH. split.
      * intros [-> [r ->]]. exists r; reflexivity.
      * intros [r H]. inversion H. split; [reflexivity | exists r; reflexivity].
Qed.

Lemma slug_char_not_space (c : char) : slug_char c = true -> is_space c = false.
Proof.
  intros H. destruct (is_space c) eqn:E; [exfalso; char_arith | reflexivity].
Qed.

Lemma slug_char_kept (c : char) : slug_char c = true -> not_kept c = false.
Proof.
  intros H. destruct (not_kept c) eqn:E; [exfalso; char_arith | reflexivity].
Qed.

Lemma slug_char_not_space_or_underscore (c : char) :
  slug_char c = true -> space_or_underscore c = false.
Proof.
  intros H. destruct (space_or_underscore c) eqn:E;
    [exfalso; char_arith | reflexivity].
Qed.

Lemma kept_not_space_is_slug_char (c : char) :
  not_kept c = false -> space_or_underscore c = false -> slug_char c = true.
Proof.
  intros H1 H2. destruct (slug_char c) eqn:E; [reflexivity | exfalso; char_arith].
Qed.

Lemma slug_char_lower (c : char) : slug_char c = true -> lower_char c = [c].
Proof.
  intros H. unfold lower_char.
  destruct (is_upper_az c) eqn:E1; [exfalso; char_arith |].
  destruct (c =? 304)%N eqn:E2; [exfalso; char_arith |].
  destruct (c =? 8490)%N eqn:E3; [exfalso; char_arith |].
  reflexivity.
Qed.

Lemma is_hyphen_eq (c : char) : is_hyphen c = true <-> c = hyphen.
Proof. apply char_eqb_eq. Qed.

(** ** Stripping, substitution and splitting *)

Section StringFacts.

Variable p : char -> bool.

Lemma lstrip_by_decompose (s : str) :
  exists pre, s = pre ++ lstrip_by p s.
Proof.
  induction s as [|c s [pre IH]]; simpl.
  - exists []; reflexivity.
  - destruct (p c).
    + exists (c :: pre). simpl. f_equal. exact IH.
    + exists []. reflexivity.
Qed.

Lemma lstrip_by_starts (s : str) : starts_in p (lstrip_by p s) = false.
Proof.
  induction s as [|c s IH]; simpl; [reflexivity |].
  destruct (p c) eqn:E; [exact IH | simpl; exact E].
Qed.

Lemma lstrip_by_id (s : str) : starts_in p s = false -> lstrip_by p s = s.
Proof. destruct s as [|c s]; simpl; [reflexivity | intros ->; reflexivity]. Qed.

Lemma rstrip_by_decompose (s : str) :
  exists post, s = rstrip_by p s ++ post.
Proof.
  unfold rstrip_by. destruct (lstrip_by_decompose (rev s)) as [pre H].
  exists (rev pre). rewrite <- rev_app_distr, <- H, rev_involutive. reflexivity.
Qed.

Lemma rstrip_by_ends (s : str) : ends_in p (rstrip_by p s) = false.
Proof.
  unfold ends_in, rstrip_by. rewrite rev_involutive. apply lstrip_by_starts.
Qed.

Lemma rstrip_by_id (s : str) : ends_in p s = false -> rstrip_by p s = s.
Proof.
  unfold ends_in, rstrip_by. intros H.
  rewrite lstrip_by_id by exact H. apply rev_involutive.
Qed.

Lemma starts_in_prefix (a b : str) :
  starts_in p (a ++ b) = false -> starts_in p a = false.
Proof. destruct a; simpl; auto. Qed.

Lemma strip_by_decompose (s : str) :
  exists pre post, s = pre ++ strip_by p s ++ post.
Proof.
  unfold strip_by. destruct (lstrip_by_decompose s) as [pre H1].
  destruct (rstrip_by_decompose (lstrip_by p s)) as [post H2].
  exists pre, post. rewrite <- H2. exact H1.
Qed.

Lemma strip_by_starts (s : str) : starts_in p (strip_by p s) = false.
Proof.
  unfold strip_by.
  destruct (rstrip_by_decompose (lstrip_by p s)) as [post H].
  apply starts_in_prefix with (b := post). rewrite <- H.
  apply lstrip_by_starts.
Qed.

Lemma strip_by_ends (s : str) : ends_in p (strip_by p s) = false.
Proof. apply rstrip_by_ends. Qed.

Lemma strip_by_id (s : str) :
  starts_in p s = false -> ends_in p s = false -> strip_by p s = s.
Proof.
  intros H1 H2. unfold strip_by.
  rewrite lstrip_by_id by exact H1. apply rstrip_by_id; exact H2.
Qed.

Lemma ends_in_snoc (s : str) (c : char) : ends_in p (s ++ [c]) = p c.
Proof. unfold ends_in. rewrite rev_unit. reflexivity. Qed.

Lemma adjacent_cons (c : char) (s : str) :
  adjacent p (c :: s) = (p c && starts_in p s) || adjacent p s.
Proof. destruct s; simpl; [rewrite andb_false_r |]; reflexivity. Qed.

Lemma adjacent_app (a b : str) :
  adjacent p (a ++ b) = false ->
  adjacent p a = false /\ adjacent p b = false.
Proof.
  induction a as [|c a IH]; intros H.
  - split; [reflexivity | exact H].
  - change ((c :: a) ++ b) with (c :: (a ++ b)) in H.
    rewrite adjacent_cons in H. rewrite adjacent_cons.
    apply orb_false_iff in H. destruct H as [H1 H2].
    destruct (IH H2) as [Ha Hb]. split; [| exact Hb].
    rewrite Ha, orb_false_r.
    destruct a as [|c' a]; [simpl; apply andb_false_r | exact H1].
Qed.

Lemma adjacent_snoc_snoc (s : str) (c1 c2 : char) (rest : str) :
  adjacent p (s ++ c1 :: c2 :: rest) = false -> p c1 && p c2 = false.
Proof.
  intros H. apply adjacent_app in H. destruct H as [_ H].
  simpl in H. apply orb_false_iff in H. tauto.
Qed.

End StringFacts.

Lemma forallb_implies (q r : char -> bool) (s : str) :
  (forall c, q c = true -> r c = true) ->
  forallb q s = true -> forallb r s = true.
Proof.
  intros Hqr H. rewrite forallb_forall in *. auto.
Qed.

Lemma forallb_starts (q p : char -> bool) (s : str) :
  (forall c, q c = true -> p c = false) ->
  forallb q s = true -> starts_in p s = false.
Proof.
  intros Hqp H. destruct s as [|c s]; simpl in *; [reflexivity |].
  apply andb_true_iff in H. apply Hqp. tauto.
Qed.

Lemma forallb_ends (q p : char -> bool) (s : str) :
  (forall c, q c = true -> p c = false) ->
  forallb q s = true -> ends_in p s = false.
Proof.
  intros Hqp H. unfold ends_in. apply forallb_starts with (q := q); auto.
  rewrite forallb_forall in *. intros c Hc. apply H, in_rev. exact Hc.
Qed.

Lemma filter_all (f : char -> bool) (s : str) :
  forallb f s = true -> filter f s = s.
Proof.
  induction s as [|c s IH]; simpl; [reflexivity |].
  intros H. apply andb_true_iff in H. destruct H as [-> H].
  f_equal. auto.
Qed.

Lemma forallb_filter (f : char -> bool) (s : str) :
  forallb f (filter f s) = true.
Proof.
  induction s as [|c s IH]; simpl; [reflexivity |].
  destruct (f c) eqn:E; simpl; [rewrite E |]; exact IH.
Qed.

(** What a substitution of runs leaves and what it writes. *)
Lemma re_sub_runs_from_forallb (cls q : char -> bool) (repl : str) :
  forallb q repl = true ->
  forall (s : str) (in_run : bool),
    (forall c, In c s -> cls c = false -> q c = true) ->
    forallb q (re_sub_runs_from cls repl in_run s) = true.
Proof.
  intros Hrepl. induction s as [|c s IH]; intros in_run H; simpl.
  - reflexivity.
  - destruct (cls c) eqn:E.
    + rewrite forallb_app. rewrite IH by (intros; apply H; simpl; auto).
      destruct in_run; simpl; [reflexivity | rewrite Hrepl; reflexivity].
    + simpl. rewrite (H c) by (simpl; auto).
      apply IH. intros; apply H; simpl; auto.
Qed.

Lemma re_sub_runs_from_none (cls : char -> bool) (repl : str) (s : str) :
  forallb (fun c => negb (cls c)) s = true ->
  forall in_run, re_sub_runs_from cls repl in_run s = s.
Proof.
  induction s as [|c s IH]; intros H in_run; simpl in *; [reflexivity |].
  apply andb_true_iff in H. destruct H as [Hc H].
  apply negb_true_iff in Hc. rewrite Hc. f_equal. auto.
Qed.

(** Collapsing the runs of hyphens leaves no two hyphens side by side. *)
Lemma collapse_hyphens_adjacent (s : str) (in_run : bool) :
  adjacent is_hyphen (re_sub_runs_from is_hyphen [hyphen] in_run s) = false
  /\ (in_run = true ->
      starts_in is_hyphen (re_sub_runs_from is_hyphen [hyphen] in_run s)
      = false).
Proof.
  revert in_run. induction s as [|c s IH]; intros in_run; simpl.
  - split; reflexivity.
  - destruct (is_hyphen c) eqn:E.
    + destruct (IH true) as [Ha Hs]. destruct in_run; simpl.
      * split; [exact Ha | intros _; apply Hs; reflexivity].
      * split; [| discriminate].
        change (adjacent is_hyphen
                  (hyphen :: re_sub_runs_from is_hyphen [hyphen] true s)
                = false).
        rewrite adjacent_cons, Ha, Hs by reflexivity.
        rewrite andb_false_r. reflexivity.
    + destruct (IH false) as [Ha _]. split.
      * rewrite adjacent_cons, Ha, E. reflexivity.
      * intros _. simpl. exact E.
Qed.

(** A string with single hyphens is left as it is. *)
Lemma collapse_hyphens_id (s : str) :
  adjacent is_hyphen s = false ->
  forall in_run,
    (in_run = true -> starts_in is_hyphen s = false) ->
    re_sub_runs_from is_hyphen [hyphen] in_run s = s.
Proof.
  induction s as [|c s IH]; intros Ha in_run Hs; [reflexivity |].
  rewrite adjacent_cons in Ha. apply orb_false_iff in Ha.
  destruct Ha as [Hc Ha]. simpl.
  destruct (is_hyphen c) eqn:E.
  - destruct in_run; [simpl in Hs; rewrite E in Hs; discriminate Hs; reflexivity |].
    simpl. apply is_hyphen_eq in E. subst c. f_equal.
    apply IH; [exact Ha | intros _; exact Hc].
  - f_equal. apply IH; [exact Ha | discriminate].
Qed.

Lemma before_last_some (sep : char) (s h : str) :
  before_last sep s = Some h -> exists r, s = h ++ sep :: r.
Proof.
  revert h. induction s as [|c s IH]; intros h; simpl; [discriminate |].
  destruct (before_last sep s) as [h'|] eqn:E.
  - intros H. injection H as <-. destruct (IH h' eq_refl) as [r ->].
    exists r. reflexivity.
  - destruct (char_eqb c sep) eqn:Ec; [| discriminate].
    intros H. injection H as <-. apply char_eqb_eq in Ec. subst c.
    exists s. reflexivity.
Qed.

Lemma before_last_none (sep : char) (s : str) :
  before_last sep s = None ->
  forallb (fun c => negb (char_eqb c sep)) s = true.
Proof.
  induction s as [|c s IH]; simpl; [reflexivity |].
  destruct (before_last sep s); [discriminate |].
  destruct (char_eqb c sep); [discriminate |].
  intros _. simpl. apply IH. reflexivity.
Qed.

Lemma ends_in_inv (p : char -> bool) (s : str) :
  ends_in p s = true -> exists s' c, s = s' ++ [c] /\ p c = true.
Proof.
  unfold ends_in. destruct (rev s) as [|c l] eqn:E; simpl; [discriminate |].
  intros H. exists (rev l), c. split; [| exact H].
  rewrite <- (rev_involutive s), E. reflexivity.
Qed.

(** ** Slugs *)

Lemma well_formed_iff (s : str) :
  well_formed s = true <->
  forallb slug_char s = true /\ adjacent is_hyphen s = false
  /\ starts_in is_hyphen s = false /\ ends_in is_hyphen s = false.
Proof.
  unfold well_formed.
  rewrite !andb_true_iff, !negb_true_iff. tauto.
Qed.

(** The cleaning steps give a well-formed slug, or nothing. *)
Lemma slug_clean_well_formed (text : str) :
  well_formed (slug_clean text) = true.
Proof.
  unfold slug_clean.
  set (s2 := re_delete not_kept (strip (lower text))).
  set (s3 := re_sub_runs space_or_underscore [hyphen] s2).
  set (s4 := re_sub_runs is_hyphen [hyphen] s3).
  assert (H2 : forallb (fun c => negb (not_kept c)) s2 = true)
    by apply forallb_filter.
  assert (H3 : forallb slug_char s3 = true).
  { apply re_sub_runs_from_forallb; [reflexivity |].
    intros c Hc Hcls. rewrite forallb_forall in H2.
    apply kept_not_space_is_slug_char; [| exact Hcls].
    apply negb_true_iff, H2, Hc. }
  assert (H4 : forallb slug_char s4 = true).
  { apply re_sub_runs_from_forallb; [reflexivity |].
    intros c Hc _. rewrite forallb_forall in H3. auto. }
  assert (A4 : adjacent is_hyphen s4 = false)
    by apply (collapse_hyphens_adjacent s3 false).
  destruct (strip_by_decompose is_hyphen s4) as [pre [post D]].
  apply well_formed_iff. repeat split.
  - rewrite D, !forallb_app, !andb_true_iff in H4. tauto.
  - rewrite D in A4. apply adjacent_app in A4. destruct A4 as [_ A].
    apply adjacent_app in A. tauto.
  - apply strip_by_starts.
  - apply strip_by_ends.
Qed.

(** Truncation keeps a slug well formed, whatever the bound. *)
Lemma truncate_well_formed (s : str) (m : Z) :
  well_formed s = true -> well_formed (truncate s m) = true.
Proof.
  intros W. unfold truncate. destruct (len s >? m)%Z; [| exact W].
  apply well_formed_iff in W. destruct W as [F [A [S _]]].
  assert (P : exists rest, s = slice_to s m ++ rest).
  { unfold slice_to. destruct (0 <=? m)%Z;
      eexists; symmetry; apply firstn_skipn. }
  destruct P as [rest P]. set (t := slice_to s m) in *.
  assert (Ft : forallb slug_char t = true).
  { rewrite P, forallb_app, andb_true_iff in F. tauto. }
  assert (At : adjacent is_hyphen t = false).
  { rewrite P in A. apply adjacent_app in A. tauto. }
  assert (St : starts_in is_hyphen t = false).
  { rewrite P in S. eapply starts_in_prefix; exact S. }
  apply well_formed_iff. unfold rsplit1_head.
  destruct (before_last hyphen t) as [h|] eqn:E.
  - destruct (before_last_some _ _ _ E) as [r D]. repeat split.
    + rewrite D, forallb_app, andb_true_iff in Ft. tauto.
    + rewrite D in At. apply adjacent_app in At. tauto.
    + rewrite D in St. eapply starts_in_prefix; exact St.
    + destruct (ends_in is_hyphen h) eqn:Eh; [| reflexivity].
      destruct (ends_in_inv _ _ Eh) as [h' [c [-> Hc]]].
      rewrite D, <- app_assoc in At. simpl in At.
      apply adjacent_snoc_snoc in At. rewrite Hc in At. discriminate At.
  - repeat split; auto.
    apply forallb_ends with (q := fun c => negb (char_eqb c hyphen)).
    + intros c Hc. apply negb_true_iff in Hc. exact Hc.
    + apply before_last_none. exact E.
Qed.

Lemma rsplit1_head_length (sep : char) (s : str) :
  (length (rsplit1_head sep s) <= length s)%nat.
Proof.
  unfold rsplit1_head. destruct (before_last sep s) as [h|] eqn:E; [| lia].
  destruct (before_last_some _ _ _ E) as [r ->]. rewrite length_app. lia.
Qed.

Lemma truncate_length (s : str) (m : Z) :
  (0 <= m)%Z -> (len (truncate s m) <= m)%Z.
Proof.
  intros Hm. unfold truncate. destruct (len s >? m)%Z eqn:E.
  - unfold slice_to. destruct (0 <=? m)%Z eqn:E0; [| apply Z.leb_gt in E0; lia].
    unfold len.
    pose proof (rsplit1_head_length hyphen (firstn (Z.to_nat m) s)) as H1.
    pose proof (firstn_le_length (Z.to_nat m) s) as H2. lia.
  - rewrite Z.gtb_ltb in E. apply Z.ltb_ge in E. exact E.
Qed.

(** When the part kept has a hyphen, the cut is at a word boundary. *)
Lemma truncate_at_hyphen (s h : str) (m : Z) :
  before_last hyphen (slice_to s m) = Some h ->
  cut_at_word_boundary s h = true.
Proof.
  intros E. destruct (before_last_some _ _ _ E) as [r D].
  assert (P : exists rest, s = slice_to s m ++ rest).
  { unfold slice_to. destruct (0 <=? m)%Z;
      eexists; symmetry; apply firstn_skipn. }
  destruct P as [rest P]. rewrite D, <- app_assoc in P. simpl in P.
  unfold cut_at_word_boundary. apply andb_true_iff. split.
  - apply startswith_app. eexists; exact P.
  - rewrite P. rewrite skipn_app, skipn_all, Nat.sub_diag. reflexivity.
Qed.

(** The shape of every slug: well formed, not empty, within the bound. *)
Lemma slugify_shape (text : str) (m : Z) :
  well_formed (slugify text m) = true
  /\ slugify text m <> []
  /\ ((5 <= m)%Z -> (len (slugify text m) <= m)%Z).
Proof.
  unfold slugify.
  pose proof (truncate_well_formed _ m (slug_clean_well_formed text)) as W.
  destruct (truncate (slug_clean text) m) as [|c r] eqn:E; simpl.
  - repeat split; [discriminate | intros H; exact H].
  - repeat split; [exact W | discriminate |].
    intros H. rewrite <- E. apply truncate_length. lia.
Qed.

(** A well-formed slug goes through the cleaning steps unchanged. *)
Lemma slug_clean_id (s : str) : well_formed s = true -> slug_clean s = s.
Proof.
  intros W. apply well_formed_iff in W. destruct W as [F [A [S E]]].
  unfold slug_clean.
  assert (L : lower s = s).
  { unfold lower. clear A S E. induction s as [|c s IH]; [reflexivity |].
    simpl in *. apply andb_true_iff in F. destruct F as [Fc F].
    rewrite (slug_char_lower _ Fc), IH by exact F. reflexivity. }
  rewrite L. unfold strip.
  rewrite (strip_by_id is_space s);
    [| apply forallb_starts with (q := slug_char);
       [apply slug_char_not_space | exact F]
     | apply forallb_ends with (q := slug_char);
       [apply slug_char_not_space | exact F]].
  unfold re_delete. rewrite filter_all.
  2:{ eapply forallb_implies; [| exact F].
      intros c Hc. apply negb_true_iff, slug_char_kept, Hc. }
  unfold re_sub_runs.
  rewrite (re_sub_runs_from_none space_or_underscore [hyphen] s).
  2:{ eapply forallb_implies; [| exact F].
      intros c Hc. apply negb_true_iff, slug_char_not_space_or_underscore, Hc. }
  rewrite collapse_hyphens_id; [| exact A | discriminate].
  apply strip_by_id; assumption.
Qed.

Lemma truncate_short (s : str) (m : Z) : (len s <= m)%Z -> truncate s m = s.
Proof.
  intros H. unfold truncate.
  destruct (len s >? m)%Z eqn:E; [| reflexivity].
  apply Z.gtb_lt in E. lia.
Qed.

(** [slugify] leaves its own results alone, for every bound that the
    fallback fits in. *)
Lemma slugify_fixpoint (text : str) (m : Z) :
  (5 <= m)%Z -> slugify (slugify text m) m = slugify text m.
Proof.
  intros Hm. destruct (slugify_shape text m) as [W [N L]].
  unfold slugify at 1.
  rewrite slug_clean_id by exact W.
  rewrite truncate_short by auto.
  destruct (slugify text m); [contradiction | reflexivity].
Qed.

Example slugify_red_bicycle :
  slugify (str_of "A red bicycle") 50 = str_of "a-red-bicycle".
Proof. reflexivity. Qed.

Example slugify_symbols :
  slugify (str_of "  Hello, World!  __ --x_y ") 50 = str_of "hello-world-xy".
Proof. reflexivity. Qed.

Example slugify_nothing_left : slugify (str_of "!!!") 50 = str_of "image".
Proof. reflexivity. Qed.

Example slugify_cut_at_hyphen :
  slugify (str_of "the quick brown fox jumps over the lazy dog and runs away")
          50
  = str_of "the-quick-brown-fox-jumps-over-the-lazy-dog-and".
Proof. reflexivity. Qed.

(** C5, at the input where the code departs from it.  The claim: a slug has
    only lowercase letters, digits and single hyphens, none at either end, at
    most 50 characters, is never cut inside a word, and is "image" when
    nothing is left.  For a prompt of one word of sixty letters the cleaned
    slug is that word, and [slugify] returns its first fifty letters: the cut
    falls inside the word, the letter after it is not a hyphen. *)
Theorem slugify_cuts_inside_long_word :
  slug_clean sixty_letters = sixty_letters
  /\ slugify sixty_letters default_max_length = repeat 97%N 50
  /\ nth_error (slug_clean sixty_letters) 50 = Some 97%N
  /\ cut_at_word_boundary (slug_clean sixty_letters)
       (slugify sixty_letters default_max_length) = false.
Proof. repeat split; vm_compute; reflexivity. Qed.

(** C6: the slug function is idempotent: applied to its own result, it
    returns that result unchanged, for every input string. *)
Theorem slugify_idempotent (text : str) :
  slugify (slugify text default_max_length) default_max_length
  = slugify text default_max_length.
Proof. apply slugify_fixpoint. unfold default_max_length. lia. Qed.

(** ** Target dimensions *)

Open Scope Z_scope.

Lemma engine_target_formula (e : engine) (sw sh : option Z) (scale : Z) :
  valid_dim sw -> valid_dim sh ->
  engine_target e sw sh scale
  = (Z.min (source_dim sw * scale) (engine_cap e),
     Z.min (source_dim sh * scale) (engine_cap e)).
Proof.
  intros Hw Hh.
  destruct e, sw as [w|], sh as [h|]; simpl in *;
    unfold topaz_target, bloom_target; simpl;
    repeat match goal with
    | |- context [(?z =? 0)%Z] =>
        destruct (Z.eqb_spec z 0); [lia |]
    end; reflexivity.
Qed.

(** C4: for every source dimension, scale factor and engine, each target
    dimension is [min(sourceDim * scaleFactor, cap)], the cap being 22000
    for topaz and 10000 for bloom; so it does not decrease when the scale
    factor grows and never exceeds the cap; a source of 1024 scaled 32 times
    by topaz gives 22000. *)
Theorem target_dimensions (e : engine) (sw sh : option Z) :
  valid_dim sw -> valid_dim sh ->
  (forall scale,
     engine_target e sw sh scale
     = (Z.min (source_dim sw * scale) (engine_cap e),
        Z.min (source_dim sh * scale) (engine_cap e)))
  /\ (forall s1 s2, s1 <= s2 ->
        fst (engine_target e sw sh s1) <= fst (engine_target e sw sh s2)
        /\ snd (engine_target e sw sh s1) <= snd (engine_target e sw sh s2))
  /\ (forall scale,
        fst (engine_target e sw sh scale) <= engine_cap e
        /\ snd (engine_target e sw sh scale) <= engine_cap e)
  /\ engine_cap Topaz = 22000 /\ engine_cap Bloom = 10000
  /\ engine_target Topaz (Some 1024) (Some 1024) 32 = (22000, 22000).
Proof.
  intros Hw Hh.
  assert (Pw : 0 < source_dim sw) by (destruct sw; simpl in *; lia).
  assert (Ph : 0 < source_dim sh) by (destruct sh; simpl in *; lia).
  split; [intros scale; apply engine_target_formula; assumption |].
  split.
  { intros s1 s2 Hs. rewrite !engine_target_formula by assumption. simpl.
    split; apply Z.min_le_compat_r; nia. }
  split.
  { intros scale. rewrite engine_target_formula by assumption. simpl.
    split; apply Z.le_min_r. }
  repeat split.
Qed.

Lemma target_dimensions_witness :
  valid_dim (Some 1024) /\ valid_dim None
  /\ engine_target Bloom (Some 1024) None 32 = (10000, 10000)
  /\ fst (engine_target Bloom (Some 1024) None 2)
     <= fst (engine_target Bloom (Some 1024) None 4).
Proof.
  assert (Hw : valid_dim (Some 1024)) by (simpl; lia).
  assert (Hh : valid_dim None) by exact I.
  destruct (target_dimensions Bloom (Some 1024) None Hw Hh)
    as [F [Mono _]].
  split; [exact Hw |]. split; [exact Hh |]. split.
  - rewrite F. reflexivity.
  - apply (Mono 2 4). lia.
Defined.

(** ** Engine selection *)

(** Without [--engine] the preset recommends; [--engine bloom] is obeyed. *)
Lemma selected_engine_default (c : Cli) (p : preset) :
  cli_engine c = None ->
  selected_engine (parse_args c) p = preset_engine p.
Proof. unfold selected_engine, parse_args; simpl. intros ->. reflexivity. Qed.

Lemma selected_engine_bloom (c : Cli) (p : preset) :
  cli_engine c = Some Bloom ->
  selected_engine (parse_args c) p = Bloom.
Proof. unfold selected_engine, parse_args; simpl. intros ->. reflexivity. Qed.

(** The code follows the policy except for [--engine topaz] on a preset that
    recommends bloom. *)
Lemma selected_engine_policy (c : Cli) (p : preset) :
  selected_engine (parse_args c) p = spec_engine c p
  <-> ~ (cli_engine c = Some Topaz /\ preset_engine p = Bloom).
Proof.
  unfold selected_engine, spec_engine, parse_args; simpl.
  destruct (cli_engine c) as [[|]|], (preset_engine p); simpl;
    split; intros H; try reflexivity; try discriminate;
    try (intros [H1 H2]; discriminate).
  exfalso. apply H. split; reflexivity.
Qed.

(** C1, at the input where the code departs from it.  The claim: the
    preset's engine is the default and every explicit [--engine] wins, also
    [--engine topaz] on a preset that recommends bloom.  With
    [--preset lowres --engine topaz] the namespace holds "topaz", which line
    1071 takes for "no override": bloom runs, with the preset's bloom
    bundle, and the file written is a bloom upscale.  So it is for
    [creative].  The interactive path, asked the same question and answered
    "1", runs topaz. *)
Theorem explicit_topaz_is_overridden :
  let c := upscale_cli (Some Lowres) (Some Topaz) in
  let env := env_without_remote_path in
  spec_engine c (UPSCALE_PRESETS Lowres) = Topaz
  /\ selected_engine (parse_args c) (UPSCALE_PRESETS Lowres) = Bloom
  /\ upscale_dispatch (parse_args c)
     = CallBloom 2 (preset_bloom (UPSCALE_PRESETS Lowres)) []
  /\ fst (run_upscale (load_config env) (test_host env)
            (fun _ => raise LibraryError) (parse_args c)
            (str_of "https://example.com/a.png") empty_world)
     = Ok (str_of "/skill/images/2026-01-31/12-00-00-bloom-2x.png",
           str_of "/skill/images/2026-01-31",
           str_of "https://cdn.krea.ai/out.png")
  /\ selected_engine (parse_args (upscale_cli (Some Creative) (Some Topaz)))
       (UPSCALE_PRESETS Creative) = Bloom
  /\ interactive_engine (UPSCALE_PRESETS Lowres) [str_of "1"]
     = Some (Topaz, []).
Proof. repeat split. Qed.

(** ** Submission *)

Lemma has_job_id_inv (r : response) :
  has_job_id r = true ->
  exists data id,
    json r = Some (VDict data)
    /\ dict_get (str_of "job_id") data = Some id /\ truthy id = true.
Proof.
  unfold has_job_id. destruct (json r) as [[| | | | | |data]|]; try discriminate.
  destruct (dict_get (str_of "job_id") data) as [id|] eqn:E; [| discriminate].
  intros H. exists data, id. auto.
Qed.

(** C3 as stated fails: a 201 answer that holds a job identifier is
    refused. *)
Lemma submission_2xx_counterexample :
  ~ (forall r, is_2xx (status_code r) = true -> has_job_id r = true ->
               exists id, check_submission r = Ok id).
Proof.
  intros H.
  destruct (H (answer 201 (str_of "created") (Some job_body))
              eq_refl eq_refl) as [id Hid].
  discriminate Hid.
Qed.

(** C3, amended: 401 fails with the authentication error, 402 with the
    billing error, every other status that is not 200 (the other 2xx
    included) with the generic API error that carries the status and the raw
    body; a 200 answer whose JSON object has no job identifier, or a false
    one, fails with the submission error; a 200 answer with a job identifier
    passes and yields that identifier. *)
Theorem submission_outcomes (r : response) :
  (status_code r = 401 -> check_submission r = Raise InvalidApiKey)
  /\ (status_code r = 402 -> check_submission r = Raise InsufficientCredits)
  /\ (status_code r <> 401 -> status_code r <> 402 -> status_code r <> 200 ->
      check_submission r = Raise (ApiRequestFailed (status_code r) (text r)))
  /\ (status_code r = 200 ->
      forall data, json r = Some (VDict data) -> has_job_id r = false ->
      check_submission r = Raise (NoJobId (VDict data)))
  /\ (status_code r = 200 -> has_job_id r = true ->
      exists data id,
        json r = Some (VDict data)
        /\ dict_get (str_of "job_id") data = Some id
        /\ check_submission r = Ok id).
Proof.
  unfold check_submission. repeat split.
  - intros ->. reflexivity.
  - intros ->. reflexivity.
  - intros H1 H2 H3.
    apply Z.eqb_neq in H1, H2, H3. rewrite H1, H2, H3. reflexivity.
  - intros -> data Hj Hid. simpl. unfold response_dict. rewrite Hj.
    unfold has_job_id in Hid. rewrite Hj in Hid.
    unfold dict_get_default.
    destruct (dict_get (str_of "job_id") data) as [id|];
      [rewrite Hid |]; reflexivity.
  - intros -> Hid. destruct (has_job_id_inv r Hid) as [data [id [Hj [Hg Ht]]]].
    exists data, id. repeat split; auto. simpl.
    unfold response_dict, dict_get_default. rewrite Hj, Hg, Ht. reflexivity.
Qed.

Lemma submission_outcomes_witness :
  check_submission (answer 401 [] None) = Raise InvalidApiKey
  /\ check_submission (answer 402 [] None) = Raise InsufficientCredits
  /\ check_submission (answer 201 (str_of "created") (Some job_body))
     = Raise (ApiRequestFailed 201 (str_of "created"))
  /\ check_submission (answer 200 [] (Some (VDict [])))
     = Raise (NoJobId (VDict []))
  /\ exists data id,
       json (answer 200 [] (Some job_body)) = Some (VDict data)
       /\ dict_get (str_of "job_id") data = Some id
       /\ check_submission (answer 200 [] (Some job_body)) = Ok id.
Proof.
  split; [apply (submission_outcomes (answer 401 [] None)); reflexivity |].
  split; [apply (submission_outcomes (answer 402 [] None)); reflexivity |].
  split.
  { apply (submission_outcomes (answer 201 (str_of "created") (Some job_body)));
      simpl; lia. }
  split.
  { apply (submission_outcomes (answer 200 [] (Some (VDict []))));
      reflexivity. }
  apply (submission_outcomes (answer 200 [] (Some job_body))); reflexivity.
Defined.

(** ** The file extension *)

(** C7 as stated fails twice: a generated image whose content type says
    WebP and whose URL ends in [.png] is saved as [.png]; an upscaled image
    is saved under the requested output format, whatever the content type
    and the URL say. *)
Lemma extension_counterexample :
  generate_extension (str_of "image/webp") (str_of "https://cdn/a.png")
    <> spec_extension (str_of "image/webp") (str_of "https://cdn/a.png")
  /\ upscale_extension (str_of "png")
       <> spec_extension (str_of "image/webp") (str_of "https://cdn/a.webp").
Proof. split; vm_compute; discriminate. Qed.

(** ** Input resolution *)

(** C10: a path is a URL exactly when it starts with "http://" or
    "https://", nothing else is looked at; such a path (the bare "http://"
    and one with spaces too) is returned unchanged, with no upload and no
    request; and the URL test comes before the look at the local files, also
    in [is_local_file], which is false for a URL even when a file of that
    name exists. *)
Theorem url_classification (cfg : Config) (h : Host) (path : str) (w : World) :
  (is_url path = true <->
   (exists rest, path = str_of "http://" ++ rest)
   \/ (exists rest, path = str_of "https://" ++ rest))
  /\ (is_url path = true ->
      resolve_image_url cfg h path w = (Ok path, w)
      /\ is_local_file h path = false).
Proof.
  split.
  - unfold is_url. rewrite orb_true_iff, !startswith_app. reflexivity.
  - intros H. unfold resolve_image_url, is_local_file. rewrite H.
    split; reflexivity.
Qed.

Lemma url_classification_witness :
  is_url (str_of "http://") = true
  /\ path_exists (test_host env_without_host) (str_of "http://") = true
  /\ resolve_image_url (load_config env_without_host)
       (test_host env_without_host) (str_of "http://") empty_world
     = (Ok (str_of "http://"), empty_world)
  /\ is_local_file (test_host env_without_host) (str_of "http://") = false
  /\ resolve_image_url (load_config env_without_host)
       (test_host env_without_host) (str_of "https://a b c") empty_world
     = (Ok (str_of "https://a b c"), empty_world).
Proof.
  split; [reflexivity |]. split; [reflexivity |].
  destruct (url_classification (load_config env_without_host)
              (test_host env_without_host) (str_of "http://") empty_world)
    as [_ H1].
  destruct (url_classification (load_config env_without_host)
              (test_host env_without_host) (str_of "https://a b c")
              empty_world) as [_ H2].
  destruct (H1 eq_refl) as [R1 L1]. destruct (H2 eq_refl) as [R2 _].
  split; [exact R1 |]. split; [exact L1 | exact R2].
Defined.

Example not_a_url_uppercase : is_url (str_of "HTTP://example.com/a.png") = false.
Proof. reflexivity. Qed.

(** ** Statements in the monad *)

Lemma bind_ok_inv {A B : Type} (m : M A) (k : A -> M B) (w w' : World) (b : B) :
  bind m k w = (Ok b, w') ->
  exists a w1, m w = (Ok a, w1) /\ k a w1 = (Ok b, w').
Proof.
  unfold bind. destruct (m w) as [[a|e|] w1]; try discriminate.
  intros H. exists a, w1. auto.
Qed.

Lemma bind_raise_inv {A B : Type} (m : M A) (k : A -> M B) (w w' : World)
    (e : failure) :
  bind m k w = (Raise e, w') ->
  m w = (Raise e, w')
  \/ exists a w1, m w = (Ok a, w1) /\ k a w1 = (Raise e, w').
Proof.
  unfold bind. destruct (m w) as [[a|e0|] w1]; try discriminate.
  - intros H. right. exists a, w1. auto.
  - intros H. left. injection H as -> ->. reflexivity.
Qed.

Lemma raises_only_bind {A B : Type} (P : failure -> Prop)
    (m : M A) (k : A -> M B) :
  raises_only P m -> (forall a, raises_only P (k a)) ->
  raises_only P (bind m k).
Proof.
  intros Hm Hk w e w' H. apply bind_raise_inv in H.
  destruct H as [H | [a [w1 [_ H]]]]; [eapply Hm | eapply Hk]; exact H.
Qed.

Lemma raises_only_ret {A : Type} (P : failure -> Prop) (a : A) :
  raises_only P (ret a).
Proof. intros w e w' H. discriminate H. Qed.

Lemma raises_only_raise {A : Type} (P : failure -> Prop) (e : failure) :
  P e -> raises_only P (@raise A e).
Proof. intros He w e' w' H. injection H as <- _. exact He. Qed.

Lemma raises_only_emit (P : failure -> Prop) (ev : event) :
  raises_only P (emit ev).
Proof. intros w e w' H. discriminate H. Qed.

Lemma raises_only_send (P : failure -> Prop) (h : Host) (command : event) :
  P FtpUploadFailed -> raises_only P (ftp_send h command).
Proof.
  intros HP w e w' H. unfold ftp_send in H.
  destruct (ftp_fault h (length (network w))); [| discriminate H].
  injection H as <- _. exact HP.
Qed.

Lemma raises_only_cwd (P : failure -> Prop) (h : Host) (dir : str) :
  P FtpUploadFailed -> raises_only P (ftp_cwd_try h dir).
Proof.
  intros HP. apply raises_only_bind; [apply raises_only_send, HP |].
  intros _ w e w' H. destruct (existsb (str_eqb dir) (ftp_dirs w));
    discriminate H.
Qed.

Lemma raises_only_mkd (P : failure -> Prop) (h : Host) (dir : str) :
  P FtpUploadFailed -> raises_only P (ftp_mkd_try h dir).
Proof.
  intros HP. apply raises_only_bind; [apply raises_only_send, HP |].
  intros _ w e w' H. destruct (ftp_mkd_ok h dir); discriminate H.
Qed.

Lemma raises_only_make_dirs (P : failure -> Prop) (h : Host)
    (parts : list str) :
  P FtpUploadFailed ->
  forall current, raises_only P (make_dirs h current parts).
Proof.
  intros HP. induction parts as [|part rest IH]; intros current; simpl.
  - apply raises_only_ret.
  - apply raises_only_bind; [apply raises_only_cwd, HP |]. intros entered.
    apply raises_only_bind; [| intros _; apply IH].
    destruct entered; [apply raises_only_ret |].
    apply raises_only_bind; [apply raises_only_mkd, HP |]. intros made.
    destruct made; [| apply raises_only_ret].
    apply raises_only_bind; [apply raises_only_cwd, HP |].
    intros _. apply raises_only_ret.
Qed.

Lemma raises_only_stor (P : failure -> Prop) (h : Host) (name : str)
    (bytes : list N) :
  P FtpUploadFailed -> raises_only P (ftp_stor h name bytes).
Proof.
  intros HP. apply raises_only_bind; [apply raises_only_emit |].
  intros _ w e w' H. destruct (ftp_stor_ok h); [discriminate H |].
  injection H as <- _. exact HP.
Qed.

(** ** The extension of the saved file *)

Lemma endswith_iff (s suffix : str) :
  endswith s suffix = true <-> exists pre, s = pre ++ suffix.
Proof.
  unfold endswith. rewrite startswith_app. split.
  - intros [rest H]. exists (rev rest).
    rewrite <- (rev_involutive s), H, rev_app_distr, rev_involutive.
    reflexivity.
  - intros [pre ->]. exists (rev pre). apply rev_app_distr.
Qed.

Lemma endswith_refl (s : str) : endswith s s = true.
Proof. apply endswith_iff. exists []. reflexivity. Qed.

Lemma endswith_app_r (a s suffix : str) :
  endswith s suffix = true -> endswith (a ++ s) suffix = true.
Proof.
  rewrite !endswith_iff. intros [pre ->]. exists (a ++ pre).
  apply app_assoc.
Qed.

Lemma endswith_cons (c : char) (s suffix : str) :
  endswith s suffix = true -> endswith (c :: s) suffix = true.
Proof. apply (endswith_app_r [c]). Qed.

Ltac ends_with_suffix :=
  repeat first [apply endswith_refl | apply endswith_cons
               | apply endswith_app_r].

Lemma download_ok_inv (h : Host) (first : value) (w w' : World)
    (u : str) (r : response) :
  download h first w = (Ok (u, r), w') ->
  first = VStr u /\ http_get h u = Ok r.
Proof.
  unfold download. destruct first as [| | | |s| |]; try discriminate.
  intros H. apply bind_ok_inv in H. destruct H as [_ [w1 [_ H]]].
  apply bind_ok_inv in H. destruct H as [r' [w2 [Hl H]]].
  unfold lift in Hl. injection Hl as Hl _.
  destruct (negb (status_code r' =? 200)); [discriminate |].
  injection H as -> -> _. auto.
Qed.

Ltac step_ok H :=
  let a := fresh "a" in
  let w := fresh "w" in
  let E := fresh "E" in
  apply bind_ok_inv in H; destruct H as [a [w [E H]]].

(** The extension of the file each operation writes. *)
Lemma generated_file_extension (cfg : Config) (h : Host)
    (prompt : str) (m : model) (aspect_ratio resolution : str)
    (source : option str) (edit_strength : pyfloat) (w w' : World)
    (path folder url : str) :
  generate_image cfg h prompt m aspect_ratio resolution source edit_strength w
  = (Ok (path, folder, url), w') ->
  exists r,
    http_get h url = Ok r
    /\ endswith path (generate_extension (header_content_type r) url) = true.
Proof.
  unfold generate_image.
  destruct (negb (is_set (API_KEY cfg))); [discriminate |].
  cbv zeta. intros H. do 3 step_ok H.
  apply bind_ok_inv in H. destruct H as [[u r] [w4 [Hd H]]].
  apply download_ok_inv in Hd. destruct Hd as [_ Hget].
  do 3 step_ok H. injection H as <- _ <- _. cbn [fst snd].
  exists r. split; [exact Hget |].
  ends_with_suffix.
Qed.

Lemma upscaled_file_extension (cfg : Config) (h : Host)
    (image_url : str) (scale_factor : Z) (output_format : str)
    (t : topaz_settings) (b : bloom_settings) (prompt : str)
    (sw sh : option Z) (w w' : World) (path folder url : str) :
  upscale_image cfg h image_url scale_factor output_format t sw sh w
  = (Ok (path, folder, url), w')
  \/ upscale_bloom cfg h image_url scale_factor output_format b prompt sw sh w
     = (Ok (path, folder, url), w') ->
  endswith path (upscale_extension output_format) = true.
Proof.
  unfold upscale_image, upscale_bloom.
  destruct (negb (is_set (API_KEY cfg)));
    [intros [H | H]; discriminate H |].
  cbv zeta. intros [H | H]; do 7 step_ok H; injection H as <- _ _ _;
    ends_with_suffix.
Qed.

(** C7, amended: a generated image is saved as [.png] when the content type
    contains "png" or the URL ends in [.png], otherwise as [.webp] when the
    content type contains "webp" or the URL ends in [.webp], otherwise as
    [.jpg]; this is the content type first, then the URL, except that a URL
    ending in [.png] wins over a WebP content type.  A precision or creative
    upscale is saved as a dot and the requested output format, whatever the
    content type and the URL. *)
Theorem extension_resolution (ct url output_format : str) :
  (contains ct (str_of "png") = true ->
   generate_extension ct url = str_of ".png")
  /\ (endswith url (str_of ".png") = true ->
      generate_extension ct url = str_of ".png")
  /\ (contains ct (str_of "png") = false ->
      endswith url (str_of ".png") = false ->
      generate_extension ct url
      = if contains ct (str_of "webp") || endswith url (str_of ".webp")
        then str_of ".webp" else str_of ".jpg")
  /\ (generate_extension ct url = spec_extension ct url
      \/ (contains ct (str_of "png") = false
          /\ contains ct (str_of "webp") = true
          /\ endswith url (str_of ".png") = true))
  /\ upscale_extension output_format = str_of "." ++ output_format
  /\ (forall cfg h image_url scale t b prompt sw sh w w' path folder out_url,
        upscale_image cfg h image_url scale output_format t sw sh w
        = (Ok (path, folder, out_url), w')
        \/ upscale_bloom cfg h image_url scale output_format b prompt sw sh w
           = (Ok (path, folder, out_url), w') ->
        endswith path (str_of "." ++ output_format) = true)
  /\ (forall cfg h prompt m aspect_ratio resolution source strength w w'
             path folder,
        generate_image cfg h prompt m aspect_ratio resolution source
          strength w = (Ok (path, folder, url), w') ->
        exists r,
          http_get h url = Ok r
          /\ endswith path (generate_extension (header_content_type r) url)
             = true).
Proof.
  assert (U : upscale_extension output_format = str_of "." ++ output_format).
  { unfold upscale_extension.
    destruct (str_eqb output_format (str_of "jpg")) eqn:E; simpl;
      [| reflexivity].
    apply str_eqb_eq in E. subst. reflexivity. }
  unfold generate_extension, spec_extension.
  split; [intros ->; reflexivity |].
  split; [intros ->; rewrite orb_true_r; reflexivity |].
  split; [intros -> ->; reflexivity |].
  split.
  { destruct (contains ct (str_of "png")); simpl; [left; reflexivity |].
    destruct (endswith url (str_of ".png")); simpl.
    + destruct (contains ct (str_of "webp")); [right; auto | left; reflexivity].
    + destruct (contains ct (str_of "webp")); left; reflexivity. }
  split; [exact U |].
  split.
  { intros. rewrite <- U. eapply upscaled_file_extension; eassumption. }
  intros. eapply generated_file_extension; eassumption.
Qed.

Lemma extension_resolution_witness :
  generate_extension (str_of "image/png") (str_of "https://cdn/a.webp")
    = str_of ".png"
  /\ generate_extension (str_of "image/webp") (str_of "https://cdn/a.png")
     = str_of ".png"
  /\ generate_extension (str_of "image/jpeg") (str_of "https://cdn/a.webp")
     = str_of ".webp"
  /\ upscale_extension (str_of "webp") = str_of ".webp"
  /\ endswith (str_of "/skill/images/2026-01-31/12-00-00-upscale-2x.webp")
       (str_of ".webp") = true.
Proof.
  split.
  { destruct (extension_resolution (str_of "image/png")
                (str_of "https://cdn/a.webp") []) as [H _].
    apply H. reflexivity. }
  split.
  { destruct (extension_resolution (str_of "image/webp")
                (str_of "https://cdn/a.png") []) as [_ [H _]].
    apply H. reflexivity. }
  split.
  { destruct (extension_resolution (str_of "image/jpeg")
                (str_of "https://cdn/a.webp") []) as [_ [_ [H _]]].
    rewrite H; reflexivity. }
  destruct (extension_resolution [] [] (str_of "webp"))
    as [_ [_ [_ [_ [H1 [H2 _]]]]]].
  split; [exact H1 |].
  pose (env := env_without_remote_path).
  apply (H2 (load_config env) (test_host env) (str_of "https://x/y.png") 2
           (preset_topaz (UPSCALE_PRESETS Photo))
           (preset_bloom (UPSCALE_PRESETS Photo)) [] None None empty_world
           (snd (upscale_image (load_config env) (test_host env)
                   (str_of "https://x/y.png") 2 (str_of "webp")
                   (preset_topaz (UPSCALE_PRESETS Photo)) None None
                   empty_world))
           (str_of "/skill/images/2026-01-31/12-00-00-upscale-2x.webp")
           (str_of "/skill/images/2026-01-31")
           (str_of "https://cdn.krea.ai/out.png")).
  left. vm_compute. reflexivity.
Defined.

(** ** Upload configuration *)

(** The four settings line 193 tests, read from the environment. *)
Lemma configured_from_env (env : str -> option str) :
  let cfg := load_config env in
  is_set (FTP_HOST cfg) && is_set (FTP_USER cfg) && is_set (FTP_PASS cfg)
  && is_set (Some (FTP_PUBLIC_URL cfg))
  = is_set (env (str_of "FTP_HOST")) && is_set (env (str_of "FTP_USER"))
    && is_set (env (str_of "FTP_PASS"))
    && is_set (env (str_of "FTP_PUBLIC_URL")).
Proof.
  simpl. unfold getenv_default.
  destruct (env (str_of "FTP_PUBLIC_URL")) as [[|c u]|]; reflexivity.
Qed.

(** Past the test of line 193, the upload raises for a missing file or a
    failed transfer only. *)
Lemma upload_raises (cfg : Config) (h : Host) (local : str) :
  is_set (FTP_HOST cfg) && is_set (FTP_USER cfg) && is_set (FTP_PASS cfg)
  && is_set (Some (FTP_PUBLIC_URL cfg)) = true ->
  raises_only (fun e => e = FileNotFound local \/ e = FtpUploadFailed)
    (upload_to_ftp cfg h local).
Proof.
  intros Hset. unfold upload_to_ftp. rewrite Hset. simpl.
  destruct (local_path h local) as [entry|];
    [| apply raises_only_raise; left; reflexivity].
  apply raises_only_bind; [apply raises_only_emit | intros _].
  apply raises_only_bind;
    [destruct (ftp_connect_ok h);
       [apply raises_only_ret | apply raises_only_raise; right; reflexivity]
    | intros _].
  apply raises_only_bind; [apply raises_only_emit | intros _].
  apply raises_only_bind;
    [destruct (ftp_login_ok h);
       [apply raises_only_ret | apply raises_only_raise; right; reflexivity]
    | intros _].
  apply raises_only_bind.
  { destruct (rstrip_by (char_eqb slash) (FTP_REMOTE_PATH cfg));
      [apply raises_only_ret |].
    apply raises_only_bind;
      [apply raises_only_cwd; right; reflexivity | intros entered].
    destruct entered;
      [apply raises_only_ret
      | apply raises_only_make_dirs; right; reflexivity]. }
  intros _. apply raises_only_bind.
  { destruct entry;
      [apply raises_only_stor | apply raises_only_raise]; right; reflexivity. }
  intros _. apply raises_only_bind;
    [apply raises_only_send; right; reflexivity | intros _].
  apply raises_only_ret.
Qed.

(** C8 as stated fails: with the host, the credentials and the public URL
    set and [FTP_REMOTE_PATH] absent, the upload does not fail for its
    configuration; it connects, stores the file where the login lands and
    returns the public URL. *)
Lemma remote_path_counterexample :
  let h := test_host env_without_remote_path in
  let r := upload_to_ftp (load_config env_without_remote_path) h
             (str_of "photo.jpg") empty_world in
  env_without_remote_path (str_of "FTP_REMOTE_PATH") = None
  /\ fst r = Ok (str_of "https://cdn.example.com/img/0123456789ab.jpg")
  /\ fst r <> Raise FtpNotConfigured
  /\ network (snd r)
     = [FtpConnect (str_of "ftp.example.com") (str_of "21");
        FtpLogin (str_of "user");
        FtpStor (str_of "0123456789ab.jpg");
        FtpQuit].
Proof. repeat split. discriminate. Qed.

(** C8, amended: the upload needs the host, the user, the password and the
    public base URL; when one of these four is absent or empty it fails with
    the configuration error before any network attempt, the world left as it
    was.  The remote base path is not required: absent, it is "/", and with
    the four settings present the upload never fails for its
    configuration. *)
Theorem upload_configuration (env : str -> option str) (h : Host)
    (local : str) (w : World) :
  let cfg := load_config env in
  let configured :=
    is_set (env (str_of "FTP_HOST")) && is_set (env (str_of "FTP_USER"))
    && is_set (env (str_of "FTP_PASS"))
    && is_set (env (str_of "FTP_PUBLIC_URL")) in
  (configured = false ->
   upload_to_ftp cfg h local w = (Raise FtpNotConfigured, w))
  /\ (configured = true ->
      fst (upload_to_ftp cfg h local w) <> Raise FtpNotConfigured)
  /\ (env (str_of "FTP_REMOTE_PATH") = None ->
      FTP_REMOTE_PATH cfg = str_of "/").
Proof.
  intros cfg configured.
  pose proof (configured_from_env env) as C. cbv zeta in C. fold cfg in C.
  fold configured in C. repeat split.
  - intros H. unfold upload_to_ftp. rewrite C, H. reflexivity.
  - intros H Hr. rewrite <- C in H.
    destruct (upload_to_ftp cfg h local w) as [r w'] eqn:E. simpl in Hr.
    subst r. apply (upload_raises cfg h local H) in E.
    destruct E as [E | E]; discriminate E.
  - intros H. unfold cfg, load_config, getenv_default; simpl.
    rewrite H. reflexivity.
Qed.

Lemma upload_configuration_witness :
  upload_to_ftp (load_config env_without_host)
    (test_host env_without_host) (str_of "photo.jpg") empty_world
  = (Raise FtpNotConfigured, empty_world)
  /\ fst (upload_to_ftp (load_config env_without_remote_path)
            (test_host env_without_remote_path) (str_of "photo.jpg")
            empty_world)
     <> Raise FtpNotConfigured
  /\ FTP_REMOTE_PATH (load_config env_without_remote_path) = str_of "/".
Proof.
  destruct (upload_configuration env_without_host
              (test_host env_without_host) (str_of "photo.jpg") empty_world)
    as [H1 _].
  destruct (upload_configuration env_without_remote_path
              (test_host env_without_remote_path) (str_of "photo.jpg")
              empty_world) as [_ [H2 H3]].
  split; [apply H1; reflexivity |].
  split; [apply H2; reflexivity | apply H3; reflexivity].
Defined.

(** ** Polling *)

Section Polling.

Variable fetch : nat -> result response.
Variable job_id : value.
Variables max_wait poll_interval : Z.
Hypothesis interval_positive : 0 < poll_interval.
Hypothesis answered : answers_status fetch.

(** One turn of the loop, for an answered request. *)
Lemma poll_loop_turn (fuel : nat) (elapsed : Z) (k : nat) (w : World)
    (r : response) (d : dict) :
  fetch k = Ok r -> status_code r = 200 -> json r = Some (VDict d) ->
  elapsed < max_wait ->
  poll_loop (S fuel) fetch job_id max_wait poll_interval elapsed k w
  = let w1 := snd (emit (HttpGetJob job_id) w) in
    let status := dict_get_default (str_of "status") VNone d in
    if value_is_str status (str_of "completed") then (Ok (VDict d), w1)
    else if value_is_str status (str_of "failed")
    then (Raise (JobFailed (VDict d)), w1)
    else if value_is_str status (str_of "cancelled")
    then (Raise JobCancelled, w1)
    else poll_loop fuel fetch job_id max_wait poll_interval
           (elapsed + poll_interval) (S k) (snd (sleep poll_interval w1)).
Proof.
  intros Hf Hc Hj Hlt. apply Z.ltb_lt in Hlt.
  cbn [poll_loop]. rewrite Hlt.
  unfold bind at 1. cbn [emit snd]. 
  unfold bind at 1. unfold lift at 1. rewrite Hf, Hc. 
  change (negb (200 =? 200)) with false. cbv iota.
  unfold bind at 1. unfold lift at 1. unfold response_dict. rewrite Hj.
  cbv zeta.
  destruct (value_is_str (dict_get_default (str_of "status") VNone d)
              (str_of "completed")); [reflexivity |].
  destruct (value_is_str (dict_get_default (str_of "status") VNone d)
              (str_of "failed")); [reflexivity |].
  destruct (value_is_str (dict_get_default (str_of "status") VNone d)
              (str_of "cancelled")); [reflexivity |].
  reflexivity.
Qed.

Lemma status_at_answered (k : nat) (r : response) (d : dict) :
  fetch k = Ok r -> json r = Some (VDict d) ->
  status_at fetch k = dict_get_default (str_of "status") VNone d.
Proof. intros Hf Hj. unfold status_at. rewrite Hf, Hj. reflexivity. Qed.

(** The loop from any point on: it ends, the time it sleeps stays below the
    budget, and it times out exactly when no request it can still make is
    answered with a terminal status. *)
Lemma poll_loop_spec (fuel : nat) :
  forall (elapsed : Z) (k : nat) (w : World) (out : result value) (w' : World),
    Z.max 0 (max_wait - elapsed) < Z.of_nat fuel ->
    poll_loop fuel fetch job_id max_wait poll_interval elapsed k w
    = (out, w') ->
    out <> OutOfFuel
    /\ (slept w' = slept w
        \/ (slept w < slept w'
            /\ elapsed + (slept w' - slept w) < max_wait + poll_interval))
    /\ (out = Raise (JobTimedOut max_wait) <->
        forall j, elapsed + Z.of_nat j * poll_interval < max_wait ->
                  is_terminal (status_at fetch (k + j)) = false).
Proof.
  induction fuel as [|fuel IH]; intros elapsed k w out w' Hfuel Hrun;
    [simpl in Hfuel; lia |].
  destruct (Z.ltb_spec elapsed max_wait) as [Hlt | Hge].
  - destruct (answered k) as [r [d [Hf [Hc Hj]]]].
    rewrite (poll_loop_turn fuel elapsed k w r d Hf Hc Hj Hlt) in Hrun. cbv zeta in Hrun.
    pose proof (status_at_answered k r d Hf Hj) as Hs.
    set (status := dict_get_default (str_of "status") VNone d) in *.
    assert (Stop : forall o : result value,
               o <> OutOfFuel -> o <> Raise (JobTimedOut max_wait) ->
               is_terminal status = true ->
               (o, snd (emit (HttpGetJob job_id) w)) = (out, w') ->
               out <> OutOfFuel
               /\ (slept w' = slept w
                   \/ (slept w < slept w'
                       /\ elapsed + (slept w' - slept w)
                          < max_wait + poll_interval))
               /\ (out = Raise (JobTimedOut max_wait) <->
                   forall j,
                     elapsed + Z.of_nat j * poll_interval < max_wait ->
                     is_terminal (status_at fetch (k + j)) = false)).
    { intros o Ho1 Ho2 Ht Heq. injection Heq as <- <-.
      split; [exact Ho1 |]. split; [left; reflexivity |].
      split; [intros H; contradiction |].
      intros H. specialize (H 0%nat). rewrite Nat.add_0_r, Hs, Ht in H.
      discriminate H. simpl. lia. }
    unfold is_terminal in Stop.
    destruct (value_is_str status (str_of "completed")) eqn:E1.
    { apply (Stop _) in Hrun; [exact Hrun | discriminate | discriminate |
                               reflexivity]. }
    destruct (value_is_str status (str_of "failed")) eqn:E2.
    { apply (Stop _) in Hrun; [exact Hrun | discriminate | discriminate |
                               reflexivity]. }
    destruct (value_is_str status (str_of "cancelled")) eqn:E3.
    { apply (Stop _) in Hrun; [exact Hrun | discriminate | discriminate |
                               reflexivity]. }
    clear Stop.
    assert (Hnt : is_terminal (status_at fetch k) = false).
    { rewrite Hs. unfold is_terminal. rewrite E1, E2, E3. reflexivity. }
    apply IH in Hrun; [| lia].
    destruct Hrun as [Hout [Hslept Hiff]].
    cbn [sleep snd slept emit] in Hslept.
    split; [exact Hout |]. split; [right; lia |].
    rewrite Hiff. split.
    + intros H [|j] Hj'.
      * rewrite Nat.add_0_r. exact Hnt.
      * rewrite Nat.add_succ_r. apply (H j). lia.
    + intros H j Hj'. specialize (H (S j)).
      rewrite Nat.add_succ_r in H. apply H. lia.
  - destruct fuel as [|fuel']; cbn [poll_loop] in Hrun;
      (destruct (Z.ltb_spec elapsed max_wait); [lia |]);
      injection Hrun as <- <-;
      (split; [discriminate |]); (split; [left; reflexivity |]);
      (split; [intros _ j Hj; lia | reflexivity]).
Qed.

End Polling.

Lemma poll_interval_positive (kind : job_kind) : 0 < JobClient.poll_interval kind.
Proof. destruct kind; reflexivity. Qed.


Lemma third_time_lucky_answers (url : string) :
  answers_status (third_time_lucky url).
Proof.
  intros k. unfold third_time_lucky. destruct (k <? 2)%nat;
    eexists; eexists; repeat split; reflexivity.
Qed.

Lemma never_done_answers : answers_status never_done.
Proof. intros k. eexists; eexists; repeat split; reflexivity. Qed.


(** ** What [json.dumps] prints *)

Lemma one_line_app (a b : str) :
  one_line (a ++ b) = one_line a && one_line b.
Proof. apply forallb_app. Qed.

Lemma one_line_cons (c : char) (s : str) :
  one_line (c :: s) = one_line [c] && one_line s.
Proof. unfold one_line. cbn [forallb]. rewrite andb_true_r. reflexivity. Qed.

Lemma one_line_digits (d : Decimal.uint) :
  one_line (str_of (NilEmpty.string_of_uint d)) = true.
Proof. induction d; simpl; auto. Qed.

Lemma one_line_uint (d : Decimal.uint) :
  one_line (str_of (NilZero.string_of_uint d)) = true.
Proof.
  destruct d; [reflexivity | ..];
    match goal with
    | |- one_line (str_of (NilZero.string_of_uint ?u)) = true =>
        exact (one_line_digits u)
    end.
Qed.

Lemma str_of_String (c : ascii) (s : string) :
  str_of (String c s) = N_of_ascii c :: str_of s.
Proof. reflexivity. Qed.

Lemma one_line_str_of_Z (z : Z) : one_line (str_of_Z z) = true.
Proof.
  unfold str_of_Z, NilZero.string_of_int.
  destruct (Z.to_int z) as [d | d]; [apply one_line_uint |].
  rewrite str_of_String.
  change (true && one_line (str_of (NilZero.string_of_uint d)) = true).
  rewrite one_line_uint. reflexivity.
Qed.

Lemma one_line_parts (a b : str) :
  one_line (a ++ b) = true -> one_line a = true /\ one_line b = true.
Proof. rewrite one_line_app. apply andb_true_iff. Qed.

Lemma one_line_firstn (k : nat) (s : str) :
  one_line s = true -> one_line (firstn k s) = true.
Proof.
  intros H. rewrite <- (firstn_skipn k s) in H. apply one_line_parts in H.
  tauto.
Qed.

Lemma one_line_skipn (k : nat) (s : str) :
  one_line s = true -> one_line (skipn k s) = true.
Proof.
  intros H. rewrite <- (firstn_skipn k s) in H. apply one_line_parts in H.
  tauto.
Qed.

Lemma one_line_rstrip (p : char -> bool) (s : str) :
  one_line s = true -> one_line (rstrip_by p s) = true.
Proof.
  intros H. destruct (rstrip_by_decompose p s) as [post D].
  rewrite D in H. apply one_line_parts in H. tauto.
Qed.

Lemma one_line_zeros (k : nat) : one_line (repeat zero_digit k) = true.
Proof. induction k as [|k IH]; [reflexivity | exact IH]. Qed.

Lemma one_line_two_digits (s : str) :
  one_line s = true -> one_line (two_digits s) = true.
Proof.
  intros H. unfold two_digits. destruct (length s <? 2)%nat; [| exact H].
  rewrite one_line_cons, H. reflexivity.
Qed.

Lemma one_line_float_repr (m e : Z) : one_line (float_repr m e) = true.
Proof.
  unfold float_repr. destruct (m =? 0); [reflexivity |]. cbv zeta.
  set (digits := rstrip_by (char_eqb zero_digit) (str_of_Z (Z.abs m))).
  assert (D : one_line digits = true)
    by apply one_line_rstrip, one_line_str_of_Z.
  repeat match goal with
  | |- context [if ?b then _ else _] => destruct b
  end;
  rewrite ?one_line_app, ?one_line_zeros, ?one_line_firstn, ?one_line_skipn,
    ?one_line_two_digits, ?D by (exact D || apply one_line_str_of_Z);
  reflexivity.
Qed.

Lemma one_line_float (f : pyfloat) : one_line (float_text f) = true.
Proof.
  destruct f as [|[|]|m e]; try reflexivity. apply one_line_float_repr.
Qed.

Lemma one_line_hex_digit (n : N) : one_line [hex_digit n] = true.
Proof.
  unfold one_line. cbn [forallb]. rewrite andb_true_r.
  apply negb_true_iff, N.eqb_neq. unfold hex_digit, newline.
  destruct (n <? 10)%N; lia.
Qed.

Lemma one_line_u_escape (c : N) : one_line (u_escape c) = true.
Proof.
  unfold u_escape. rewrite one_line_app.
  rewrite (one_line_cons _ [_; _; _]), (one_line_cons _ [_; _]),
    (one_line_cons _ [_]), !one_line_hex_digit.
  reflexivity.
Qed.

Lemma one_line_escape_char (c : char) : one_line (escape_char c) = true.
Proof.
  unfold escape_char.
  repeat match goal with
  | |- one_line (if ?b then _ else _) = true =>
      destruct b eqn:?; [try reflexivity |]
  end.
  - unfold one_line. cbn [forallb]. rewrite andb_true_r.
    apply negb_true_iff, N.eqb_neq. unfold newline.
    match goal with
    | H : _ && _ = true |- _ =>
        apply andb_true_iff in H; destruct H as [H1 _];
        apply N.leb_le in H1; lia
    end.
  - apply one_line_u_escape.
  - cbv zeta. rewrite one_line_app, !one_line_u_escape. reflexivity.
Qed.

Lemma one_line_quote (s : str) : one_line (quote s) = true.
Proof.
  unfold quote.
  change (one_line ([quote_mark] ++ flat_map escape_char s ++ [quote_mark])
          = true).
  rewrite !one_line_app. simpl (one_line [quote_mark]).
  rewrite andb_true_r. simpl andb.
  induction s as [|c s IH]; [reflexivity |].
  simpl flat_map. rewrite one_line_app, one_line_escape_char. exact IH.
Qed.

Lemma one_line_join {A : Type} (show : A -> str) (sep : str) (items : list A) :
  one_line sep = true ->
  Forall (fun x => one_line (show x) = true) items ->
  one_line (join_with show sep items) = true.
Proof.
  intros Hsep H. induction H as [|x rest Hx _ IH]; [reflexivity |].
  simpl. rewrite one_line_app, Hx. simpl andb.
  destruct rest; [reflexivity |].
  rewrite one_line_app, Hsep. exact IH.
Qed.

(** Induction on values, through the lists and dicts they hold. *)
Lemma value_nested_ind (P : value -> Prop) :
  P VNone -> (forall b, P (VBool b)) -> (forall z, P (VInt z)) ->
  (forall f, P (VFloat f)) -> (forall s, P (VStr s)) ->
  (forall l, Forall P l -> P (VList l)) ->
  (forall d, Forall (fun kv => P (snd kv)) d -> P (VDict d)) ->
  forall v, P v.
Proof.
  intros HN HB HI HF HS HL HD. fix IH 1.
  intros [| b | z | f | s | l | d].
  - exact HN.
  - apply HB.
  - apply HI.
  - apply HF.
  - apply HS.
  - apply HL. induction l as [|x l IHl]; constructor; [apply IH | exact IHl].
  - apply HD. induction d as [|[k x] d IHd]; constructor;
      [apply IH | exact IHd].
Qed.

(** Without [indent], a dumped value is one line. *)
Lemma dumps_one_line (v : value) :
  forall level, one_line (dumps_at None level v) = true.
Proof.
  induction v as [| b | z | f | s | l IH | d IH] using value_nested_ind;
    intros level; cbn [dumps_at].
  - reflexivity.
  - destruct b; reflexivity.
  - apply one_line_str_of_Z.
  - apply one_line_float.
  - apply one_line_quote.
  - destruct l as [|x l]; [reflexivity |].
    cbn [newline_indent item_separator].
    rewrite !one_line_app. rewrite one_line_join; [reflexivity | reflexivity |].
    eapply Forall_impl; [| exact IH]. intros y Hy. apply Hy.
  - destruct d as [|kv d]; [reflexivity |].
    cbn [newline_indent item_separator].
    rewrite !one_line_app. rewrite one_line_join; [reflexivity | reflexivity |].
    eapply Forall_impl; [| exact IH]. intros [k y] Hy. cbn [snd] in Hy.
    rewrite !one_line_app, one_line_quote, Hy. reflexivity.
Qed.

(** ** Provenance *)

Lemma store_unchanged_ret {A : Type} (a : A) : store_unchanged (ret a).
Proof. intros w. split; reflexivity. Qed.

Lemma store_unchanged_raise {A : Type} (e : failure) :
  store_unchanged (@raise A e).
Proof. intros w. split; reflexivity. Qed.

Lemma store_unchanged_lift {A : Type} (r : result A) :
  store_unchanged (lift r).
Proof. intros w. split; reflexivity. Qed.

Lemma store_unchanged_out_of_fuel {A : Type} :
  store_unchanged (@out_of_fuel A).
Proof. intros w. split; reflexivity. Qed.

Lemma store_unchanged_emit (ev : event) : store_unchanged (emit ev).
Proof. intros w. split; reflexivity. Qed.

Lemma store_unchanged_sleep (seconds : Z) : store_unchanged (sleep seconds).
Proof. intros w. split; reflexivity. Qed.

Lemma store_unchanged_write_bytes (h : Host) (path : str)
    (bytes : list N) :
  store_unchanged (write_bytes h path bytes).
Proof.
  intros w. unfold write_bytes.
  destruct (image_write h path bytes) as [|[part|]]; split; reflexivity.
Qed.

Lemma store_unchanged_bind {A B : Type} (m : M A) (k : A -> M B) :
  store_unchanged m -> (forall a, store_unchanged (k a)) ->
  store_unchanged (bind m k).
Proof.
  intros Hm Hk w. unfold bind. specialize (Hm w).
  destruct (m w) as [[a|e|] w1]; simpl in Hm; [| exact Hm | exact Hm].
  destruct (Hk a w1) as [H1 H2]. destruct Hm as [H3 H4].
  split; congruence.
Qed.

Lemma store_unchanged_poll_loop (fetch : nat -> result response)
    (job_id : value) (max_wait poll_interval : Z) (fuel : nat) :
  forall elapsed k,
    store_unchanged
      (poll_loop fuel fetch job_id max_wait poll_interval elapsed k).
Proof.
  induction fuel as [|fuel IH]; intros elapsed k; cbn [poll_loop].
  - apply store_unchanged_out_of_fuel.
  - destruct (elapsed <? max_wait); [| apply store_unchanged_raise].
    apply store_unchanged_bind; [apply store_unchanged_emit | intros _].
    apply store_unchanged_bind; [apply store_unchanged_lift | intros r].
    destruct (negb (status_code r =? 200)); [apply store_unchanged_raise |].
    apply store_unchanged_bind; [apply store_unchanged_lift | intros d].
    cbv zeta.
    repeat match goal with
    | |- store_unchanged (if ?b then _ else _) =>
        destruct b;
        [first [apply store_unchanged_ret | apply store_unchanged_raise] |]
    end.
    apply store_unchanged_bind; [apply store_unchanged_sleep | intros _].
    apply IH.
Qed.

Lemma store_unchanged_submit (h : Host) (url : str) (payload : value) :
  store_unchanged (submit h url payload).
Proof.
  unfold submit.
  apply store_unchanged_bind; [apply store_unchanged_emit | intros _].
  apply store_unchanged_bind; [apply store_unchanged_lift | intros r].
  apply store_unchanged_lift.
Qed.

Lemma store_unchanged_download (h : Host) (url : value) :
  store_unchanged (download h url).
Proof.
  unfold download. destruct url; try apply store_unchanged_raise.
  apply store_unchanged_bind; [apply store_unchanged_emit | intros _].
  apply store_unchanged_bind; [apply store_unchanged_lift | intros r].
  destruct (negb (status_code r =? 200));
    [apply store_unchanged_raise | apply store_unchanged_ret].
Qed.

Lemma records_after_unchanged {A B : Type} (m : M A) (k : A -> M B) :
  store_unchanged m -> (forall a, records_one_entry (k a)) ->
  records_one_entry (bind m k).
Proof.
  intros Hm Hk w. unfold bind. specialize (Hm w).
  destruct (m w) as [[a|e|] w1]; simpl in Hm;
    [| exists []; rewrite app_nil_r; apply Hm
     | exists []; rewrite app_nil_r; apply Hm].
  destruct Hm as [H1 H2]. specialize (Hk a w1).
  destruct (k a w1) as [[b|e|] w2]; rewrite <- ?H1, <- ?H2; exact Hk.
Qed.

Lemma records_raise {A : Type} (e : failure) :
  records_one_entry (@raise A e).
Proof. intros w. exists []. simpl. rewrite app_nil_r. reflexivity. Qed.

(** The two statements that end every operation. *)
Lemma records_entry {A : Type} (h : Host) (entry : value) (a : A) :
  records_one_entry
    (log_generation h entry ;;; write_last_image h entry ;;; ret a).
Proof.
  intros w. unfold bind, log_generation, write_last_image, ret. cbv zeta.
  destruct (log_append h (dumps entry ++ [newline])) as [|[part|]].
  - destruct (last_image_write h (dumps_indent2 entry)) as [|[part|]];
      cbn [log_file last_image_file with_logged with_last_image].
    + exists entry. repeat split. apply dumps_one_line.
    + eexists. reflexivity.
    + eexists. reflexivity.
  - exists part. reflexivity.
  - exists []. rewrite app_nil_r. reflexivity.
Qed.

Ltac operation_records :=
  repeat first
    [ apply records_after_unchanged;
      [ first [ apply store_unchanged_submit
              | apply store_unchanged_poll_loop
              | apply store_unchanged_lift
              | apply store_unchanged_download
              | apply store_unchanged_write_bytes ]
      | intros ?; cbv zeta ]
    | apply records_entry ].


(** A whole generation on a host where everything works: the job completes
    at its third status request, after two sleeps of two seconds; the image
    is written under the day's folder; one line is logged. *)
Example generate_image_runs :
  let env := env_without_remote_path in
  let run := generate_image (load_config env) (test_host env)
               (str_of "A red bicycle") Nano (str_of "1:1") (str_of "1K")
               None (FDec 8 (-1)) empty_world in
  fst run
  = Ok (str_of "/skill/images/2026-01-31/12-00-00-nano-a-red-bicycle.png",
        str_of "/skill/images/2026-01-31",
        str_of "https://cdn.krea.ai/out.png")
  /\ slept (snd run) = 4
  /\ map fst (written (snd run))
     = [str_of "/skill/images/2026-01-31/12-00-00-nano-a-red-bicycle.png"]
  /\ length (filter (char_eqb newline) (log_file (snd run))) = 1%nat
  /\ length (network (snd run)) = 5%nat.
Proof. vm_compute. repeat split. Qed.

(** Without an API key nothing is requested and nothing is recorded. *)
Example generate_image_without_key :
  generate_image (load_config (env_of [])) (test_host (env_of []))
    (str_of "A red bicycle") Nano (str_of "1:1") (str_of "1K") None
    (FDec 8 (-1)) empty_world
  = (Raise ApiKeyMissing, empty_world).
Proof. reflexivity. Qed.

(** A write that fails after the image is saved: the generation raises,
    the image is on disk and its record in the log, and the last-image file
    was not written.  The log is one record ahead. *)
Example generation_raises_after_saving :
  let env := env_without_remote_path in
  let run := generate_image (load_config env) (host_without_last_image env)
               (str_of "A red bicycle") Nano (str_of "1:1") (str_of "1K")
               None (FDec 8 (-1)) empty_world in
  fst run = Raise LocalIOError
  /\ map fst (written (snd run))
     = [str_of "/skill/images/2026-01-31/12-00-00-nano-a-red-bicycle.png"]
  /\ length (filter (char_eqb newline) (log_file (snd run))) = 1%nat
  /\ last_image_file (snd run) = None.
Proof. vm_compute. repeat split. Qed.

(** A session that breaks at the first [CWD], with an error that is not a
    permanent refusal: the upload fails although everything it needs is
    there, and nothing is stored. *)
Example upload_broken_by_fault :
  let env := env_with_remote_path in
  let run := upload_to_ftp (load_config env) (host_with_fault env 2)
               (str_of "photo.jpg") empty_world in
  fst run = Raise FtpUploadFailed
  /\ network (snd run)
     = [FtpConnect (str_of "ftp.example.com") (str_of "21");
        FtpLogin (str_of "user"); FtpCwd (str_of "/img/new")]
  /\ ftp_files (snd run) = [].
Proof. vm_compute. repeat split. Qed.

(** * Further properties *)

(** ** Slugs, whatever the prompt *)

(** X1: Every slug is made of lowercase letters, digits and hyphens only,
    has no two hyphens in a row and none at either end, is not empty, and is
    at most [max_length] long when [max_length] is 5 or more. *)
Theorem slug_is_safe (text : str) (m : Z) :
  forallb slug_char (slugify text m) = true
  /\ adjacent is_hyphen (slugify text m) = false
  /\ starts_in is_hyphen (slugify text m) = false
  /\ ends_in is_hyphen (slugify text m) = false
  /\ slugify text m <> []
  /\ (5 <= m -> len (slugify text m) <= m).
Proof.
  destruct (slugify_shape text m) as [W [N L]].
  apply well_formed_iff in W. tauto.
Qed.

Lemma slug_is_safe_witness :
  5 <= 12
  /\ len (slugify (str_of "Sunset over the -- Alps, 2024!") 12) <= 12
  /\ slugify (str_of "Sunset over the -- Alps, 2024!") 12 = str_of "sunset-over".
Proof.
  split; [lia |]. split; [| reflexivity].
  apply (slug_is_safe (str_of "Sunset over the -- Alps, 2024!") 12). lia.
Defined.

Lemma before_last_found (sep : char) (s : str) :
  In sep s -> exists h, before_last sep s = Some h.
Proof.
  intros H. destruct (before_last sep s) as [h|] eqn:E; [eauto |].
  apply before_last_none in E. rewrite forallb_forall in E.
  specialize (E sep H). rewrite char_eqb_refl in E. discriminate E.
Qed.

(** X2: When the cleaned slug is too long and its first [max_length]
    characters hold a hyphen, the slug is the cleaned slug cut just before
    one of its hyphens: no word is split. *)
Theorem slug_cut_before_hyphen (text : str) (m : Z) :
  len (slug_clean text) > m ->
  In hyphen (slice_to (slug_clean text) m) ->
  cut_at_word_boundary (slug_clean text) (slugify text m) = true
  /\ slugify text m
     = rsplit1_head hyphen (slice_to (slug_clean text) m).
Proof.
  intros Hlen Hin.
  destruct (before_last_found _ _ Hin) as [h E].
  pose proof (truncate_at_hyphen _ _ _ E) as B.
  assert (T : truncate (slug_clean text) m = h).
  { unfold truncate, rsplit1_head.
    destruct (Z.gtb_spec (len (slug_clean text)) m); [| lia].
    rewrite E. reflexivity. }
  assert (N : h <> []).
  { intros ->. destruct (before_last_some _ _ _ E) as [r D]. simpl in D.
    pose proof (slug_clean_well_formed text) as W.
    apply well_formed_iff in W. destruct W as [_ [_ [S _]]].
    assert (P : exists rest, slug_clean text
                             = slice_to (slug_clean text) m ++ rest).
    { unfold slice_to. destruct (0 <=? m);
        eexists; symmetry; apply firstn_skipn. }
    destruct P as [rest P]. rewrite D in P. rewrite P in S.
    discriminate S. }
  unfold slugify. rewrite T.
  unfold rsplit1_head. rewrite E.
  destruct h; [contradiction | split; [exact B | reflexivity]].
Qed.

Lemma slug_cut_before_hyphen_witness :
  len (slug_clean (str_of "a red bicycle")) > 8
  /\ In hyphen (slice_to (slug_clean (str_of "a red bicycle")) 8)
  /\ slugify (str_of "a red bicycle") 8 = str_of "a-red"
  /\ cut_at_word_boundary (slug_clean (str_of "a red bicycle"))
       (slugify (str_of "a red bicycle") 8) = true.
Proof.
  assert (H1 : len (slug_clean (str_of "a red bicycle")) > 8)
    by (vm_compute; reflexivity).
  assert (H2 : In hyphen (slice_to (slug_clean (str_of "a red bicycle")) 8))
    by (vm_compute; right; left; reflexivity).
  destruct (slug_cut_before_hyphen (str_of "a red bicycle") 8 H1 H2)
    as [B E].
  split; [exact H1 |]. split; [exact H2 |]. split; [| exact B].
  rewrite E. reflexivity.
Defined.

(** X3: The strings [slugify] returns unchanged are exactly the well-formed
    slugs that are not empty and fit the bound. *)
Theorem slug_fixed_points (s : str) (m : Z) :
  5 <= m ->
  (slugify s m = s <-> well_formed s = true /\ s <> [] /\ len s <= m).
Proof.
  intros Hm. split.
  - intros E. destruct (slugify_shape s m) as [W [N L]].
    rewrite E in W, N, L. auto.
  - intros [W [N L]]. unfold slugify.
    rewrite slug_clean_id by exact W.
    rewrite truncate_short by exact L.
    destruct s; [contradiction | reflexivity].
Qed.

Lemma slug_fixed_points_witness :
  5 <= 50
  /\ slugify (str_of "a-red-bicycle") 50 = str_of "a-red-bicycle"
  /\ well_formed (str_of "A-red") = false
  /\ slugify (str_of "A-red") 50 <> str_of "A-red".
Proof.
  assert (H : 5 <= 50) by lia.
  split; [exact H |]. split.
  - apply (slug_fixed_points (str_of "a-red-bicycle") 50 H).
    repeat split; [discriminate | vm_compute; discriminate].
  - split; [reflexivity |]. intros E.
    apply (slug_fixed_points (str_of "A-red") 50 H) in E.
    destruct E as [W _]. discriminate W.
Defined.

Lemma lstrip_by_all (p : char -> bool) (s : str) :
  forallb p s = true -> lstrip_by p s = [].
Proof.
  induction s as [|c s IH]; simpl; [reflexivity |].
  intros H. apply andb_true_iff in H. destruct H as [-> H]. auto.
Qed.

Lemma strip_by_all (p : char -> bool) (s : str) :
  forallb p s = true -> strip_by p s = [].
Proof.
  intros H. unfold strip_by. rewrite lstrip_by_all by exact H. reflexivity.
Qed.

Lemma forallb_strip_by (q p : char -> bool) (s : str) :
  forallb q s = true -> forallb q (strip_by p s) = true.
Proof.
  intros H. destruct (strip_by_decompose p s) as [pre [post D]].
  rewrite D, !forallb_app, !andb_true_iff in H. tauto.
Qed.

(** X4: A prompt with no letter and no digit once lowercased (punctuation,
    spaces, underscores, other scripts) gets the slug "image", whatever the
    bound. *)
Theorem slug_fallback (text : str) (m : Z) :
  forallb (fun c => negb (is_lower_az c || is_digit c)) (lower text) = true ->
  slugify text m = str_of "image".
Proof.
  intros H.
  assert (C : slug_clean text = []).
  { unfold slug_clean, re_sub_runs. apply strip_by_all.
    set (s2 := re_delete not_kept (strip (lower text))).
    assert (H3 : forallb is_hyphen
                   (re_sub_runs_from space_or_underscore [hyphen] false s2)
                 = true).
    { apply (re_sub_runs_from_forallb space_or_underscore is_hyphen [hyphen]
               eq_refl).
      intros c Hc Hcls. unfold s2, re_delete in Hc.
      apply filter_In in Hc. destruct Hc as [Hin Hk]. unfold strip in Hin.
      pose proof (forallb_strip_by _ is_space _ H) as H1.
      rewrite forallb_forall in H1. specialize (H1 c Hin).
      destruct (is_hyphen c) eqn:E; [reflexivity | exfalso; char_arith]. }
    apply (re_sub_runs_from_forallb is_hyphen is_hyphen [hyphen] eq_refl).
    intros c Hc _. rewrite forallb_forall in H3. exact (H3 c Hc). }
  unfold slugify, truncate. rewrite C.
  destruct (len [] >? m); [| reflexivity].
  unfold slice_to. destruct (0 <=? m); rewrite firstn_nil; reflexivity.
Qed.

Lemma slug_fallback_witness :
  forallb (fun c => negb (is_lower_az c || is_digit c))
    (lower (str_of " ?!_ -- (...) ")) = true
  /\ slugify (str_of " ?!_ -- (...) ") 50 = str_of "image".
Proof.
  assert (H : forallb (fun c => negb (is_lower_az c || is_digit c))
                (lower (str_of " ?!_ -- (...) ")) = true) by reflexivity.
  split; [exact H | apply (slug_fallback _ 50 H)].
Defined.

(** ** Presets and the dispatch of an upscale *)

(** X5: With [--preset] and without [--interactive], the call depends on the
    preset, the engine option and the scale only: the options for the topaz
    and bloom parameters and [--upscale-prompt] are not looked at; the
    bundle is the preset's, and a bloom call gets no prompt. *)
Theorem preset_ignores_options (c c' : Cli) (name : preset_name) :
  cli_interactive c = false -> cli_interactive c' = false ->
  cli_preset c = Some name -> cli_preset c' = Some name ->
  cli_scale c = cli_scale c' -> cli_engine c = cli_engine c' ->
  upscale_dispatch (parse_args c) = upscale_dispatch (parse_args c')
  /\ (forall s b prompt,
        upscale_dispatch (parse_args c) = CallBloom s b prompt ->
        prompt = [] /\ b = preset_bloom (UPSCALE_PRESETS name))
  /\ (forall s t,
        upscale_dispatch (parse_args c) = CallTopaz s t ->
        t = preset_topaz (UPSCALE_PRESETS name))
  /\ upscale_dispatch (parse_args c) <> CallInteractive.
Proof.
  intros Hi Hi' Hp Hp' Hs He.
  unfold upscale_dispatch, selected_engine, parse_args; simpl.
  rewrite Hi, Hi', Hp, Hp', <- Hs, <- He.
  split; [reflexivity |].
  destruct (negb (engine_eqb (with_default (cli_engine c) Topaz) Topaz));
    [destruct (with_default (cli_engine c) Topaz) |
     destruct (preset_engine (UPSCALE_PRESETS name))]; simpl;
    (split; [intros s b prompt H; try discriminate H;
             injection H as _ <- <-; auto |]);
    (split; [intros s t H; try discriminate H; injection H as _ <-; auto |]);
    discriminate.
Qed.

Lemma preset_ignores_options_witness :
  let c := upscale_cli (Some Portrait) None in
  let c' :=
    {| cli_interactive := false; cli_scale := None; cli_engine := None;
       cli_preset := Some Portrait;
       cli_upscale_model := Some (str_of "CGI");
       cli_sharpen := Some (tenths 9); cli_denoise := Some (tenths 9);
       cli_fix_compression := Some (tenths 9);
       cli_face_enhancement := false; cli_creativity := Some 9;
       cli_face_preservation := true; cli_color_preservation := true;
       cli_upscale_prompt := Some (str_of "more detail") |} in
  upscale_dispatch (parse_args c) = upscale_dispatch (parse_args c')
  /\ upscale_dispatch (parse_args c')
     = CallTopaz 2 (preset_topaz (UPSCALE_PRESETS Portrait)).
Proof.
  intros c c'.
  destruct (preset_ignores_options c c' Portrait eq_refl eq_refl eq_refl
              eq_refl eq_refl eq_refl) as [E _].
  split; [exact E | reflexivity].
Defined.

(** X6: Every preset stays within what the options accept: its topaz model
    is one of the five of [--upscale-model], its sharpen, denoise and
    fix-compression values lie between 0.0 and 1.0, its bloom creativity
    between 1 and 9. *)
Theorem presets_within_ranges (name : preset_name) :
  let p := UPSCALE_PRESETS name in
  existsb (str_eqb (t_model (preset_topaz p))) topaz_models = true
  /\ in_unit_range (t_sharpen (preset_topaz p)) = true
  /\ in_unit_range (t_denoise (preset_topaz p)) = true
  /\ in_unit_range (t_fix_compression (preset_topaz p)) = true
  /\ 1 <= b_creativity (preset_bloom p) <= 9.
Proof. destruct name; vm_compute; repeat split; discriminate. Qed.

(** X7: The engine question is asked until a line answers it: lines that are
    neither empty, "1" nor "2" (spaces around aside) are passed over, the
    first line that answers decides and the lines after it are left; when no
    line answers, the input runs out. *)
Theorem engine_question_asked_again (p : preset)
    (bad : list str) (good : str) (rest : list str) (e : engine) :
  Forall (fun line => engine_answer p line = None) bad ->
  interactive_engine p bad = None
  /\ (engine_answer p good = Some e ->
      interactive_engine p (bad ++ good :: rest) = Some (e, rest)).
Proof.
  intros Hbad.
  assert (Step : forall line tail,
             interactive_engine p (line :: tail)
             = match engine_answer p line with
               | Some x => Some (x, tail)
               | None => interactive_engine p tail
               end).
  { intros line tail. unfold engine_answer. simpl.
    destruct (str_eqb (strip line) []); [reflexivity |].
    destruct (str_eqb (strip line) (str_of "1")); [reflexivity |].
    destruct (str_eqb (strip line) (str_of "2")); reflexivity. }
  induction Hbad as [|line bad Hline _ IH].
  - split; [reflexivity |]. intros H. simpl app. rewrite Step, H. reflexivity.
  - destruct IH as [IH1 IH2]. split.
    + rewrite Step, Hline. exact IH1.
    + intros H. simpl app. rewrite Step, Hline. exact (IH2 H).
Qed.

Lemma engine_question_asked_again_witness :
  Forall (fun line => engine_answer (UPSCALE_PRESETS Photo) line = None)
    [str_of "3"; str_of "topaz"]
  /\ engine_answer (UPSCALE_PRESETS Photo) (str_of " 2 ") = Some Bloom
  /\ interactive_engine (UPSCALE_PRESETS Photo)
       ([str_of "3"; str_of "topaz"] ++ str_of " 2 " :: [str_of "y"])
     = Some (Bloom, [str_of "y"])
  /\ interactive_engine (UPSCALE_PRESETS Photo) [str_of "3"; str_of "topaz"]
     = None.
Proof.
  assert (B : Forall (fun line =>
                        engine_answer (UPSCALE_PRESETS Photo) line = None)
                [str_of "3"; str_of "topaz"])
    by (repeat constructor).
  destruct (engine_question_asked_again (UPSCALE_PRESETS Photo)
              [str_of "3"; str_of "topaz"] (str_of " 2 ") [str_of "y"]
              Bloom B) as [N G].
  split; [exact B |]. split; [reflexivity |].
  split; [apply G; reflexivity | exact N].
Defined.

(** ** Polling, answer by answer *)

Lemma after_polling_none (job_id : value) (w : World) :
  after_polling job_id 0 0 w = w.
Proof.
  destruct w. unfold after_polling. simpl.
  rewrite Z.add_0_r, app_nil_r. reflexivity.
Qed.

Lemma after_polling_more (job_id : value) (a b : nat) (s t : Z) (w : World) :
  after_polling job_id a s (after_polling job_id b t w)
  = after_polling job_id (b + a) (t + s) w.
Proof.
  unfold after_polling. simpl.
  rewrite repeat_app, app_assoc, Z.add_assoc. reflexivity.
Qed.

Lemma after_polling_request (job_id : value) (k : nat) (s : Z) (w : World) :
  snd (emit (HttpGetJob job_id) (after_polling job_id k s w))
  = after_polling job_id (S k) s w.
Proof.
  unfold after_polling. simpl.
  rewrite <- app_assoc, <- repeat_cons. reflexivity.
Qed.

Lemma keeps_waiting_inv (a : result response) :
  keeps_waiting a = true ->
  exists r d,
    a = Ok r /\ status_code r = 200 /\ json r = Some (VDict d)
    /\ is_terminal (dict_get_default (str_of "status") VNone d) = false.
Proof.
  unfold keeps_waiting. destruct a as [r| |]; try discriminate.
  intros H. apply andb_true_iff in H. destruct H as [Hc Hj].
  apply Z.eqb_eq in Hc.
  destruct (json r) as [[| | | | | |d]|] eqn:E; try discriminate.
  apply negb_true_iff in Hj. exists r, d. repeat split; auto.
Qed.

Section PollingSteps.

Variable fetch : nat -> result response.
Variable job_id : value.
Variables max_wait poll_interval : Z.

(** A waiting answer: one request, one sleep, and the loop goes on. *)
Lemma poll_loop_wait_once (fuel : nat) (elapsed : Z) (j : nat) (w : World) :
  keeps_waiting (fetch j) = true -> elapsed < max_wait ->
  poll_loop (S fuel) fetch job_id max_wait poll_interval elapsed j w
  = poll_loop fuel fetch job_id max_wait poll_interval
      (elapsed + poll_interval) (S j)
      (after_polling job_id 1 poll_interval w).
Proof.
  intros Hw Hlt.
  destruct (keeps_waiting_inv _ Hw) as [r [d [Hf [Hc [Hj Ht]]]]].
  rewrite (poll_loop_turn fetch job_id max_wait poll_interval fuel elapsed j
             w r d Hf Hc Hj Hlt).
  cbv zeta. unfold is_terminal in Ht.
  apply orb_false_iff in Ht. destruct Ht as [Ht H3].
  apply orb_false_iff in Ht. destruct Ht as [H1 H2].
  rewrite H1, H2, H3. reflexivity.
Qed.

(** [k] waiting answers in a row. *)
Lemma poll_loop_waits (k : nat) :
  forall (fuel : nat) (elapsed : Z) (j : nat) (w : World),
    (forall i, (i < k)%nat ->
               keeps_waiting (fetch (j + i)) = true
               /\ elapsed + Z.of_nat i * poll_interval < max_wait) ->
    poll_loop (k + fuel) fetch job_id max_wait poll_interval elapsed j w
    = poll_loop fuel fetch job_id max_wait poll_interval
        (elapsed + Z.of_nat k * poll_interval) (j + k)
        (after_polling job_id k (Z.of_nat k * poll_interval) w).
Proof.
  induction k as [|k IH]; intros fuel elapsed j w H.
  - simpl. rewrite Z.add_0_r, Nat.add_0_r, after_polling_none. reflexivity.
  - destruct (H 0%nat) as [Hw Hlt]; [lia |].
    rewrite Nat.add_0_r in Hw. simpl Z.of_nat in Hlt.
    change (S k + fuel)%nat with (S (k + fuel)).
    rewrite poll_loop_wait_once by (exact Hw || lia).
    rewrite IH.
    + rewrite after_polling_more. f_equal; try lia. f_equal; lia.
    + intros i Hi. destruct (H (S i)) as [Hw' Hlt']; [lia |].
      rewrite Nat.add_succ_r in Hw'. split; [exact Hw' | lia].
Qed.

(** The answers that end the loop with an error of their own. *)
Lemma poll_loop_fatal (fuel : nat) (elapsed : Z) (j : nat) (w : World) :
  elapsed < max_wait ->
  (forall e, fetch j = Raise e ->
     poll_loop (S fuel) fetch job_id max_wait poll_interval elapsed j w
     = (Raise e, snd (emit (HttpGetJob job_id) w)))
  /\ (forall r, fetch j = Ok r -> status_code r <> 200 ->
        poll_loop (S fuel) fetch job_id max_wait poll_interval elapsed j w
        = (Raise (JobStatusFailed (text r)),
           snd (emit (HttpGetJob job_id) w)))
  /\ (forall r, fetch j = Ok r -> status_code r = 200 ->
        (forall d, json r <> Some (VDict d)) ->
        poll_loop (S fuel) fetch job_id max_wait poll_interval elapsed j w
        = (Raise LibraryError, snd (emit (HttpGetJob job_id) w))).
Proof.
  intros Hlt. apply Z.ltb_lt in Hlt.
  repeat split; intros; cbn [poll_loop]; rewrite Hlt;
    unfold bind at 1; cbn [emit snd];
    unfold bind at 1; unfold lift at 1;
    match goal with H : fetch j = _ |- _ => rewrite H end; cbv iota beta.
  - reflexivity.
  - match goal with H : status_code _ <> 200 |- _ =>
      apply Z.eqb_neq in H; rewrite H end.
    reflexivity.
  - match goal with H : status_code _ = 200 |- _ => rewrite H end.
    change (negb (200 =? 200)) with false. cbv iota.
    unfold bind at 1. unfold lift at 1. unfold response_dict.
    destruct (json r) as [[| | | | | |d]|]; try reflexivity.
    exfalso. match goal with H : forall d, _ <> _ |- _ => apply (H d) end.
    reflexivity.
Qed.

End PollingSteps.

Lemma await_after_waiting (kind : job_kind) (fetch : nat -> result response)
    (job_id : value) (w : World) (k : nat) :
  (forall i, (i < k)%nat -> keeps_waiting (fetch i) = true) ->
  Z.of_nat k * JobClient.poll_interval kind < JobClient.max_wait kind ->
  exists fuel,
    await_completion kind fetch job_id w
    = poll_loop (S fuel) fetch job_id (JobClient.max_wait kind)
        (JobClient.poll_interval kind)
        (Z.of_nat k * JobClient.poll_interval kind) k
        (after_polling job_id k (Z.of_nat k * JobClient.poll_interval kind) w).
Proof.
  intros Hw Hk. pose proof (poll_interval_positive kind) as Hp.
  exists (Z.to_nat (JobClient.max_wait kind) - k)%nat.
  unfold await_completion.
  replace (S (Z.to_nat (JobClient.max_wait kind)))
    with (k + S (Z.to_nat (JobClient.max_wait kind) - k))%nat by nia.
  rewrite poll_loop_waits.
  - rewrite Z.add_0_l, Nat.add_0_l. reflexivity.
  - intros i Hi. rewrite Nat.add_0_l. split; [apply Hw; exact Hi | nia].
Qed.

Lemma status_is_one (status : value) (a b : string) :
  value_is_str status (str_of a) = true -> str_eqb (str_of a) (str_of b) = false ->
  value_is_str status (str_of b) = false.
Proof.
  destruct status as [| | | |s| |]; try discriminate. simpl.
  intros H. apply str_eqb_eq in H. subst s. auto.
Qed.







(** ** What an operation writes and records *)

Lemma written_unchanged_bind {A B : Type} (m : M A) (k : A -> M B) :
  written_unchanged m -> (forall a, written_unchanged (k a)) ->
  written_unchanged (bind m k).
Proof.
  intros Hm Hk w. unfold bind. specialize (Hm w).
  destruct (m w) as [[a|e|] w1]; simpl in Hm; [| exact Hm | exact Hm].
  rewrite Hk. exact Hm.
Qed.

Lemma written_unchanged_pure {A : Type} (r : result A) :
  written_unchanged (lift r).
Proof. intros w. reflexivity. Qed.

Lemma written_unchanged_emit (ev : event) : written_unchanged (emit ev).
Proof. intros w. reflexivity. Qed.

Lemma written_unchanged_poll_loop (fetch : nat -> result response)
    (job_id : value) (max_wait poll_interval : Z) (fuel : nat) :
  forall elapsed k,
    written_unchanged
      (poll_loop fuel fetch job_id max_wait poll_interval elapsed k).
Proof.
  induction fuel as [|fuel IH]; intros elapsed k; cbn [poll_loop].
  - intros w. reflexivity.
  - destruct (elapsed <? max_wait); [| intros w; reflexivity].
    apply written_unchanged_bind; [apply written_unchanged_emit | intros _].
    apply written_unchanged_bind; [apply written_unchanged_pure | intros r].
    destruct (negb (status_code r =? 200)); [intros w; reflexivity |].
    apply written_unchanged_bind; [apply written_unchanged_pure | intros d].
    cbv zeta.
    repeat match goal with
    | |- written_unchanged (if ?b then _ else _) =>
        destruct b; [intros w; reflexivity |]
    end.
    apply written_unchanged_bind; [intros w; reflexivity | intros _].
    apply IH.
Qed.

Lemma written_unchanged_submit (h : Host) (url : str) (payload : value) :
  written_unchanged (submit h url payload).
Proof.
  unfold submit.
  apply written_unchanged_bind; [apply written_unchanged_emit | intros _].
  apply written_unchanged_bind; [apply written_unchanged_pure | intros r].
  apply written_unchanged_pure.
Qed.

Lemma download_inv (h : Host) (first : value) (w : World) :
  match download h first w with
  | (Ok (u, r), w') =>
      first = VStr u /\ http_get h u = Ok r /\ status_code r = 200
      /\ written w' = written w /\ network w' = network w ++ [HttpGet u]
  | (_, w') =>
      written w' = written w
      /\ (network w' = network w
          \/ exists u, network w' = network w ++ [HttpGet u])
  end.
Proof.
  unfold download. destruct first as [| | | |u| |];
    try (split; [reflexivity | left; reflexivity]).
  unfold bind at 1. cbn [emit]. unfold bind at 1, lift at 1.
  destruct (http_get h u) as [r|e|] eqn:Hget;
    try (split; [reflexivity | right; exists u; reflexivity]).
  destruct (Z.eqb_spec (status_code r) 200) as [Hc | Hc]; simpl negb; cbv iota.
  - repeat split; auto.
  - split; [reflexivity | right; exists u; reflexivity].
Qed.

Lemma saves_after_unchanged {A : Type} (h : Host) (m : M A)
    (k : A -> M (str * str * str)) :
  written_unchanged m -> (forall a, saves_download h (k a)) ->
  saves_download h (bind m k).
Proof.
  intros Hm Hk w. unfold bind. specialize (Hm w).
  destruct (m w) as [[a|e|] w1]; simpl in Hm;
    [| left; exact Hm | left; exact Hm].
  specialize (Hk a w1).
  destruct (k a w1) as [[[[path folder] url]|e|] w2];
    rewrite <- Hm; exact Hk.
Qed.

Lemma saves_after_download (h : Host) (first : value)
    (k : str * response -> M (str * str * str)) :
  (forall u r, http_get h u = Ok r -> status_code r = 200 ->
               saves_download h (k (u, r))) ->
  saves_download h (bind (download h first) k).
Proof.
  intros Hk w. unfold bind. pose proof (download_inv h first w) as D.
  destruct (download h first w) as [[[u r]|e|] w1];
    [| left; tauto | left; tauto].
  destruct D as [_ [Hget [Hc [Hw _]]]].
  specialize (Hk u r Hget Hc w1).
  destruct (k (u, r) w1) as [[[[path folder] url]|e'|] w2];
    rewrite <- Hw; exact Hk.
Qed.

Lemma saves_raise (h : Host) (e : failure) : saves_download h (raise e).
Proof. intros w. left. reflexivity. Qed.

(** The statements from [write_bytes] on. *)
Lemma saves_written (h : Host) (path folder url : str) (r : response)
    (entry : value) :
  http_get h url = Ok r -> status_code r = 200 ->
  saves_download h
    (write_bytes h path (content r) ;;;
     log_generation h entry ;;; write_last_image h entry ;;;
     ret (path, folder, url)).
Proof.
  intros Hget Hc w.
  unfold bind, write_bytes, log_generation, write_last_image, ret.
  cbv zeta.
  destruct (image_write h path (content r)) as [|[part|]];
    [| right; eexists; reflexivity | left; reflexivity].
  destruct (log_append h (dumps entry ++ [newline])) as [|[part|]];
    [| right; eexists; reflexivity | right; eexists; reflexivity].
  destruct (last_image_write h (dumps_indent2 entry)) as [|[part|]];
    [| right; eexists; reflexivity | right; eexists; reflexivity].
  exists r. auto.
Qed.

Ltac operation_saves :=
  repeat first
    [ apply saves_written; assumption
    | apply saves_after_download; intros ? ? ? ?; cbn [fst snd]
    | apply saves_after_unchanged;
      [ first [ apply written_unchanged_submit
              | apply written_unchanged_poll_loop
              | apply written_unchanged_pure ]
      | intros ?; cbv zeta ] ].

Lemma generate_saves (cfg : Config) (h : Host) (prompt : str) (m : model)
    (aspect_ratio resolution : str) (source : option str)
    (edit_strength : pyfloat) :
  saves_download h
    (generate_image cfg h prompt m aspect_ratio resolution source
       edit_strength).
Proof.
  unfold generate_image.
  destruct (negb (is_set (API_KEY cfg))); [apply saves_raise |].
  cbv zeta. unfold await_completion. operation_saves.
Qed.

Lemma topaz_saves (cfg : Config) (h : Host) (image_url : str)
    (scale_factor : Z) (output_format : str) (t : topaz_settings)
    (sw sh : option Z) :
  saves_download h
    (upscale_image cfg h image_url scale_factor output_format t sw sh).
Proof.
  unfold upscale_image.
  destruct (negb (is_set (API_KEY cfg))); [apply saves_raise |].
  cbv zeta. unfold await_completion. operation_saves.
Qed.

Lemma bloom_saves (cfg : Config) (h : Host) (image_url : str)
    (scale_factor : Z) (output_format : str) (b : bloom_settings)
    (prompt : str) (sw sh : option Z) :
  saves_download h
    (upscale_bloom cfg h image_url scale_factor output_format b prompt
       sw sh).
Proof.
  unfold upscale_bloom.
  destruct (negb (is_set (API_KEY cfg))); [apply saves_raise |].
  cbv zeta. unfold await_completion. operation_saves.
Qed.

(** X11: Every operation that returns has written one file, no more: the
    bytes it downloaded, with status 200, from the URL it returns, at the
    path it returns.  Whatever the outcome, also when a write fails, an
    operation writes one file at most. *)
Theorem operation_saves_its_download (cfg : Config) (h : Host) :
  (forall prompt m aspect_ratio resolution source edit_strength,
     saves_download h
       (generate_image cfg h prompt m aspect_ratio resolution source
          edit_strength))
  /\ (forall image_url scale_factor output_format t sw sh,
        saves_download h
          (upscale_image cfg h image_url scale_factor output_format t sw sh))
  /\ (forall image_url scale_factor output_format b prompt sw sh,
        saves_download h
          (upscale_bloom cfg h image_url scale_factor output_format b prompt
             sw sh)).
Proof.
  repeat split; intros.
  - apply generate_saves.
  - apply topaz_saves.
  - apply bloom_saves.
Qed.

Lemma on_return_bind {A B : Type} (Q : B -> World -> Prop)
    (m : M A) (k : A -> M B) :
  (forall a, on_return Q (k a)) -> on_return Q (bind m k).
Proof.
  intros Hk w b w' H. apply bind_ok_inv in H.
  destruct H as [a [w1 [_ H]]]. exact (Hk a w1 b w' H).
Qed.

Lemma on_return_raise {A : Type} (Q : A -> World -> Prop) (e : failure) :
  on_return Q (raise e).
Proof. intros w a w' H. discriminate H. Qed.

Lemma on_return_recorded (h : Host) (aspect : option value) (d : dict)
    (path folder url : str) :
  dict_get (str_of "local_path") d = Some (VStr path) ->
  dict_get (str_of "krea_url") d = Some (VStr url) ->
  dict_get (str_of "aspect_ratio") d = aspect ->
  on_return (record_points_at aspect)
    (log_generation h (VDict d) ;;; write_last_image h (VDict d) ;;;
     ret (path, folder, url)).
Proof.
  intros H1 H2 H3 w out w' H.
  unfold bind, log_generation, write_last_image, ret in H. cbv zeta in H.
  destruct (log_append h (dumps (VDict d) ++ [newline])) as [|[part|]];
    [| discriminate H | discriminate H].
  destruct (last_image_write h (dumps_indent2 (VDict d))) as [|[part|]];
    [| discriminate H | discriminate H].
  injection H as <- <-.
  exists d. cbn [fst snd last_image_file with_last_image]. auto.
Qed.

Lemma generate_records (cfg : Config) (h : Host) (prompt : str) (m : model)
    (aspect_ratio resolution : str) (source : option str)
    (edit_strength : pyfloat) :
  on_return (record_points_at (Some (VStr aspect_ratio)))
    (generate_image cfg h prompt m aspect_ratio resolution source
       edit_strength).
Proof.
  unfold generate_image.
  destruct (negb (is_set (API_KEY cfg))); [apply on_return_raise |].
  cbv zeta. do 5 (apply on_return_bind; intros ?).
  apply on_return_recorded;
    destruct m; destruct source as [[|c s]|]; reflexivity.
Qed.

Lemma topaz_records (cfg : Config) (h : Host) (image_url : str)
    (scale_factor : Z) (output_format : str) (t : topaz_settings)
    (sw sh : option Z) :
  on_return (record_points_at None)
    (upscale_image cfg h image_url scale_factor output_format t sw sh).
Proof.
  unfold upscale_image.
  destruct (negb (is_set (API_KEY cfg))); [apply on_return_raise |].
  cbv zeta. do 5 (apply on_return_bind; intros ?).
  apply on_return_recorded; reflexivity.
Qed.

Lemma bloom_records (cfg : Config) (h : Host) (image_url : str)
    (scale_factor : Z) (output_format : str) (b : bloom_settings)
    (prompt : str) (sw sh : option Z) :
  on_return (record_points_at None)
    (upscale_bloom cfg h image_url scale_factor output_format b prompt
       sw sh).
Proof.
  unfold upscale_bloom.
  destruct (negb (is_set (API_KEY cfg))); [apply on_return_raise |].
  cbv zeta. do 5 (apply on_return_bind; intros ?).
  apply on_return_recorded; destruct prompt; reflexivity.
Qed.

(** X12: Every operation that returns leaves in the last-image file a record
    whose [local_path] is the path it returns and whose [krea_url] is the
    URL it returns; the record of a generation holds the aspect ratio it was
    asked for, the record of an upscale holds none. *)
Theorem operation_records_its_result (cfg : Config) (h : Host) :
  (forall prompt m aspect_ratio resolution source edit_strength,
     on_return (record_points_at (Some (VStr aspect_ratio)))
       (generate_image cfg h prompt m aspect_ratio resolution source
          edit_strength))
  /\ (forall image_url scale_factor output_format t sw sh,
        on_return (record_points_at None)
          (upscale_image cfg h image_url scale_factor output_format t sw sh))
  /\ (forall image_url scale_factor output_format b prompt sw sh,
        on_return (record_points_at None)
          (upscale_bloom cfg h image_url scale_factor output_format b prompt
             sw sh)).
Proof.
  repeat split; intros.
  - apply generate_records.
  - apply topaz_records.
  - apply bloom_records.
Qed.

Lemma operation_records_its_result_witness :
  let env := env_without_remote_path in
  let run := generate_image (load_config env) (test_host env)
               (str_of "A red bicycle") Pro (str_of "16:9") (str_of "2K")
               (Some (str_of "https://cdn.krea.ai/src.png")) (FDec 8 (-1))
               empty_world in
  let out :=
    (str_of "/skill/images/2026-01-31/12-00-00-pro-a-red-bicycle.png",
     str_of "/skill/images/2026-01-31",
     str_of "https://cdn.krea.ai/out.png") in
  fst run = Ok out
  /\ record_points_at (Some (VS "16:9")) out (snd run).
Proof.
  intros env run out.
  assert (E : run = (Ok out, snd run)) by (vm_compute; reflexivity).
  split; [rewrite E; reflexivity |].
  destruct (operation_records_its_result (load_config env) (test_host env))
    as [G _].
  exact (G (str_of "A red bicycle") Pro (str_of "16:9") (str_of "2K")
           (Some (str_of "https://cdn.krea.ai/src.png")) (FDec 8 (-1))
           empty_world out (snd run) E).
Defined.

(** X13: A generated image lands directly in the day's folder, whatever the
    prompt: its path is the folder, a slash, the time, the model, a
    well-formed slug of at most 50 characters and one of the extensions
    [.png], [.webp] and [.jpg]; no character of the prompt reaches the path
    but lowercase letters, digits and hyphens. *)
Theorem generated_image_path (cfg : Config) (h : Host)
    (prompt : str) (m : model) (aspect_ratio resolution : str)
    (source : option str) (edit_strength : pyfloat) :
  on_return (fun out _ => generated_path h m out)
    (generate_image cfg h prompt m aspect_ratio resolution source
       edit_strength).
Proof.
  unfold generate_image.
  destruct (negb (is_set (API_KEY cfg))); [apply on_return_raise |].
  cbv zeta. do 7 (apply on_return_bind; intros ?).
  intros w out w' H. injection H as <- _.
  destruct (slugify_shape prompt default_max_length) as [W [N L]].
  eexists (slugify prompt default_max_length), _.
  split; [reflexivity |]. split; [reflexivity |].
  split; [exact W |]. split; [exact N |].
  split; [apply L; unfold default_max_length; lia |].
  unfold generate_extension.
  repeat match goal with
  | |- context [if ?b then _ else _] => destruct b
  end; auto.
Qed.

Lemma generated_image_path_witness :
  let env := env_without_remote_path in
  let run := generate_image (load_config env) (test_host env)
               (str_of "../../etc/passwd  && rm -rf") Nano (str_of "1:1")
               (str_of "1K") None (FDec 8 (-1)) empty_world in
  let out :=
    (str_of "/skill/images/2026-01-31/12-00-00-nano-etcpasswd-rm-rf.png",
     str_of "/skill/images/2026-01-31",
     str_of "https://cdn.krea.ai/out.png") in
  fst run = Ok out /\ generated_path (test_host env) Nano out.
Proof.
  intros env run out.
  assert (E : run = (Ok out, snd run)) by (vm_compute; reflexivity).
  split; [rewrite E; reflexivity |].
  exact (generated_image_path (load_config env) (test_host env)
           (str_of "../../etc/passwd  && rm -rf") Nano (str_of "1:1")
           (str_of "1K") None (FDec 8 (-1)) empty_world out (snd run) E).
Defined.

(** ** The requests of an operation *)

Lemma poll_loop_requests (fetch : nat -> result response) (job_id : value)
    (max_wait poll_interval : Z) (fuel : nat) :
  0 < poll_interval ->
  forall elapsed k w,
    exists n,
      network (snd (poll_loop fuel fetch job_id max_wait poll_interval
                      elapsed k w))
      = network w ++ repeat (HttpGetJob job_id) n
      /\ (n = 0%nat \/ elapsed + (Z.of_nat n - 1) * poll_interval < max_wait).
Proof.
  intros Hp. induction fuel as [|fuel IH]; intros elapsed k w.
  - exists 0%nat. simpl. rewrite app_nil_r. auto.
  - cbn [poll_loop]. destruct (Z.ltb_spec elapsed max_wait) as [Hlt | Hge].
    2:{ exists 0%nat. simpl. rewrite app_nil_r. auto. }
    assert (One : forall (o : result value),
               exists n,
                 network (snd (o, snd (emit (HttpGetJob job_id) w)))
                 = network w ++ repeat (HttpGetJob job_id) n
                 /\ (n = 0%nat
                     \/ elapsed + (Z.of_nat n - 1) * poll_interval < max_wait)).
    { intros o. exists 1%nat. split; [reflexivity | right; simpl; lia]. }
    unfold bind at 1. cbn [emit]. unfold bind at 1, lift at 1.
    destruct (fetch k) as [r|e|]; try apply One.
    destruct (negb (status_code r =? 200)); [apply One |].
    unfold bind at 1, lift at 1.
    destruct (response_dict r) as [d|e|]; try apply One.
    cbv zeta.
    repeat match goal with
    | |- context [if ?b then _ else _] => destruct b; [apply One |]
    end.
    unfold bind at 1. cbn [sleep].
    match goal with
    | |- context [poll_loop fuel _ _ _ _ ?e ?j ?w1] =>
        destruct (IH e j w1) as [n [Hn Hb]]
    end.
    exists (S n). rewrite Hn. cbn [network].
    rewrite <- app_assoc. split; [reflexivity |]. right.
    destruct Hb as [-> | Hb]; [simpl; lia | lia].
Qed.

Lemma submit_network (h : Host) (url : str) (payload : value) (w : World) :
  network (snd (submit h url payload w))
  = network w ++ [HttpPost url payload].
Proof.
  unfold submit. unfold bind at 1. cbn [emit]. unfold bind at 1, lift at 1.
  destruct (http_post h url payload) as [r|e|]; reflexivity.
Qed.

(** Submission, polling, the first URL, the download, and statements that
    make no request. *)
Lemma pipeline_trace {A : Type} (h : Host) (url : str) (payload : value)
    (kind : job_kind) (rest : str * response -> M A) :
  (forall got, network_unchanged (rest got)) ->
  forall w,
    exists t,
      network
        (snd ((job_id <- submit h url payload ;;
               job_data <- await_completion kind (job_status h job_id)
                             job_id ;;
               first <- lift (first_url job_data) ;;
               got <- download h first ;;
               rest got) w))
      = network w ++ t
      /\ operation_trace t.
Proof.
  intros Hrest w.
  assert (Shape : forall job_id n tail,
             (n = 0%nat
              \/ 0 + (Z.of_nat n - 1) * JobClient.poll_interval kind
                 < JobClient.max_wait kind) ->
             (tail = [] \/ exists u, tail = [HttpGet u]) ->
             operation_trace
               (HttpPost url payload :: repeat (HttpGetJob job_id) n ++ tail)).
  { intros job_id n tail Hn Ht. right. exists url, payload, job_id, n, tail.
    split; [reflexivity |]. split; [| exact Ht].
    destruct Hn as [-> | Hn]; [lia |]. destruct kind; simpl in Hn; lia. }
  pose proof (submit_network h url payload w) as N1.
  unfold bind at 1.
  destruct (submit h url payload w) as [[job_id|e|] w1]; cbn [snd] in *;
    try (exists [HttpPost url payload]; split; [exact N1 |];
         apply (Shape VNone 0%nat []); auto).
  destruct (poll_loop_requests (job_status h job_id) job_id
              (JobClient.max_wait kind) (JobClient.poll_interval kind)
              (S (Z.to_nat (JobClient.max_wait kind)))
              (poll_interval_positive kind) 0 0%nat w1) as [n [N2 Hn]].
  fold (await_completion kind (job_status h job_id) job_id) in N2.
  assert (Stop : forall w2 : World,
             network w2 = network w1 ++ repeat (HttpGetJob job_id) n ->
             forall tail, (tail = [] \/ exists u, tail = [HttpGet u]) ->
             forall w3 : World, network w3 = network w2 ++ tail ->
             exists t, network w3 = network w ++ t /\ operation_trace t).
  { intros w2 H2 tail Ht w3 H3.
    exists (HttpPost url payload :: repeat (HttpGetJob job_id) n ++ tail).
    split; [| apply Shape; assumption].
    rewrite H3, H2, N1, <- !app_assoc. reflexivity. }
  unfold bind at 1.
  destruct (await_completion kind (job_status h job_id) job_id w1)
    as [[job_data|e|] w2]; cbn [snd] in *;
    try (apply (Stop w2 N2 []); [auto | rewrite app_nil_r; reflexivity]).
  unfold bind at 1, lift at 1.
  destruct (first_url job_data) as [first|e|];
    try (apply (Stop w2 N2 []); [auto | rewrite app_nil_r; reflexivity]).
  unfold bind at 1. pose proof (download_inv h first w2) as D.
  destruct (download h first w2) as [[[u r]|e|] w3].
  - destruct D as [_ [_ [_ [_ N3]]]].
    apply (Stop w2 N2 [HttpGet u]); [right; eauto |].
    rewrite Hrest. exact N3.
  - destruct D as [_ [N3 | [u N3]]]; cbn [snd].
    + apply (Stop w2 N2 []); [auto | rewrite app_nil_r; exact N3].
    + apply (Stop w2 N2 [HttpGet u]); [right; eauto | exact N3].
  - destruct D as [_ [N3 | [u N3]]]; cbn [snd].
    + apply (Stop w2 N2 []); [auto | rewrite app_nil_r; exact N3].
    + apply (Stop w2 N2 [HttpGet u]); [right; eauto | exact N3].
Qed.

Lemma network_unchanged_saving {A : Type} (h : Host) (path : str)
    (bytes : list N) (entry : value) (a : A) :
  network_unchanged
    (write_bytes h path bytes ;;; log_generation h entry ;;;
     write_last_image h entry ;;; ret a).
Proof.
  intros w. unfold bind, write_bytes, log_generation, write_last_image, ret.
  cbv zeta.
  destruct (image_write h path bytes) as [|[part|]]; try reflexivity.
  destruct (log_append h (dumps entry ++ [newline])) as [|[part|]];
    try reflexivity.
  destruct (last_image_write h (dumps_indent2 entry)) as [|[part|]];
    reflexivity.
Qed.

(** X14: The requests of an operation, whatever its outcome: none without an
    API key; otherwise one submission, then status requests for one job,
    sixty at most, then at most one download.  Never a second submission or
    a second download, never an FTP command. *)
Theorem operation_requests (cfg : Config) (h : Host) (w : World) :
  (forall prompt m aspect_ratio resolution source edit_strength,
     exists t,
       network (snd (generate_image cfg h prompt m aspect_ratio resolution
                       source edit_strength w)) = network w ++ t
       /\ operation_trace t)
  /\ (forall image_url scale_factor output_format t0 sw sh,
        exists t,
          network (snd (upscale_image cfg h image_url scale_factor
                          output_format t0 sw sh w)) = network w ++ t
          /\ operation_trace t)
  /\ (forall image_url scale_factor output_format b prompt sw sh,
        exists t,
          network (snd (upscale_bloom cfg h image_url scale_factor
                          output_format b prompt sw sh w)) = network w ++ t
          /\ operation_trace t).
Proof.
  assert (None_ : exists t, network w = network w ++ t /\ operation_trace t).
  { exists []. rewrite app_nil_r. split; [reflexivity | left; reflexivity]. }
  repeat split; intros.
  - unfold generate_image.
    destruct (negb (is_set (API_KEY cfg))); [exact None_ |].
    cbv zeta. apply pipeline_trace. intros got.
    apply network_unchanged_saving.
  - unfold upscale_image.
    destruct (negb (is_set (API_KEY cfg))); [exact None_ |].
    cbv zeta. apply pipeline_trace. intros got.
    apply network_unchanged_saving.
  - unfold upscale_bloom.
    destruct (negb (is_set (API_KEY cfg))); [exact None_ |].
    cbv zeta. apply pipeline_trace. intros got.
    apply network_unchanged_saving.
Qed.

(** ** The upload, step by step *)

Lemma touches_only_ftp_bind {A B : Type} (m : M A) (k : A -> M B) :
  touches_only_ftp m -> (forall a, touches_only_ftp (k a)) ->
  touches_only_ftp (bind m k).
Proof.
  intros Hm Hk w. unfold bind. specialize (Hm w). cbv zeta in Hm.
  destruct (m w) as [[a|e|] w1]; cbn [snd] in *; [| exact Hm | exact Hm].
  specialize (Hk a w1). cbv zeta in Hk.
  destruct Hm as [L1 [L2 [L3 [L4 [t1 [N1 F1]]]]]].
  destruct Hk as [K1 [K2 [K3 [K4 [t2 [N2 F2]]]]]].
  repeat split; try congruence.
  exists (t1 ++ t2). rewrite N2, N1, <- app_assoc, forallb_app, F1, F2.
  split; reflexivity.
Qed.

Lemma touches_only_ftp_still {A : Type} (r : result A) :
  touches_only_ftp (lift r).
Proof.
  intros w. repeat split. exists []. rewrite app_nil_r. split; reflexivity.
Qed.

Lemma touches_only_ftp_emit (ev : event) :
  is_ftp_event ev = true -> touches_only_ftp (emit ev).
Proof.
  intros H w. repeat split. exists [ev]. simpl. rewrite H.
  split; reflexivity.
Qed.

Lemma touches_only_ftp_send (h : Host) (command : event) :
  is_ftp_event command = true -> touches_only_ftp (ftp_send h command).
Proof.
  intros H w. unfold ftp_send.
  destruct (ftp_fault h (length (network w))); repeat split;
    exists [command]; simpl; rewrite H; split; reflexivity.
Qed.

Lemma touches_only_ftp_cwd (h : Host) (dir : str) :
  touches_only_ftp (ftp_cwd_try h dir).
Proof.
  apply touches_only_ftp_bind;
    [apply touches_only_ftp_send; reflexivity | intros _].
  intros w. destruct (existsb (str_eqb dir) (ftp_dirs w)); repeat split;
    exists []; rewrite app_nil_r; split; reflexivity.
Qed.

Lemma touches_only_ftp_mkd (h : Host) (dir : str) :
  touches_only_ftp (ftp_mkd_try h dir).
Proof.
  apply touches_only_ftp_bind;
    [apply touches_only_ftp_send; reflexivity | intros _].
  intros w. destruct (ftp_mkd_ok h dir); repeat split;
    exists []; rewrite app_nil_r; split; reflexivity.
Qed.

Lemma touches_only_ftp_make_dirs (h : Host) (parts : list str) :
  forall current, touches_only_ftp (make_dirs h current parts).
Proof.
  induction parts as [|part rest IH]; intros current; simpl.
  - apply (touches_only_ftp_still (Ok tt)).
  - apply touches_only_ftp_bind; [apply touches_only_ftp_cwd |].
    intros entered.
    apply touches_only_ftp_bind; [| intros _; apply IH].
    destruct entered; [apply (touches_only_ftp_still (Ok tt)) |].
    apply touches_only_ftp_bind; [apply touches_only_ftp_mkd |].
    intros made. destruct made; [| apply (touches_only_ftp_still (Ok tt))].
    apply touches_only_ftp_bind; [apply touches_only_ftp_cwd |].
    intros _. apply (touches_only_ftp_still (Ok tt)).
Qed.

Lemma touches_only_ftp_stor (h : Host) (name : str) (bytes : list N) :
  touches_only_ftp (ftp_stor h name bytes).
Proof.
  apply touches_only_ftp_bind;
    [apply touches_only_ftp_emit; reflexivity | intros _].
  intros w. destruct (ftp_stor_ok h); repeat split;
    exists []; rewrite app_nil_r; split; reflexivity.
Qed.

Lemma touches_only_ftp_upload (cfg : Config) (h : Host) (local : str) :
  touches_only_ftp (upload_to_ftp cfg h local).
Proof.
  unfold upload_to_ftp.
  destruct (negb _); [apply (touches_only_ftp_still (Raise FtpNotConfigured)) |].
  destruct (local_path h local) as [entry|];
    [| apply (touches_only_ftp_still (Raise (FileNotFound local)))].
  cbv zeta.
  apply touches_only_ftp_bind;
    [apply touches_only_ftp_emit; reflexivity | intros _].
  apply touches_only_ftp_bind;
    [destruct (ftp_connect_ok h);
       [apply (touches_only_ftp_still (Ok tt))
       | apply (touches_only_ftp_still (Raise FtpUploadFailed))]
    | intros _].
  apply touches_only_ftp_bind;
    [apply touches_only_ftp_emit; reflexivity | intros _].
  apply touches_only_ftp_bind;
    [destruct (ftp_login_ok h);
       [apply (touches_only_ftp_still (Ok tt))
       | apply (touches_only_ftp_still (Raise FtpUploadFailed))]
    | intros _].
  apply touches_only_ftp_bind.
  { destruct (rstrip_by (char_eqb slash) (FTP_REMOTE_PATH cfg));
      [apply (touches_only_ftp_still (Ok tt)) |].
    apply touches_only_ftp_bind; [apply touches_only_ftp_cwd |].
    intros entered.
    destruct entered;
      [apply (touches_only_ftp_still (Ok tt))
      | apply touches_only_ftp_make_dirs]. }
  intros _. apply touches_only_ftp_bind.
  { destruct entry;
      [apply touches_only_ftp_stor
      | apply (touches_only_ftp_still (Raise FtpUploadFailed))]. }
  intros _. apply touches_only_ftp_bind;
    [apply touches_only_ftp_send; reflexivity | intros _].
  apply (touches_only_ftp_still (Ok _)).
Qed.

Lemma touches_only_ftp_resolve (cfg : Config) (h : Host) (path : str) :
  touches_only_ftp (resolve_image_url cfg h path).
Proof.
  unfold resolve_image_url. destruct (is_url path);
    [apply (touches_only_ftp_still (Ok path)) |].
  destruct (is_local_file h path);
    [apply touches_only_ftp_upload
    | apply (touches_only_ftp_still (Raise (InvalidImagePath path)))].
Qed.



Lemma bind_ok_run {A B : Type} (m : M A) (k : A -> M B) (w w1 : World)
    (a : A) :
  m w = (Ok a, w1) -> bind m k w = k a w1.
Proof. intros H. unfold bind. rewrite H. reflexivity. Qed.

Lemma upload_unfold (cfg : Config) (h : Host) (local : str) :
  upload_to_ftp cfg h local
  = if negb (ftp_configured cfg) then raise FtpNotConfigured
    else
      match local_path h local with
      | None => raise (FileNotFound local)
      | Some entry =>
          emit (FtpConnect match FTP_HOST cfg with Some x => x | None => [] end
                  (FTP_PORT cfg)) ;;;
          (if ftp_connect_ok h then ret tt else raise FtpUploadFailed) ;;;
          emit (FtpLogin match FTP_USER cfg with Some x => x | None => [] end) ;;;
          (if ftp_login_ok h then ret tt else raise FtpUploadFailed) ;;;
          directory_phase cfg h ;;;
          (match entry with
           | File bytes => ftp_stor h (unique_name h local) bytes
           | Directory => raise FtpUploadFailed
           end) ;;;
          ftp_send h FtpQuit ;;;
          ret (rstrip_by (char_eqb slash) (FTP_PUBLIC_URL cfg)
               ++ [slash] ++ unique_name h local)
      end.
Proof. reflexivity. Qed.

Lemma bind_raise_run {A B : Type} (m : M A) (k : A -> M B) (w w1 : World)
    (e : failure) :
  m w = (Raise e, w1) -> bind m k w = (Raise e, w1).
Proof. intros H. unfold bind. rewrite H. reflexivity. Qed.

Lemma broken_bind {A B : Type} (h : Host) (m : M A) (k : A -> M B)
    (w : World) :
  broken_by_fault h (m w) -> broken_by_fault h (bind m k w).
Proof.
  intros [w1 [n [E F]]]. exists w1, n.
  split; [apply bind_raise_run, E | exact F].
Qed.

Lemma ftp_send_runs (h : Host) (command : event) (w : World) :
  (exists w1,
     ftp_send h command w = (Ok tt, w1) /\ ftp_files w1 = ftp_files w
     /\ ftp_cwd w1 = ftp_cwd w /\ ftp_dirs w1 = ftp_dirs w)
  \/ broken_by_fault h (ftp_send h command w).
Proof.
  unfold ftp_send. destruct (ftp_fault h (length (network w))) eqn:F.
  - right. eexists. exists (length (network w)).
    split; [reflexivity | exact F].
  - left. eexists. repeat split.
Qed.

Lemma ftp_cwd_try_runs (h : Host) (dir : str) (w : World) :
  (exists b w1,
     ftp_cwd_try h dir w = (Ok b, w1) /\ ftp_files w1 = ftp_files w
     /\ ftp_dirs w1 = ftp_dirs w
     /\ b = existsb (str_eqb dir) (ftp_dirs w)
     /\ ftp_cwd w1 = if b then dir else ftp_cwd w)
  \/ broken_by_fault h (ftp_cwd_try h dir w).
Proof.
  unfold ftp_cwd_try.
  destruct (ftp_send_runs h (FtpCwd dir) w) as [[w1 [E [F [C D]]]] | B];
    [| right; apply broken_bind, B].
  left. rewrite (bind_ok_run _ _ _ _ _ E). rewrite D.
  destruct (existsb (str_eqb dir) (ftp_dirs w));
    eexists; eexists; repeat split; assumption.
Qed.

Lemma ftp_mkd_try_runs (h : Host) (dir : str) (w : World) :
  (exists w1,
     ftp_mkd_try h dir w = (Ok (ftp_mkd_ok h dir), w1)
     /\ ftp_files w1 = ftp_files w /\ ftp_cwd w1 = ftp_cwd w
     /\ ftp_dirs w1
        = if ftp_mkd_ok h dir then ftp_dirs w ++ [dir] else ftp_dirs w)
  \/ broken_by_fault h (ftp_mkd_try h dir w).
Proof.
  unfold ftp_mkd_try.
  destruct (ftp_send_runs h (FtpMkd dir) w) as [[w1 [E [F [C D]]]] | B];
    [| right; apply broken_bind, B].
  left. rewrite (bind_ok_run _ _ _ _ _ E).
  destruct (ftp_mkd_ok h dir); eexists; repeat split;
    cbn [ftp_files ftp_cwd ftp_dirs]; congruence.
Qed.

(** The loop fails for a fault of the session only and never touches the
    files stored; where the server lets directories be made, it ends in the
    directory made of all the parts, which then exists. *)
Lemma make_dirs_runs (h : Host) (parts : list str) :
  forall current w,
    (exists w1,
       make_dirs h current parts w = (Ok tt, w1)
       /\ ftp_files w1 = ftp_files w
       /\ ((forall d, ftp_mkd_ok h d = true) -> parts <> [] ->
           ftp_cwd w1 = below current parts
           /\ existsb (str_eqb (below current parts)) (ftp_dirs w1) = true))
    \/ broken_by_fault h (make_dirs h current parts w).
Proof.
  induction parts as [|part rest IH]; intros current w.
  - left. exists w. split; [reflexivity |]. split; [reflexivity |].
    intros _ H. contradiction.
  - cbn [make_dirs]. cbv zeta.
    set (here := current ++ [slash] ++ part).
    destruct (ftp_cwd_try_runs h here w)
      as [[b [w1 [E1 [F1 [D1 [B1 C1]]]]]] | B];
      [| right; apply broken_bind, B].
    rewrite (bind_ok_run _ _ _ _ _ E1).
    assert (Step :
              (exists w2,
                 (if b then ret tt
                  else
                    made <- ftp_mkd_try h here ;;
                    (if made then ftp_cwd_try h here ;;; ret tt else ret tt))
                   w1
                 = (Ok tt, w2)
                 /\ ftp_files w2 = ftp_files w1
                 /\ ((forall d, ftp_mkd_ok h d = true) ->
                     ftp_cwd w2 = here
                     /\ existsb (str_eqb here) (ftp_dirs w2) = true))
              \/ broken_by_fault h
                   ((if b then ret tt
                     else
                       made <- ftp_mkd_try h here ;;
                       (if made then ftp_cwd_try h here ;;; ret tt
                        else ret tt)) w1)).
    { destruct b.
      - left. exists w1. split; [reflexivity |]. split; [reflexivity |].
        intros _. split; [exact C1 | rewrite D1; symmetry; exact B1].
      - destruct (ftp_mkd_try_runs h here w1)
          as [[w2 [E2 [F2 [C2 D2]]]] | B];
          [| right; apply broken_bind, B].
        rewrite (bind_ok_run _ _ _ _ _ E2).
        destruct (ftp_mkd_ok h here) eqn:Hm.
        + destruct (ftp_cwd_try_runs h here w2)
            as [[b3 [w3 [E3 [F3 [D3 [B3 C3]]]]]] | B];
            [| right; apply broken_bind, B].
          left. exists w3.
          split; [rewrite (bind_ok_run _ _ _ _ _ E3); reflexivity |].
          split; [congruence |]. intros _.
          assert (T : b3 = true).
          { rewrite B3, D2, existsb_app. simpl.
            rewrite str_eqb_refl, orb_true_r. reflexivity. }
          rewrite T in C3. split; [exact C3 |].
          rewrite D3, <- B3. exact T.
        + left. exists w2.
          split; [reflexivity |]. split; [congruence |].
          intros H. rewrite H in Hm. discriminate Hm. }
    destruct Step as [[w2 [E2 [F2 G2]]] | B];
      [| right; apply broken_bind, B].
    rewrite (bind_ok_run _ _ _ _ _ E2).
    destruct (IH here w2) as [[w3 [E3 [F3 G3]]] | B]; [| right; exact B].
    left. exists w3.
    split; [exact E3 |]. split; [congruence |].
    intros Hm _.
    assert (B : below current (part :: rest) = below here rest).
    { unfold below, here. simpl. rewrite <- app_assoc. reflexivity. }
    rewrite B. destruct rest as [|part' rest'].
    + cbn [make_dirs] in E3. injection E3 as <-.
      unfold below. simpl. rewrite app_nil_r. apply G2. exact Hm.
    + apply G3; [exact Hm | discriminate].
Qed.

Lemma split_on_not_empty (sep : char) (s : str) : split_on sep s <> [].
Proof.
  destruct s as [|c s]; simpl; [discriminate |].
  destruct (char_eqb c sep); [discriminate |].
  destruct (split_on sep s); discriminate.
Qed.

Lemma directory_phase_runs (cfg : Config) (h : Host) (w : World) :
  let remote_dir := rstrip_by (char_eqb slash) (FTP_REMOTE_PATH cfg) in
  (exists w1,
     directory_phase cfg h w = (Ok tt, w1)
     /\ ftp_files w1 = ftp_files w
     /\ (remote_dir = [] -> ftp_cwd w1 = ftp_cwd w)
     /\ (remote_dir <> [] ->
         existsb (str_eqb remote_dir) (ftp_dirs w) = true ->
         ftp_cwd w1 = remote_dir /\ ftp_dirs w1 = ftp_dirs w)
     /\ (remote_dir <> [] ->
         existsb (str_eqb remote_dir) (ftp_dirs w) = false ->
         (forall d, ftp_mkd_ok h d = true) ->
         let made :=
           below [] (split_on slash (strip_by (char_eqb slash) remote_dir)) in
         ftp_cwd w1 = made /\ existsb (str_eqb made) (ftp_dirs w1) = true))
  \/ broken_by_fault h (directory_phase cfg h w).
Proof.
  intros remote_dir. unfold directory_phase. fold remote_dir. cbv zeta.
  destruct remote_dir as [|c rd] eqn:R.
  - left. exists w. repeat split; intros; try contradiction; discriminate.
  - rewrite <- R.
    destruct (ftp_cwd_try_runs h remote_dir w)
      as [[b [w1 [E1 [F1 [D1 [B1 C1]]]]]] | B];
      [| right; apply broken_bind, B].
    rewrite (bind_ok_run _ _ _ _ _ E1).
    destruct b.
    + left. exists w1.
      split; [reflexivity |]. split; [exact F1 |].
      split; [intros H; rewrite H in R; discriminate R |].
      split; [intros _ _; split; [exact C1 | exact D1] |].
      intros _ H. rewrite H in B1. discriminate B1.
    + destruct (make_dirs_runs h
                  (split_on slash (strip_by (char_eqb slash) remote_dir))
                  [] w1) as [[w2 [E2 [F2 G2]]] | B]; [| right; exact B].
      left. exists w2.
      split; [exact E2 |]. split; [congruence |].
      split; [intros H; rewrite H in R; discriminate R |].
      split; [intros _ H; rewrite H in B1; discriminate B1 |].
      intros _ _ Hm. apply G2; [exact Hm | apply split_on_not_empty].
Qed.

Lemma emit_runs (ev : event) (w : World) :
  exists w1,
    emit ev w = (Ok tt, w1) /\ ftp_files w1 = ftp_files w
    /\ ftp_cwd w1 = ftp_cwd w /\ ftp_dirs w1 = ftp_dirs w.
Proof. eexists. repeat split. Qed.

Lemma path_suffix_dot (p : str) :
  path_suffix p = [] \/ exists rest, path_suffix p = dot :: rest.
Proof.
  unfold path_suffix.
  destruct (before_last dot (path_name p)) as [h|] eqn:E; [| auto].
  destruct ((0 <? length h)%nat && (length h <? length (path_name p) - 1)%nat);
    [| auto].
  destruct (before_last_some _ _ _ E) as [r D]. right. exists r.
  rewrite D, skipn_app, skipn_all, Nat.sub_diag. reflexivity.
Qed.

Lemma not_broken_ok {A : Type} (h : Host) (a : A) (w w1 : World)
    (run : result A * World) :
  run = (Ok a, w1) -> broken_by_fault h run -> False.
Proof. intros E [w2 [n [B _]]]. rewrite E in B. discriminate B. Qed.

(** What a returned upload has done. *)
Lemma upload_ok_inv (cfg : Config) (h : Host) (local url : str)
    (w w' : World) :
  upload_to_ftp cfg h local w = (Ok url, w') ->
  ftp_configured cfg = true
  /\ ftp_connect_ok h = true /\ ftp_login_ok h = true
  /\ ftp_stor_ok h = true
  /\ url = rstrip_by (char_eqb slash) (FTP_PUBLIC_URL cfg)
           ++ [slash] ++ unique_name h local
  /\ exists bytes w2 w3,
       local_path h local = Some (File bytes)
       /\ ftp_dirs w2 = ftp_dirs w /\ ftp_cwd w2 = ftp_cwd w
       /\ directory_phase cfg h w2 = (Ok tt, w3)
       /\ ftp_cwd w' = ftp_cwd w3 /\ ftp_dirs w' = ftp_dirs w3
       /\ ftp_files w'
          = ftp_files w ++ [(ftp_cwd w3, unique_name h local, bytes)].
Proof.
  rewrite upload_unfold. intros H.
  destruct (ftp_configured cfg); [| discriminate H]. cbn [negb] in H.
  destruct (local_path h local) as [entry|]; [| discriminate H].
  apply bind_ok_inv in H. destruct H as [u1 [w1 [E1 H]]].
  apply bind_ok_inv in H. destruct H as [u1' [w1' [E1' H]]].
  destruct (ftp_connect_ok h); [| discriminate E1'].
  apply bind_ok_inv in H. destruct H as [u2 [w2 [E2 H]]].
  apply bind_ok_inv in H. destruct H as [u2' [w2' [E2' H]]].
  destruct (ftp_login_ok h); [| discriminate E2'].
  apply bind_ok_inv in H. destruct H as [[] [w3 [E3 H]]].
  apply bind_ok_inv in H. destruct H as [u4 [w4 [E4 H]]].
  apply bind_ok_inv in H. destruct H as [u5 [w5 [E5 H]]].
  destruct entry as [bytes|]; [| discriminate E4].
  unfold ftp_stor, bind, emit in E4. cbn [ftp_cwd ftp_files] in E4.
  destruct (ftp_stor_ok h); [| discriminate E4].
  destruct (directory_phase_runs cfg h w2') as [[w3' [E3' [F3 _]]] | B];
    [| exfalso; exact (not_broken_ok h tt w2' w3 _ E3 B)].
  rewrite E3 in E3'. injection E3' as <-.
  destruct (ftp_send_runs h FtpQuit w4) as [[w5' [E5' [Q1 [Q2 Q3]]]] | B];
    [| exfalso; exact (not_broken_ok h u5 w4 w5 _ E5 B)].
  rewrite E5 in E5'. injection E5' as _ <-.
  injection E1 as _ <-. injection E1' as _ <-. injection E2 as _ <-.
  injection E2' as _ <-. injection E4 as _ <-.
  injection H as <- <-.
  repeat split.
  exists bytes.
  match type of E3 with directory_phase _ _ ?x = _ => exists x end.
  exists w3.
  split; [reflexivity |]. split; [reflexivity |]. split; [reflexivity |].
  split; [exact E3 |].
  split; [rewrite Q2; reflexivity |]. split; [rewrite Q3; reflexivity |].
  rewrite Q1. cbn [ftp_files] in *. rewrite F3. reflexivity.
Qed.


(** X17: The file of a returned upload: it is stored once, in the directory
    the session is in, under a name made of the first twelve characters of a
    fresh identifier and the extension of the local file, [.png] when it has
    none, never the local name; the URL returned is the public base, without
    its final slashes, a slash and that name. *)
Theorem uploaded_file_and_url (cfg : Config) (h : Host) (local url : str)
    (w w' : World) :
  upload_to_ftp cfg h local w = (Ok url, w') ->
  exists bytes extension rest,
    local_path h local = Some (File bytes)
    /\ extension = dot :: rest
    /\ (path_suffix local = [] -> extension = str_of ".png")
    /\ (path_suffix local <> [] -> extension = path_suffix local)
    /\ url
       = rstrip_by (char_eqb slash) (FTP_PUBLIC_URL cfg) ++ [slash]
         ++ firstn 12 (uuid_hex h) ++ extension
    /\ ftp_files w'
       = ftp_files w
         ++ [(ftp_cwd w', firstn 12 (uuid_hex h) ++ extension, bytes)].
Proof.
  intros H. apply upload_ok_inv in H.
  destruct H as [_ [_ [_ [_ [U [bytes [w2 [w3 [L [_ [_ [_ [C [_ F]]]]]]]]]]]]]].
  exists bytes, (or_default (path_suffix local) (str_of ".png")).
  destruct (path_suffix_dot local) as [S | [rest S]].
  - exists (str_of "png"). rewrite S. cbn [or_default].
    split; [exact L |]. split; [reflexivity |]. split; [reflexivity |].
    split; [intros N; contradiction |].
    split; [rewrite U; unfold unique_name; rewrite S; reflexivity |].
    rewrite F, C. unfold unique_name. rewrite S. reflexivity.
  - exists rest. rewrite S. cbn [or_default].
    split; [exact L |]. split; [reflexivity |].
    split; [intros N; discriminate N |]. split; [reflexivity |].
    split; [rewrite U; unfold unique_name; rewrite S; reflexivity |].
    rewrite F, C. unfold unique_name. rewrite S. reflexivity.
Qed.

(** X18: Where the server lets directories be made, a returned upload has
    stored the file in the remote directory: the configured one when the
    server had it, otherwise the one made of its parts from the root,
    created on the way; it exists afterwards. *)
Theorem upload_enters_remote_directory (cfg : Config) (h : Host)
    (local url : str) (w w' : World) :
  upload_to_ftp cfg h local w = (Ok url, w') ->
  (forall d, ftp_mkd_ok h d = true) ->
  let remote_dir := rstrip_by (char_eqb slash) (FTP_REMOTE_PATH cfg) in
  remote_dir <> [] ->
  let target :=
    if existsb (str_eqb remote_dir) (ftp_dirs w) then remote_dir
    else below [] (split_on slash (strip_by (char_eqb slash) remote_dir)) in
  ftp_cwd w' = target
  /\ existsb (str_eqb target) (ftp_dirs w') = true
  /\ exists name bytes, ftp_files w' = ftp_files w ++ [(target, name, bytes)].
Proof.
  intros H Hm remote_dir Hr target. apply upload_ok_inv in H.
  destruct H as [_ [_ [_ [_ [_ [bytes [w2 [w3 [_ [D2 [_ [E [C [D F]]]]]]]]]]]]]].
  destruct (directory_phase_runs cfg h w2)
    as [[w3' [E' [_ [_ [G1 G2]]]]] | B];
    [| exfalso; exact (not_broken_ok h tt w2 w3 _ E B)].
  rewrite E in E'. injection E' as <-. fold remote_dir in G1, G2.
  assert (T : ftp_cwd w3 = target
              /\ existsb (str_eqb target) (ftp_dirs w3) = true).
  { unfold target. rewrite <- D2.
    destruct (existsb (str_eqb remote_dir) (ftp_dirs w2)) eqn:X.
    - destruct (G1 Hr eq_refl) as [C1 D1].
      split; [exact C1 | rewrite D1; exact X].
    - apply G2; auto. }
  destruct T as [T1 T2].
  split; [rewrite C; exact T1 |]. split; [rewrite D; exact T2 |].
  exists (unique_name h local), bytes. rewrite F, T1. reflexivity.
Qed.


Lemma uploaded_file_and_url_witness :
  let cfg := load_config env_with_remote_path in
  let h := strict_ftp_host env_with_remote_path in
  let run := upload_to_ftp cfg h (str_of "photo.jpg") empty_world in
  let url := str_of "https://cdn.example.com/img/0123456789ab.jpg" in
  fst run = Ok url
  /\ exists bytes extension rest,
       local_path h (str_of "photo.jpg") = Some (File bytes)
       /\ extension = dot :: rest
       /\ (path_suffix (str_of "photo.jpg") = [] -> extension = str_of ".png")
       /\ (path_suffix (str_of "photo.jpg") <> [] ->
           extension = path_suffix (str_of "photo.jpg"))
       /\ url
          = rstrip_by (char_eqb slash) (FTP_PUBLIC_URL cfg) ++ [slash]
            ++ firstn 12 (uuid_hex h) ++ extension
       /\ ftp_files (snd run)
          = ftp_files empty_world
            ++ [(ftp_cwd (snd run), firstn 12 (uuid_hex h) ++ extension,
                 bytes)].
Proof.
  intros cfg h run url.
  assert (E : run = (Ok url, snd run)) by (vm_compute; reflexivity).
  split; [rewrite E; reflexivity |].
  exact (uploaded_file_and_url cfg h (str_of "photo.jpg") url empty_world
           (snd run) E).
Defined.

Lemma upload_enters_remote_directory_witness :
  let cfg := load_config env_with_remote_path in
  let h := test_host env_with_remote_path in
  let run := upload_to_ftp cfg h (str_of "photo.jpg") empty_world in
  let url := str_of "https://cdn.example.com/img/0123456789ab.jpg" in
  fst run = Ok url
  /\ ftp_cwd (snd run) = str_of "/img/new"
  /\ existsb (str_eqb (str_of "/img/new")) (ftp_dirs (snd run)) = true
  /\ exists name bytes,
       ftp_files (snd run)
       = ftp_files empty_world ++ [(str_of "/img/new", name, bytes)].
Proof.
  intros cfg h run url.
  assert (E : run = (Ok url, snd run)) by (vm_compute; reflexivity).
  split; [rewrite E; reflexivity |].
  assert (N : rstrip_by (char_eqb slash) (FTP_REMOTE_PATH cfg) <> [])
    by (vm_compute; discriminate).
  exact (upload_enters_remote_directory cfg h (str_of "photo.jpg") url
           empty_world (snd run) E (fun d => eq_refl) N).
Defined.

(** ** Every operation ends *)

Lemma ends_bind {A B : Type} (m : M A) (k : A -> M B) :
  ends m -> (forall a, ends (k a)) -> ends (bind m k).
Proof.
  intros Hm Hk w. unfold bind. specialize (Hm w).
  destruct (m w) as [[a|e|] w1]; cbn [fst] in *.
  - apply Hk.
  - discriminate.
  - contradiction Hm; reflexivity.
Qed.

Lemma ends_lift {A : Type} (r : result A) : r <> OutOfFuel -> ends (lift r).
Proof. intros H w. exact H. Qed.

Ltac ends_now := let w := fresh "w" in intros w; cbn; discriminate.

Lemma response_dict_ends (r : response) : response_dict r <> OutOfFuel.
Proof.
  unfold response_dict. destruct (json r) as [[]|]; discriminate.
Qed.

Lemma check_submission_ends (r : response) : check_submission r <> OutOfFuel.
Proof.
  unfold check_submission, response_dict.
  repeat match goal with
  | |- (if ?b then _ else _) <> _ => destruct b; [discriminate |]
  end.
  destruct (json r) as [[]|]; try discriminate.
  cbv zeta. destruct (negb _); discriminate.
Qed.

Lemma first_url_ends (job_data : value) : first_url job_data <> OutOfFuel.
Proof.
  unfold first_url. destruct job_data; try discriminate.
  destruct (dict_get_default _ _ _); try discriminate.
  cbv zeta. destruct (negb _); [discriminate |].
  destruct (dict_get_default _ _ _) as [| | | |[|c s]|[|u l]|];
    discriminate.
Qed.

Lemma ends_poll_loop (fetch : nat -> result response) (job_id : value)
    (max_wait poll_interval : Z) :
  0 < poll_interval -> (forall k, fetch k <> OutOfFuel) ->
  forall fuel elapsed k,
    (Z.to_nat (max_wait - elapsed) < fuel)%nat ->
    ends (poll_loop fuel fetch job_id max_wait poll_interval elapsed k).
Proof.
  intros Hp Hf. induction fuel as [|fuel IH]; intros elapsed k Hfuel;
    [lia |].
  cbn [poll_loop]. destruct (Z.ltb_spec elapsed max_wait) as [Hlt | Hge];
    [| ends_now].
  apply ends_bind; [ends_now | intros _].
  apply ends_bind; [apply ends_lift, Hf | intros r].
  destruct (negb (status_code r =? 200)); [ends_now |].
  apply ends_bind; [apply ends_lift, response_dict_ends | intros d].
  cbv zeta.
  repeat match goal with
  | |- ends (if ?b then _ else _) => destruct b; [ends_now |]
  end.
  apply ends_bind; [ends_now | intros _]. apply IH. lia.
Qed.

Lemma ends_pipeline (h : Host) (url : str) (payload : value)
    (kind : job_kind) (rest : str * response -> M (str * str * str)) :
  answers_or_raises h -> (forall got, ends (rest got)) ->
  ends (job_id <- submit h url payload ;;
        job_data <- await_completion kind (job_status h job_id) job_id ;;
        first <- lift (first_url job_data) ;;
        got <- download h first ;;
        rest got).
Proof.
  intros [Hpost [Hstatus Hget]] Hrest.
  apply ends_bind.
  { unfold submit. apply ends_bind; [ends_now | intros _].
    apply ends_bind; [apply ends_lift, Hpost | intros r].
    apply ends_lift, check_submission_ends. }
  intros job_id. apply ends_bind.
  { unfold await_completion.
    apply ends_poll_loop;
      [apply poll_interval_positive | apply Hstatus | destruct kind; simpl; lia]. }
  intros job_data.
  apply ends_bind; [apply ends_lift, first_url_ends | intros first].
  apply ends_bind; [| exact Hrest].
  unfold download. destruct first; try ends_now.
  apply ends_bind; [ends_now | intros _].
  apply ends_bind; [apply ends_lift, Hget | intros r].
  destruct (negb _); ends_now.
Qed.

Lemma ends_saving {A : Type} (h : Host) (path : str) (bytes : list N)
    (entry : value) (a : A) :
  ends (write_bytes h path bytes ;;; log_generation h entry ;;;
        write_last_image h entry ;;; ret a).
Proof.
  intros w. unfold bind, write_bytes, log_generation, write_last_image, ret.
  cbv zeta.
  destruct (image_write h path bytes) as [|[part|]];
    [| discriminate | discriminate].
  destruct (log_append h (dumps entry ++ [newline])) as [|[part|]];
    [| discriminate | discriminate].
  destruct (last_image_write h (dumps_indent2 entry)) as [|[part|]];
    discriminate.
Qed.

Lemma generate_ends (cfg : Config) (h : Host) (prompt : str) (m : model)
    (aspect_ratio resolution : str) (source : option str)
    (edit_strength : pyfloat) :
  answers_or_raises h ->
  ends (generate_image cfg h prompt m aspect_ratio resolution source
          edit_strength).
Proof.
  intros Hh. unfold generate_image.
  destruct (negb (is_set (API_KEY cfg))); [ends_now |].
  cbv zeta. apply ends_pipeline; [exact Hh | intros got; apply ends_saving].
Qed.

Lemma topaz_ends (cfg : Config) (h : Host) (image_url : str)
    (scale_factor : Z) (output_format : str) (t : topaz_settings)
    (sw sh : option Z) :
  answers_or_raises h ->
  ends (upscale_image cfg h image_url scale_factor output_format t sw sh).
Proof.
  intros Hh. unfold upscale_image.
  destruct (negb (is_set (API_KEY cfg))); [ends_now |].
  cbv zeta. apply ends_pipeline; [exact Hh | intros got; apply ends_saving].
Qed.

Lemma bloom_ends (cfg : Config) (h : Host) (image_url : str)
    (scale_factor : Z) (output_format : str) (b : bloom_settings)
    (prompt : str) (sw sh : option Z) :
  answers_or_raises h ->
  ends (upscale_bloom cfg h image_url scale_factor output_format b prompt
          sw sh).
Proof.
  intros Hh. unfold upscale_bloom.
  destruct (negb (is_set (API_KEY cfg))); [ends_now |].
  cbv zeta. apply ends_pipeline; [exact Hh | intros got; apply ends_saving].
Qed.

(** X19: Every operation ends, whatever the service answers: it returns or
    it raises, within the fuel the model gives its polling loop.  No
    sequence of answers keeps an operation running for ever. *)
Theorem every_operation_ends (cfg : Config) (h : Host) :
  answers_or_raises h ->
  (forall prompt m aspect_ratio resolution source edit_strength,
     ends (generate_image cfg h prompt m aspect_ratio resolution source
             edit_strength))
  /\ (forall image_url scale_factor output_format t sw sh,
        ends (upscale_image cfg h image_url scale_factor output_format t
                sw sh))
  /\ (forall image_url scale_factor output_format b prompt sw sh,
        ends (upscale_bloom cfg h image_url scale_factor output_format b
                prompt sw sh)).
Proof.
  intros Hh. repeat split; intros.
  - apply generate_ends, Hh.
  - apply topaz_ends, Hh.
  - apply bloom_ends, Hh.
Qed.

Lemma test_host_answers (env : str -> option str) :
  answers_or_raises (test_host env).
Proof.
  split; [intros url payload; discriminate |].
  split; [| intros url; discriminate].
  intros job_id k. cbn. unfold third_time_lucky.
  destruct (k <? 2)%nat; discriminate.
Qed.

Lemma every_operation_ends_witness :
  let env := env_without_remote_path in
  answers_or_raises (test_host env)
  /\ fst (upscale_bloom (load_config env) (test_host env)
            (str_of "https://cdn.krea.ai/src.png") 4 (str_of "png")
            (Build_bloom_settings 3 false false) [] None None empty_world)
     <> OutOfFuel.
Proof.
  intros env. split; [apply test_host_answers |].
  destruct (every_operation_ends (load_config env) (test_host env)
              (test_host_answers env)) as [_ [_ G]].
  apply G.
Defined.

(** ** What [last] refers to *)

Lemma dict_get_default_some (k : str) (default v : value) (d : dict) :
  dict_get k d = Some v -> dict_get_default k default d = v.
Proof. intros H. unfold dict_get_default. rewrite H. reflexivity. Qed.

Lemma last_word_cons : str_of "last" = 108%N :: str_of "ast".
Proof. reflexivity. Qed.

Lemma last_points_back (recorded : option value) (out : str * str * str)
    (w : World) :
  record_points_at recorded out w ->
  exists d,
    last_image_file w = Some (dumps_indent2 (VDict d))
    /\ forall loads,
         loads (dumps_indent2 (VDict d)) = Ok (VDict d) ->
         (forall cfg h,
            upscale_source cfg h loads (str_of "last") w
            = (Ok (Continue (VStr (snd out))), w))
         /\ (forall given,
               edit_source loads (Some (str_of "last")) given w
               = (Ok (Continue (VStr (snd out),
                                inherited_ratio given recorded)), w)).
Proof.
  intros [d [F [P [U R]]]]. exists d. split; [exact F |].
  intros loads L.
  assert (G : get_last_image_info loads w = (Ok (VDict d), w)).
  { unfold get_last_image_info. rewrite F, L. reflexivity. }
  assert (T : truthy (VDict d) = true).
  { destruct d; [discriminate P | reflexivity]. }
  split.
  - intros cfg h. unfold upscale_source. rewrite str_eqb_refl.
    unfold bind. rewrite G, T. cbn [negb].
    rewrite (dict_get_default_some _ _ _ _ U). reflexivity.
  - intros given. unfold edit_source. rewrite last_word_cons.
    rewrite str_eqb_refl. unfold bind. rewrite G, T. cbn [negb].
    rewrite U, P. unfold dict_get_default. rewrite R.
    destruct given as [[|c a]|]; destruct recorded; reflexivity.
Qed.

(** X20: After a generation that returned, [last] is that image: [--upscale
    last] takes the URL the generation returned, and so does [--edit last],
    with the aspect ratio the generation was asked for unless the command
    line gives one.  This holds for every decoder that reads the record the
    generation wrote back as it was. *)
Theorem last_after_generation (cfg : Config) (h : Host) (prompt : str)
    (m : model) (aspect_ratio resolution : str) (source : option str)
    (edit_strength : pyfloat) (w w' : World) (out : str * str * str) :
  generate_image cfg h prompt m aspect_ratio resolution source edit_strength
    w = (Ok out, w') ->
  exists d,
    last_image_file w' = Some (dumps_indent2 (VDict d))
    /\ forall loads,
         loads (dumps_indent2 (VDict d)) = Ok (VDict d) ->
         (forall cfg' h',
            upscale_source cfg' h' loads (str_of "last") w'
            = (Ok (Continue (VStr (snd out))), w'))
         /\ edit_source loads (Some (str_of "last")) None w'
            = (Ok (Continue (VStr (snd out), VStr aspect_ratio)), w')
         /\ (forall c a,
               edit_source loads (Some (str_of "last")) (Some (c :: a)) w'
               = (Ok (Continue (VStr (snd out), VStr (c :: a))), w')).
Proof.
  intros H. apply generate_records in H.
  destruct (last_points_back _ _ _ H) as [d [F G]].
  exists d. split; [exact F |]. intros loads L.
  destruct (G loads L) as [G1 G2].
  split; [exact G1 |]. split; [exact (G2 None) |].
  intros c a. exact (G2 (Some (c :: a))).
Qed.

Lemma last_after_generation_witness :
  let env := env_without_remote_path in
  let run := generate_image (load_config env) (test_host env)
               (str_of "A red bicycle") Pro (str_of "16:9") (str_of "2K")
               None (FDec 8 (-1)) empty_world in
  let out :=
    (str_of "/skill/images/2026-01-31/12-00-00-pro-a-red-bicycle.png",
     str_of "/skill/images/2026-01-31",
     str_of "https://cdn.krea.ai/out.png") in
  fst run = Ok out
  /\ exists d,
       last_image_file (snd run) = Some (dumps_indent2 (VDict d))
       /\ edit_source (reads_as (VDict d)) (Some (str_of "last")) None
            (snd run)
          = (Ok (Continue (VS "https://cdn.krea.ai/out.png", VS "16:9")),
             snd run).
Proof.
  intros env run out.
  assert (E : run = (Ok out, snd run)) by (vm_compute; reflexivity).
  split; [rewrite E; reflexivity |].
  destruct (last_after_generation (load_config env) (test_host env)
              (str_of "A red bicycle") Pro (str_of "16:9") (str_of "2K")
              None (FDec 8 (-1)) empty_world (snd run) out E) as [d [F G]].
  exists d. split; [exact F |].
  destruct (G (reads_as (VDict d)) eq_refl) as [_ [G2 _]]. exact G2.
Defined.

Lemma run_upscale_cases (cfg : Config) (h : Host)
    (interactive_upscale : str -> M (str * str * str)) (args : Args)
    (url : str) :
  interactive args = false ->
  (exists s t,
     run_upscale cfg h interactive_upscale args url
     = upscale_image cfg h url s (str_of "png") t None None)
  \/ (exists s b p,
        run_upscale cfg h interactive_upscale args url
        = upscale_bloom cfg h url s (str_of "png") b p None None).
Proof.
  intros H. unfold run_upscale, upscale_dispatch. rewrite H.
  destruct (preset_arg args) as [name|].
  - cbv zeta. destruct (preset_settings _ _); eauto.
  - destruct (engine_arg args); eauto.
Qed.

(** X21: After an upscale that returned, run from the command line with a
    preset or with explicit options, [last] is the upscaled image:
    [--upscale last] and [--edit last] take the URL the upscale returned.
    The aspect ratio of the image is not in the record: [--edit last]
    without [--aspect-ratio] edits at [1:1]. *)
Theorem last_after_upscale (cfg : Config) (h : Host)
    (interactive_upscale : str -> M (str * str * str)) (args : Args)
    (url : str) (w w' : World) (out : str * str * str) :
  interactive args = false ->
  run_upscale cfg h interactive_upscale args url w = (Ok out, w') ->
  exists d,
    last_image_file w' = Some (dumps_indent2 (VDict d))
    /\ forall loads,
         loads (dumps_indent2 (VDict d)) = Ok (VDict d) ->
         (forall cfg' h',
            upscale_source cfg' h' loads (str_of "last") w'
            = (Ok (Continue (VStr (snd out))), w'))
         /\ edit_source loads (Some (str_of "last")) None w'
            = (Ok (Continue (VStr (snd out), VS "1:1")), w').
Proof.
  intros Hi H.
  assert (R : record_points_at None out w').
  { destruct (run_upscale_cases cfg h interactive_upscale args url Hi)
      as [[s [t E]] | [s [b [p E]]]]; rewrite E in H.
    - exact (topaz_records _ _ _ _ _ _ _ _ _ _ _ H).
    - exact (bloom_records _ _ _ _ _ _ _ _ _ _ _ _ H). }
  destruct (last_points_back _ _ _ R) as [d [F G]].
  exists d. split; [exact F |]. intros loads L.
  destruct (G loads L) as [G1 G2].
  split; [exact G1 | exact (G2 None)].
Qed.

Lemma last_after_upscale_witness :
  let env := env_without_remote_path in
  let args := parse_args (upscale_cli (Some Portrait) None) in
  let run := run_upscale (load_config env) (test_host env)
               (fun _ => raise LibraryError) args
               (str_of "https://cdn.krea.ai/src.png") empty_world in
  let out :=
    (str_of "/skill/images/2026-01-31/12-00-00-upscale-2x.png",
     str_of "/skill/images/2026-01-31",
     str_of "https://cdn.krea.ai/out.png") in
  fst run = Ok out
  /\ exists d,
       last_image_file (snd run) = Some (dumps_indent2 (VDict d))
       /\ edit_source (reads_as (VDict d)) (Some (str_of "last")) None
            (snd run)
          = (Ok (Continue (VS "https://cdn.krea.ai/out.png", VS "1:1")),
             snd run).
Proof.
  intros env args run out.
  assert (E : run = (Ok out, snd run)) by (vm_compute; reflexivity).
  split; [rewrite E; reflexivity |].
  destruct (last_after_upscale (load_config env) (test_host env)
              (fun _ => raise LibraryError) args
              (str_of "https://cdn.krea.ai/src.png") empty_world (snd run)
              out eq_refl E) as [d [F G]].
  exists d. split; [exact F |].
  destruct (G (reads_as (VDict d)) eq_refl) as [_ G2]. exact G2.
Defined.

(** X22: Without a previous image, [--upscale last] and [--edit last] end
    with status 1 and change nothing: no request is made, no file is
    written. *)
Theorem last_without_previous_image (cfg : Config) (h : Host)
    (loads : str -> result value) (given : option str) (w : World) :
  (last_image_file w = None
   \/ exists file_text v,
        last_image_file w = Some file_text
        /\ loads file_text = Ok v /\ truthy v = false) ->
  upscale_source cfg h loads (str_of "last") w = (Ok (Exit 1), w)
  /\ edit_source loads (Some (str_of "last")) given w = (Ok (Exit 1), w).
Proof.
  intros H.
  assert (G : exists v, get_last_image_info loads w = (Ok v, w)
                        /\ truthy v = false).
  { unfold get_last_image_info.
    destruct H as [-> | [file_text [v [-> [-> T]]]]]; eauto. }
  destruct G as [v [G T]]. split.
  - unfold upscale_source. rewrite str_eqb_refl. unfold bind.
    rewrite G, T. reflexivity.
  - unfold edit_source. rewrite last_word_cons, str_eqb_refl. unfold bind.
    rewrite G, T. reflexivity.
Qed.

Lemma last_without_previous_image_witness :
  upscale_source (load_config env_without_remote_path)
    (test_host env_without_remote_path) (reads_as VNone) (str_of "last")
    empty_world
  = (Ok (Exit 1), empty_world)
  /\ edit_source (reads_as VNone) (Some (str_of "last")) None empty_world
     = (Ok (Exit 1), empty_world).
Proof.
  apply (last_without_previous_image (load_config env_without_remote_path)
           (test_host env_without_remote_path) (reads_as VNone) None
           empty_world).
  left. reflexivity.
Defined.

(** ** What [main] leaves behind *)

Lemma generate_folder (cfg : Config) (h : Host) (prompt : str) (m : model)
    (aspect_ratio resolution : str) (source : option str)
    (edit_strength : pyfloat) :
  on_return (fun out _ => snd (fst out) = date_folder h)
    (generate_image cfg h prompt m aspect_ratio resolution source
       edit_strength).
Proof.
  unfold generate_image.
  destruct (negb (is_set (API_KEY cfg))); [apply on_return_raise |].
  cbv zeta. do 7 (apply on_return_bind; intros ?).
  intros w out w' H. injection H as <- _. reflexivity.
Qed.

Lemma topaz_folder (cfg : Config) (h : Host) (image_url : str)
    (scale_factor : Z) (output_format : str) (t : topaz_settings)
    (sw sh : option Z) :
  on_return (fun out _ => snd (fst out) = date_folder h)
    (upscale_image cfg h image_url scale_factor output_format t sw sh).
Proof.
  unfold upscale_image.
  destruct (negb (is_set (API_KEY cfg))); [apply on_return_raise |].
  cbv zeta. do 7 (apply on_return_bind; intros ?).
  intros w out w' H. injection H as <- _. reflexivity.
Qed.

Lemma bloom_folder (cfg : Config) (h : Host) (image_url : str)
    (scale_factor : Z) (output_format : str) (b : bloom_settings)
    (prompt : str) (sw sh : option Z) :
  on_return (fun out _ => snd (fst out) = date_folder h)
    (upscale_bloom cfg h image_url scale_factor output_format b prompt
       sw sh).
Proof.
  unfold upscale_bloom.
  destruct (negb (is_set (API_KEY cfg))); [apply on_return_raise |].
  cbv zeta. do 7 (apply on_return_bind; intros ?).
  intros w out w' H. injection H as <- _. reflexivity.
Qed.

Lemma open_day_folder (open_ok : str -> bool) (h : Host)
    (opened : list str) :
  open_folder open_ok (Some (date_folder h)) opened
  = (open_ok (date_folder h), opened ++ [date_folder h]).
Proof.
  unfold open_folder, date_folder.
  destruct (skill_dir h) as [|c s]; reflexivity.
Qed.

Lemma saves_one_file (h : Host) (m : M (str * str * str)) (w : World) :
  saves_download h m ->
  on_return (fun out _ => snd (fst out) = date_folder h) m ->
  one_file_or_none h w (m w).
Proof.
  intros S F. specialize (S w). unfold one_file_or_none.
  assert (R : forall w' : World,
             written w' = written w
             \/ (exists file, written w' = written w ++ [file]) ->
             length (written w') = length (written w)
             \/ length (written w') = Datatypes.S (length (written w))).
  { intros w' [E | [file E]]; rewrite E; [left; reflexivity |].
    right. rewrite length_app. simpl. lia. }
  destruct (m w) as [[out|e|] w'] eqn:E; [| apply R, S | apply R, S].
  split; [| exact (F w out w' E)].
  destruct out as [[p f] u]. destruct S as [r [_ [_ W]]].
  rewrite W, length_app. simpl. lia.
Qed.

Lemma generate_loop_outcome (cfg : Config) (hosts : nat -> Host)
    (prompt : str) (m : model) (aspect_ratio resolution : str)
    (source : option str) (edit_strength : pyfloat) :
  forall remaining i output_paths output_folder w res w',
    generate_loop cfg hosts prompt m aspect_ratio resolution source
      edit_strength remaining i output_paths output_folder w = (res, w') ->
    exists k,
      (k <= remaining)%nat
      /\ length (written w') = (length (written w) + k)%nat
      /\ match res with
         | Ok (_, folder) =>
             k = remaining
             /\ (remaining = 0%nat -> folder = output_folder /\ w' = w)
             /\ (remaining <> 0%nat ->
                 folder
                 = Some (date_folder (hosts (i + remaining - 1)%nat)))
         | _ => True
         end.
Proof.
  induction remaining as [|remaining IH];
    intros i output_paths output_folder w res w' H.
  - injection H as <- <-. exists 0%nat.
    split; [lia |]. split; [lia |]. split; [reflexivity |].
    split; [auto | intros N; contradiction N; reflexivity].
  - cbn [generate_loop] in H. unfold bind in H.
    pose proof (saves_one_file (hosts i) _ w
                  (generate_saves cfg (hosts i) prompt m aspect_ratio
                     resolution source edit_strength)
                  (generate_folder cfg (hosts i) prompt m aspect_ratio
                     resolution source edit_strength)) as One.
    unfold one_file_or_none in One.
    destruct (generate_image cfg (hosts i) prompt m aspect_ratio resolution
                source edit_strength w) as [[out|e|] w1].
    + destruct One as [W F].
      apply IH in H. destruct H as [k [Hk [Hw Hres]]].
      exists (S k). split; [lia |]. split; [lia |].
      destruct res as [[paths folder]|e|]; [| exact I | exact I].
      destruct Hres as [-> [H0 Hn]].
      split; [reflexivity |]. split; [intros N; discriminate N | intros _].
      destruct remaining as [|remaining'].
      * destruct (H0 eq_refl) as [-> _]. rewrite F.
        replace (i + 1 - 1)%nat with i by lia. reflexivity.
      * rewrite Hn by discriminate.
        replace (S i + S remaining' - 1)%nat
          with (i + S (S remaining') - 1)%nat by lia.
        reflexivity.
    + injection H as <- <-.
      destruct One as [One | One]; [exists 0%nat | exists 1%nat];
        (split; [lia | split; [lia | exact I]]).
    + injection H as <- <-.
      destruct One as [One | One]; [exists 0%nat | exists 1%nat];
        (split; [lia | split; [lia | exact I]]).
Qed.



(** X24: A batch always ends with an exit status, 0 or 1, whatever the
    service answers to each generation. *)
Theorem batch_exit_status (cfg : Config) (hosts : nat -> Host)
    (open_ok : str -> bool) (prompt : str) (m : model)
    (aspect_ratio resolution : str) (source : option str)
    (edit_strength : pyfloat) (num_images : Z) (w : World)
    (opened : list str) :
  (forall i, answers_or_raises (hosts i)) ->
  fst (generate_batch cfg hosts open_ok prompt m aspect_ratio resolution
         source edit_strength num_images w opened) = Ok 0
  \/ fst (generate_batch cfg hosts open_ok prompt m aspect_ratio resolution
            source edit_strength num_images w opened) = Ok 1.
Proof.
  intros Hh. unfold generate_batch.
  assert (L : forall remaining i output_paths output_folder,
             ends (generate_loop cfg hosts prompt m aspect_ratio resolution
                     source edit_strength remaining i output_paths
                     output_folder)).
  { induction remaining as [|remaining IH];
      intros i output_paths output_folder; cbn [generate_loop].
    - intros w0. discriminate.
    - apply ends_bind; [apply generate_ends, Hh | intros out; apply IH]. }
  specialize (L (Z.to_nat num_images) 0%nat [] None w).
  destruct (generate_loop cfg hosts prompt m aspect_ratio resolution source
              edit_strength (Z.to_nat num_images) 0 [] None w)
    as [[[paths output_folder]|e|] w1]; cbn [fst] in L.
  - destruct (open_folder open_ok output_folder opened) as [[|] opened'];
      auto.
  - auto.
  - contradiction L. reflexivity.
Qed.

Lemma hosts_failing_from_answer (bad i : nat) :
  answers_or_raises (hosts_failing_from bad i).
Proof.
  unfold hosts_failing_from. destruct (i <? bad)%nat;
    [apply test_host_answers |].
  split; [intros url payload; discriminate |].
  split; [| intros url; discriminate].
  intros job_id k. cbn. unfold third_time_lucky.
  destruct (k <? 2)%nat; discriminate.
Qed.

Lemma batch_exit_status_witness :
  let run := generate_batch (load_config env_without_remote_path)
               (hosts_failing_from 1) (fun _ => true)
               (str_of "A red bicycle") Nano (str_of "1:1") (str_of "1K")
               None (FDec 8 (-1)) 3 empty_world [] in
  fst run = Ok 0 \/ fst run = Ok 1.
Proof.
  exact (batch_exit_status (load_config env_without_remote_path)
           (hosts_failing_from 1) (fun _ => true) (str_of "A red bicycle")
           Nano (str_of "1:1") (str_of "1K") None (FDec 8 (-1)) 3
           empty_world [] (hosts_failing_from_answer 1)).
Defined.

Lemma upscale_run_files (cfg : Config) (h : Host)
    (interactive_upscale : str -> M (str * str * str)) (args : Args)
    (path : str) (w : World) :
  interactive args = false ->
  one_file_or_none h w
    ((url <- resolve_image_url cfg h path ;;
      run_upscale cfg h interactive_upscale args url) w).
Proof.
  intros Hi. unfold bind.
  destruct (touches_only_ftp_resolve cfg h path w) as [_ [_ [W _]]].
  destruct (resolve_image_url cfg h path w) as [[url|e|] w0];
    cbn [snd] in W;
    [| left; rewrite W; reflexivity | left; rewrite W; reflexivity].
  assert (One : one_file_or_none h w0
                  (run_upscale cfg h interactive_upscale args url w0)).
  { destruct (run_upscale_cases cfg h interactive_upscale args url Hi)
      as [[s [t E]] | [s [b [p E]]]]; rewrite E.
    - apply saves_one_file; [apply topaz_saves | apply topaz_folder].
    - apply saves_one_file; [apply bloom_saves | apply bloom_folder]. }
  unfold one_file_or_none in *. rewrite W in One. exact One.
Qed.


